(** * Entrepreneurial well-being simulator

    A shallow embedding of [src/EntrepreneurialWellbeingSimulator.jsx]: the
    engine (the class [SeededRandom], [runSimulation] and
    [runMultipleSimulations]) and the logic of the dashboard that drives it
    (the state of the application and its handlers, the outcome
    interpretation, the opacities of the system diagram, the statistics of
    the distribution view).

    JavaScript numbers are IEEE 754 binary64 values; they are modelled by
    Rocq's primitive floats, which are the same format with the same
    correctly rounded [+], [-], [*], [/] and [sqrt].  Integers that the
    code keeps in numbers (the generator's seed, the loop counter) are
    modelled by [Z], and every place where the source leaves the integers
    (the double product in [next], the division that normalises a draw)
    goes through the float operations.

    The engine is deterministic but for one call of [Math.random], which
    supplies the base seed when the caller gives none; the value of
    [Math.floor(Math.random() * 1000000)] is an argument, [fresh], of the
    functions that may evaluate it.  An exception is a value of a sum
    type. *)

From Stdlib Require Import ZArith List Bool Lia Floats.
From Stdlib Require Uint63 String.
Import String.StringSyntax.
Import ListNotations.

Local Open Scope Z_scope.

(** ** JavaScript numbers *)

Module JS.

Definition number := float.

(** The double nearest to an integer (ties to even, overflow to an
    infinity): how an integer literal or an integer-valued variable is
    read as a number. *)
Definition of_Z (z : Z) : number :=
  SF2Prim (binary_normalize prec emax z 0 false).

(** The integer part of a finite number, truncated towards zero; [0] for
    NaN and the infinities (ECMAScript [ToIntegerOrInfinity], with the
    infinities already sent to the [0] that [ToInt32] gives them). *)
Definition truncate (x : number) : Z :=
  match Prim2SF x with
  | S754_finite s m e =>
      let v := if 0 <=? e then Z.shiftl (Zpos m) e
               else Z.shiftr (Zpos m) (- e) in
      if s then - v else v
  | _ => 0
  end.

(** ECMAScript [ToInt32]: the integer part modulo [2^32], read as a
    signed 32-bit integer. *)
Definition ToInt32 (x : number) : Z :=
  (truncate x + 2 ^ 31) mod 2 ^ 32 - 2 ^ 31.

(** [x & y]: both operands through [ToInt32], bitwise and. *)
Definition bitand (x y : number) : Z :=
  Z.land (ToInt32 x) (ToInt32 y).

(** [Math.max] and [Math.min] on two arguments: NaN if either is NaN,
    and [+0] is larger than [-0]. *)
Definition Math_max (a b : number) : number :=
  if is_nan a || is_nan b then nan
  else if (a <? b)%float then b
  else if (b <? a)%float then a
  else if get_sign a then b else a.

Definition Math_min (a b : number) : number :=
  if is_nan a || is_nan b then nan
  else if (a <? b)%float then a
  else if (b <? a)%float then b
  else if get_sign a then a else b.

(** [x === y] on numbers is IEEE equality: NaN differs from itself and
    the two zeros are equal. *)
Definition strict_eq (x y : number) : bool := (x =? y)%float.

(** The exact value of a non-negative finite number times 1000, rounded
    to the nearest integer, halves upwards: the integer [n] of
    [Number.prototype.toFixed] for three digits ("let n be an integer
    for which n / 10^f - x is as close to zero as possible; if there are
    two such n, pick the larger"). *)
Definition thousandths (x : number) : Z :=
  match Prim2SF x with
  | S754_finite _ m e =>
      if 0 <=? e then Z.shiftl (Zpos m * 1000) e
      else (2 * (Zpos m * 1000) + 2 ^ (- e)) / 2 ^ (- e + 1)
  | _ => 0
  end.

(** [+x.toFixed(3)]: the decimal string with three digits, read back as
    a number.  NaN and the infinities print as their names and read back
    as themselves.  From [2^43] on, a double is its own nearest neighbour
    among the decimals with three digits (its neighbours are more than
    [0.0005] away), and from [10^21] on [toFixed] prints the number in
    full, so the number reads back unchanged; below [2^43] the integer
    [n] is under [2^53], and the string reads back as the double nearest
    to [n / 1000].  A negative number prints its sign and the digits of
    its absolute value, so [-0.0001] reads back as [-0]. *)
Definition toFixed3 (x : number) : number :=
  if is_nan x then nan
  else if (0x1p43 <=? abs x)%float then x
  else
    let r := (of_Z (thousandths (abs x)) / 1000)%float in
    if (x <? 0)%float then (- r)%float else r.

End JS.

Arguments JS.truncate x%_float.
Arguments JS.ToInt32 x%_float.
Arguments JS.bitand (x y)%_float.
Arguments JS.Math_max (a b)%_float.
Arguments JS.Math_min (a b)%_float.
Arguments JS.strict_eq (x y)%_float.
Arguments JS.toFixed3 x%_float.

(** ** The engine's built-in functions

    [Math.log], [Math.cos] and [Math.exp] are built-ins of the JavaScript
    engine; ECMAScript leaves their results implementation-approximated.
    The development is parametric in them. *)

Record MathLib := {
  Math_log : JS.number -> JS.number;
  Math_cos : JS.number -> JS.number;
  Math_exp : JS.number -> JS.number
}.

(** [Math.PI], the double nearest to pi. *)
Definition Math_PI : JS.number := 0x1.921fb54442d18p+1%float.

(** ** SeededRandom *)

Module SeededRandom.

(** The object's only field.  It is an integer: the constructor is given
    one, and [next] stores the result of a bitwise and. *)
Record t := { seed : Z }.

Definition constructor (s : Z) : t := {| seed := s |}.

(** The seed that [next()] stores: the product and the sum are computed
    on doubles, [&] brings the result back to an integer of 31 bits. *)
Definition next_seed (s : Z) : Z :=
  JS.bitand (JS.of_Z s * 1103515245 + 12345)%float 0x7fffffff%float.

(** [next()]: store the new seed, return it divided by [0x7fffffff]. *)
Definition next (g : t) : JS.number * t :=
  let s' := next_seed (seed g) in
  ((JS.of_Z s' / 0x7fffffff)%float, {| seed := s' |}).

Section Samplers.
Variable M : MathLib.

(** [nextNormal(mean, std)]: Box-Muller on two consecutive draws. *)
Definition nextNormal (mean std : JS.number) (g : t) : JS.number * t :=
  let '(u1, g1) := next g in
  let '(u2, g2) := next g1 in
  let z := (sqrt (-2 * Math_log M u1) * Math_cos M (2 * Math_PI * u2))%float in
  ((mean + z * std)%float, g2).

(** [nextTruncatedNormal(mean, std, min, max)]: one normal draw,
    clamped. *)
Definition nextTruncatedNormal (mean std min max : JS.number) (g : t)
  : JS.number * t :=
  let '(value, g1) := nextNormal mean std g in
  (JS.Math_max min (JS.Math_min max value), g1).
End Samplers.

(** [nextPoisson(mean, min, max)]: 1 when the draw is below [mean],
    else 0, clamped. *)
Definition nextPoisson (mean min max : JS.number) (g : t) : JS.number * t :=
  let '(u, g1) := next g in
  let value := if (u <? mean)%float then 1%float else 0%float in
  (JS.Math_max min (JS.Math_min max value), g1).

End SeededRandom.

Arguments SeededRandom.nextNormal M (mean std)%_float g.
Arguments SeededRandom.nextTruncatedNormal M (mean std min max)%_float g.
Arguments SeededRandom.nextPoisson (mean min max)%_float g.

(** ** The simulation engine *)

(** The [coefficients] object: a key may be absent. *)
Record Coefficients := {
  var1 : option JS.number; var2 : option JS.number;
  var3 : option JS.number; var4 : option JS.number;
  var5 : option JS.number; var6 : option JS.number;
  var7 : option JS.number; var8 : option JS.number;
  var9 : option JS.number; var10 : option JS.number
}.

(** The default of the destructuring, [coefficients = {}]. *)
Definition no_coefficients : Coefficients :=
  {| var1 := None; var2 := None; var3 := None; var4 := None; var5 := None;
     var6 := None; var7 := None; var8 := None; var9 := None; var10 := None |}.

Record Params := {
  ambition : JS.number;
  skill : JS.number;
  selfRegulation : JS.number;
  dynamism : JS.number;
  coefficients : option Coefficients
}.

(** [c ?? 1] *)
Definition or_one (c : option JS.number) : JS.number :=
  match c with Some v => v | None => 1%float end.

(** One element of the trajectory. *)
Record TrajectoryPoint := {
  period : Z;
  motivation : JS.number;
  strain : JS.number;
  effort : JS.number;
  performance : JS.number;
  wellbeing : JS.number;
  resources : JS.number;
  recovery : JS.number;
  cumulativeEffort : JS.number;
  challengeStressors : JS.number;
  hindranceStressors : JS.number;
  advance : JS.number;
  setback : JS.number
}.

(** The five generators. *)
Record Streams := {
  rng0_advance : SeededRandom.t;
  rng1_setback : SeededRandom.t;
  rng1_setbackPoisson : SeededRandom.t;
  rng2_challenge : SeededRandom.t;
  rng3_hindrance : SeededRandom.t
}.

(** The four stocks. *)
Record Stocks := {
  s_motivation : JS.number;
  s_strain : JS.number;
  s_cumulativeEffort : JS.number;
  s_progress : JS.number
}.

(** What the loop of [runSimulation] carries from one period to the
    next. *)
Record State := {
  streams : Streams;
  stocks : Stocks;
  trajectory : list TrajectoryPoint
}.

(** Everything one period computes: the auxiliary and flow variables, the
    stocks after the update and the clamp, the well-being, and the
    generators after the period's draws. *)
Record Period := {
  p_progressSensitivity : JS.number;
  p_relativeProgress : JS.number;
  p_resources : JS.number;
  p_challengeStressors : JS.number;
  p_hindranceStressors : JS.number;
  p_recovery : JS.number;
  p_motivationIncrease : JS.number;
  p_motivationDecrease : JS.number;
  p_strainIncrease : JS.number;
  p_strainDecrease : JS.number;
  p_effort : JS.number;
  p_advanceRandom : JS.number;
  p_advance : JS.number;
  p_setbackPoisson : JS.number;
  p_setbackRandom : JS.number;
  p_setback : JS.number;
  p_unclamped : Stocks;
  p_stocks : Stocks;
  p_wellbeing : JS.number;
  p_streams : Streams
}.

Section Engine.
Variable M : MathLib.

Local Open Scope float_scope.
Local Notation "x === y" := (JS.strict_eq x y) (at level 70, no associativity).

Definition coeffs (params : Params) : Coefficients :=
  match coefficients params with Some c => c | None => no_coefficients end.

(** The body of the loop up to the well-being: one period's equations,
    in the order of the source. *)
Definition period_body (params : Params) (finalTime time : Z)
    (rs : Streams) (st : Stocks) : Period :=
  let ambition := ambition params in
  let skill := skill params in
  let selfRegulation := selfRegulation params in
  let dynamism := dynamism params in
  let Var1 := or_one (var1 (coeffs params)) in
  let Var2 := or_one (var2 (coeffs params)) in
  let Var3 := or_one (var3 (coeffs params)) in
  let Var4 := or_one (var4 (coeffs params)) in
  let Var5 := or_one (var5 (coeffs params)) in
  let Var6 := or_one (var6 (coeffs params)) in
  let Var7 := or_one (var7 (coeffs params)) in
  let Var8 := or_one (var8 (coeffs params)) in
  let Var9 := or_one (var9 (coeffs params)) in
  let Var10 := or_one (var10 (coeffs params)) in
  let motivation := s_motivation st in
  let strain := s_strain st in
  let cumulativeEffort := s_cumulativeEffort st in
  let progress := s_progress st in
  (* auxiliary variables *)
  let progressSensitivity := JS.of_Z time / JS.of_Z finalTime in
  let relativeProgress :=
    if cumulativeEffort === 0 then 0 else progress / cumulativeEffort in
  let resources :=
    ambition * (1 - progressSensitivity) + relativeProgress * progressSensitivity in
  let '(challengeStressors, g2) :=
    if ambition === 0 then (0, rng2_challenge rs)
    else SeededRandom.nextTruncatedNormal M 0 ambition 0 ambition (rng2_challenge rs) in
  let '(hindranceStressors, g3) :=
    if ambition === 0 then (0, rng3_hindrance rs)
    else SeededRandom.nextTruncatedNormal M 0 ambition 0 ambition (rng3_hindrance rs) in
  let recovery :=
    if ambition === 0 then 1
    else 1 - (1 - selfRegulation)
             * (Var2 * challengeStressors + Var3 * hindranceStressors)
             / (2 * ambition) in
  (* flow variables *)
  let motivationIncrease := JS.Math_max challengeStressors resources * recovery * Var1 in
  let motivationDecrease :=
    JS.Math_min motivation ((1 - selfRegulation) * hindranceStressors * Var7) in
  let strainIncrease :=
    if ambition === 0 then 0
    else (1 - selfRegulation)
         * (Var4 * challengeStressors + Var5 * hindranceStressors)
         / (2 * ambition) in
  let strainDecrease := JS.Math_min strain (resources * recovery * Var6) in
  let effort :=
    if motivation === 0 then 0
    else Var8 * (1 / (1 + Math_exp M (strain - motivation))) in
  let '(advanceRandom, g0) :=
    SeededRandom.nextTruncatedNormal M 0 ambition 0 ambition (rng0_advance rs) in
  let advance := if skill === 0 then 0 else effort * skill * advanceRandom in
  let '(setbackPoisson, g1p) :=
    SeededRandom.nextPoisson dynamism 0 1 (rng1_setbackPoisson rs) in
  let '(setbackRandom, g1) :=
    SeededRandom.nextTruncatedNormal M 0 ambition 0 ambition (rng1_setback rs) in
  let setback := setbackPoisson * JS.Math_min progress setbackRandom in
  (* update stocks *)
  let motivation1 := motivation + motivationIncrease - motivationDecrease in
  let strain1 := strain + strainIncrease - strainDecrease in
  let cumulativeEffort1 := cumulativeEffort + effort in
  let progress1 := progress + advance - setback in
  (* ensure non-negative *)
  let motivation2 := JS.Math_max 0 motivation1 in
  let strain2 := JS.Math_max 0 strain1 in
  let progress2 := JS.Math_max 0 progress1 in
  (* output variables *)
  let wellbeing := Var9 * motivation2 - Var10 * strain2 in
  {| p_progressSensitivity := progressSensitivity;
     p_relativeProgress := relativeProgress;
     p_resources := resources;
     p_challengeStressors := challengeStressors;
     p_hindranceStressors := hindranceStressors;
     p_recovery := recovery;
     p_motivationIncrease := motivationIncrease;
     p_motivationDecrease := motivationDecrease;
     p_strainIncrease := strainIncrease;
     p_strainDecrease := strainDecrease;
     p_effort := effort;
     p_advanceRandom := advanceRandom;
     p_advance := advance;
     p_setbackPoisson := setbackPoisson;
     p_setbackRandom := setbackRandom;
     p_setback := setback;
     p_unclamped :=
       {| s_motivation := motivation1; s_strain := strain1;
          s_cumulativeEffort := cumulativeEffort1; s_progress := progress1 |};
     p_stocks :=
       {| s_motivation := motivation2; s_strain := strain2;
          s_cumulativeEffort := cumulativeEffort1; s_progress := progress2 |};
     p_wellbeing := wellbeing;
     p_streams :=
       {| rng0_advance := g0; rng1_setback := g1; rng1_setbackPoisson := g1p;
          rng2_challenge := g2; rng3_hindrance := g3 |} |}.

(** The object pushed on the trajectory. *)
Definition record_point (time : Z) (c : Period) : TrajectoryPoint :=
  {| period := time;
     motivation := JS.toFixed3 (s_motivation (p_stocks c));
     strain := JS.toFixed3 (s_strain (p_stocks c));
     effort := JS.toFixed3 (p_effort c);
     performance := JS.toFixed3 (s_progress (p_stocks c));
     wellbeing := JS.toFixed3 (p_wellbeing c);
     resources := JS.toFixed3 (p_resources c);
     recovery := JS.toFixed3 (p_recovery c);
     cumulativeEffort := JS.toFixed3 (s_cumulativeEffort (p_stocks c));
     challengeStressors := JS.toFixed3 (p_challengeStressors c);
     hindranceStressors := JS.toFixed3 (p_hindranceStressors c);
     advance := JS.toFixed3 (p_advance c);
     setback := JS.toFixed3 (p_setback c) |}.

(** One iteration of the loop: the period's equations, then the push
    when [time % 5 === 0]. *)
Definition step (params : Params) (finalTime time : Z) (s : State) : State :=
  let c := period_body params finalTime time (streams s) (stocks s) in
  {| streams := p_streams c;
     stocks := p_stocks c;
     trajectory :=
       if (Z.rem time 5 =? 0)%Z
       then trajectory s ++ [record_point time c]
       else trajectory s |}.

(** [n] iterations of the loop, from [time] on. *)
Fixpoint loop (params : Params) (finalTime : Z) (n : nat) (time : Z) (s : State)
  : State :=
  match n with
  | O => s
  | S n' => loop params finalTime n' (time + 1)%Z (step params finalTime time s)
  end.

(** [seed || Math.floor(Math.random() * 1000000)]: [fresh] is the value
    the right operand has if it is evaluated; it is for a seed that is
    [null] (here [None]) or [0]. *)
Definition baseSeed (fresh : Z) (seed : option Z) : Z :=
  match seed with
  | Some s => if (s =? 0)%Z then fresh else s
  | None => fresh
  end.

(** The state before the loop: five generators and four stocks.  The
    offsets are added on integers, as the source does for every base seed
    that a number holds exactly together with its four sums (any integer
    below [2^53 - 3000] in absolute value). *)
Definition init (base : Z) : State :=
  {| streams :=
       {| rng0_advance := SeededRandom.constructor base;
          rng1_setback := SeededRandom.constructor (base + 1000)%Z;
          rng1_setbackPoisson := SeededRandom.constructor (base + 1500)%Z;
          rng2_challenge := SeededRandom.constructor (base + 2000)%Z;
          rng3_hindrance := SeededRandom.constructor (base + 3000)%Z |};
     stocks :=
       {| s_motivation := 0; s_strain := 0;
          s_cumulativeEffort := 0; s_progress := 0 |};
     trajectory := [] |}.

(** The state when the loop [for (time = 0; time <= finalTime; time++)]
    ends: it runs [finalTime + 1] times, and not at all for a negative
    [finalTime]. *)
Definition final_state (fresh : Z) (params : Params) (finalTime : Z)
    (seed : option Z) : State :=
  loop params finalTime (Z.to_nat (finalTime + 1)) 0%Z
       (init (baseSeed fresh seed)).

Definition runSimulation (fresh : Z) (params : Params) (finalTime : Z)
    (seed : option Z) : list TrajectoryPoint :=
  trajectory (final_state fresh params finalTime seed).

(** *** runMultipleSimulations *)

Record RunSummary := {
  run : Z;
  r_performance : JS.number;
  r_wellbeing : JS.number;
  finalEffort : JS.number
}.

(** What a call can throw: reading a property of [undefined]. *)
Inductive Exception := TypeError.

(** [n] iterations of [for (let i = 0; i < numRuns; i++)], from [i] on.
    Each run calls [runSimulation] without a seed; [fresh i] is the base
    seed that run [i] draws.  [trajectory[trajectory.length - 1]] is
    [undefined] for an empty trajectory, and reading [final.performance]
    then throws. *)
Fixpoint runs (fresh : nat -> Z) (params : Params) (finalTime : Z)
    (n i : nat) (results : list RunSummary) : Exception + list RunSummary :=
  match n with
  | O => inr results
  | S n' =>
      let trajectory := runSimulation (fresh i) params finalTime None in
      match last (map Some trajectory) None with
      | None => inl TypeError
      | Some final =>
          runs fresh params finalTime n' (S i)
               (results ++ [ {| run := Z.of_nat i;
                                r_performance := performance final;
                                r_wellbeing := wellbeing final;
                                finalEffort := effort final |} ])
      end
  end.

Definition runMultipleSimulations (fresh : nat -> Z) (params : Params)
    (numRuns finalTime : Z) : Exception + list RunSummary :=
  runs fresh params finalTime (Z.to_nat numRuns) 0%nat [].

End Engine.

(** * The dashboard *)

(** [x || 0] on a field read through [?.]: the field's value, unless
    there is no state ([undefined]) or the value is falsy, that is NaN or
    one of the zeros. *)
Definition or_zero (x : option JS.number) : JS.number :=
  match x with
  | Some v => if is_nan v || (v =? 0)%float then 0%float else v
  | None => 0%float
  end.

(** ** SystemDiagram *)

Module SystemDiagram.
Local Open Scope float_scope.
Section Component.
Variable currentState : option TrajectoryPoint.
Variable isActive : bool.

Definition m : JS.number := or_zero (option_map motivation currentState).
Definition s : JS.number := or_zero (option_map strain currentState).
Definition e : JS.number := or_zero (option_map effort currentState).
Definition p : JS.number := or_zero (option_map performance currentState).
Definition r : JS.number := or_zero (option_map resources currentState).
Definition rec : JS.number := or_zero (option_map recovery currentState).
Definition wb : JS.number := or_zero (option_map wellbeing currentState).

(** [getOpacity(value, max = 1)]; [0.2] and [0.15] are the doubles
    nearest to the literals. *)
Definition getOpacity (value max : JS.number) : JS.number :=
  if isActive
  then JS.Math_min 1 (JS.Math_max 0x1.999999999999ap-3 (abs value / max))
  else 0x1.3333333333333p-3.

(** The [opacity] attributes of the seven connections, in the order of
    the source. *)
Definition opacities : list JS.number :=
  [ getOpacity r 1; getOpacity m 50; getOpacity s 50; getOpacity e 1;
    getOpacity e 1; getOpacity p 50; getOpacity rec 1 ].

End Component.
End SystemDiagram.

Arguments SystemDiagram.getOpacity isActive (value max)%_float.

(** ** The outcome interpretation *)

Module Outcome.
Record t := {
  type : String.string;
  color : String.string;
  bg : String.string;
  title : String.string;
  text : String.string
}.
End Outcome.

Local Open Scope string_scope.

Definition burnout : Outcome.t :=
  {| Outcome.type := "burnout"; Outcome.color := "#ef4444";
     Outcome.bg := "rgba(239, 68, 68, 0.1)";
     Outcome.title := "Burnout & Venture Abandonment";
     Outcome.text := "Strain overwhelmed motivation. The entrepreneur entered burnout territory and the venture stalled." |}.

Definition struggling : Outcome.t :=
  {| Outcome.type := "struggling"; Outcome.color := "#f59e0b";
     Outcome.bg := "rgba(245, 158, 11, 0.1)";
     Outcome.title := "Struggling & At Risk";
     Outcome.text := "Well-being is deteriorating. Without improving self-regulation or adjusting ambition, burnout risk is high." |}.

Definition resilient : Outcome.t :=
  {| Outcome.type := "resilient"; Outcome.color := "#06b6d4";
     Outcome.bg := "rgba(6, 182, 212, 0.1)";
     Outcome.title := "Resilient but Limited Progress";
     Outcome.text := "Strong self-regulation maintained well-being despite limited performance. May need to develop skill." |}.

Definition thriving : Outcome.t :=
  {| Outcome.type := "thriving"; Outcome.color := "#10b981";
     Outcome.bg := "rgba(16, 185, 129, 0.1)";
     Outcome.title := "Thriving Entrepreneur";
     Outcome.text := "Excellent alignment of ambition, skill, and self-regulation. Both venture and well-being flourishing." |}.

Definition strained : Outcome.t :=
  {| Outcome.type := "strained"; Outcome.color := "#8b5cf6";
     Outcome.bg := "rgba(139, 92, 246, 0.1)";
     Outcome.title := "Successful but Strained";
     Outcome.text := "Performance achieved at personal cost. Negative well-being suggests sustainability concerns." |}.

Definition moderate : Outcome.t :=
  {| Outcome.type := "moderate"; Outcome.color := "#3b82f6";
     Outcome.bg := "rgba(59, 130, 246, 0.1)";
     Outcome.title := "Steady Progress";
     Outcome.text := "The venture is developing with stable well-being. Explore parameter changes to improve outcomes." |}.

Local Close Scope string_scope.

(** [getOutcomeInterpretation()], as a function of [finalState]. *)
Definition getOutcomeInterpretation (finalState : option TrajectoryPoint)
  : option Outcome.t :=
  match finalState with
  | None => None
  | Some fs =>
      let p := performance fs in
      let wb := wellbeing fs in
      if (p <? 2)%float && (wb <? -20)%float then Some burnout
      else if (p <? 5)%float && (wb <? -10)%float then Some struggling
      else if (p <? 5)%float && (10 <? wb)%float then Some resilient
      else if (20 <? p)%float && (30 <? wb)%float then Some thriving
      else if (15 <? p)%float && (wb <? 0)%float then Some strained
      else Some moderate
  end.

(** ** The coefficient weights *)

(** The keys [updateCoefficient] is called with: ['var1'] to
    ['var10']. *)
Inductive CoefficientKey :=
| key_var1 | key_var2 | key_var3 | key_var4 | key_var5
| key_var6 | key_var7 | key_var8 | key_var9 | key_var10.


(** [coefficients[key]] *)
Definition lookup (key : CoefficientKey) (c : Coefficients) : option JS.number :=
  match key with
  | key_var1 => var1 c | key_var2 => var2 c | key_var3 => var3 c | key_var4 => var4 c
  | key_var5 => var5 c | key_var6 => var6 c | key_var7 => var7 c | key_var8 => var8 c
  | key_var9 => var9 c | key_var10 => var10 c
  end.


(** The object of [useState] and of [resetCoefficients]: every weight
    is 1. *)
Definition unit_coefficients : Coefficients :=
  {| var1 := Some 1%float; var2 := Some 1%float; var3 := Some 1%float;
     var4 := Some 1%float; var5 := Some 1%float; var6 := Some 1%float;
     var7 := Some 1%float; var8 := Some 1%float; var9 := Some 1%float;
     var10 := Some 1%float |}.

(** [Object.values(coefficients)] *)
Definition Object_values (c : Coefficients) : list JS.number :=
  flat_map (fun v => match v with Some x => [x] | None => [] end)
           [var1 c; var2 c; var3 c; var4 c; var5 c; var6 c; var7 c; var8 c; var9 c; var10 c].

(** [Object.values(coefficients).some(v => v !== 1)]: whether the
    badge [Modified] is shown. *)
Definition modified (c : Coefficients) : bool :=
  existsb (fun v => negb (JS.strict_eq v 1)) (Object_values c).

(** ** The state of the application *)

(** ['single'] and ['distribution'] *)
Inductive ViewMode := single | distribution.

Module App.
(** The values of the [useState] hooks and of [fullTrajectoryRef]
    ([animationRef] holds the handle of a timer). *)
Record t := {
  ambition : JS.number;
  skill : JS.number;
  selfRegulation : JS.number;
  dynamism : JS.number;
  coefficients : Coefficients;
  trajectory : list TrajectoryPoint;
  isRunning : bool;
  currentIndex : nat;
  multiRunResults : list RunSummary;
  viewMode : ViewMode;
  showEquations : bool;
  showAdvanced : bool;
  numSimulations : Z;
  currentSeed : option Z;
  lockSeed : bool;
  fullTrajectoryRef : list TrajectoryPoint
}.
End App.

(** The state of the first render. *)
Definition initial : App.t :=
  {| App.ambition := 0.5%float; App.skill := 0.5%float; App.selfRegulation := 0.5%float;
     App.dynamism := 0x1.999999999999ap-3%float; App.coefficients := unit_coefficients;
     App.trajectory := []; App.isRunning := false; App.currentIndex := 0%nat;
     App.multiRunResults := []; App.viewMode := single; App.showEquations := false;
     App.showAdvanced := false; App.numSimulations := 50; App.currentSeed := None;
     App.lockSeed := false; App.fullTrajectoryRef := [] |}.

(** The setters of the hooks that the handlers call. *)
Definition setCoefficients (v : Coefficients) (a : App.t) : App.t :=
  {| App.ambition := App.ambition a; App.skill := App.skill a;
     App.selfRegulation := App.selfRegulation a; App.dynamism := App.dynamism a;
     App.coefficients := v; App.trajectory := App.trajectory a;
     App.isRunning := App.isRunning a; App.currentIndex := App.currentIndex a;
     App.multiRunResults := App.multiRunResults a; App.viewMode := App.viewMode a;
     App.showEquations := App.showEquations a; App.showAdvanced := App.showAdvanced a;
     App.numSimulations := App.numSimulations a; App.currentSeed := App.currentSeed a;
     App.lockSeed := App.lockSeed a; App.fullTrajectoryRef := App.fullTrajectoryRef a |}.

Definition setTrajectory (v : list TrajectoryPoint) (a : App.t) : App.t :=
  {| App.ambition := App.ambition a; App.skill := App.skill a;
     App.selfRegulation := App.selfRegulation a; App.dynamism := App.dynamism a;
     App.coefficients := App.coefficients a; App.trajectory := v;
     App.isRunning := App.isRunning a; App.currentIndex := App.currentIndex a;
     App.multiRunResults := App.multiRunResults a; App.viewMode := App.viewMode a;
     App.showEquations := App.showEquations a; App.showAdvanced := App.showAdvanced a;
     App.numSimulations := App.numSimulations a; App.currentSeed := App.currentSeed a;
     App.lockSeed := App.lockSeed a; App.fullTrajectoryRef := App.fullTrajectoryRef a |}.

Definition setIsRunning (v : bool) (a : App.t) : App.t :=
  {| App.ambition := App.ambition a; App.skill := App.skill a;
     App.selfRegulation := App.selfRegulation a; App.dynamism := App.dynamism a;
     App.coefficients := App.coefficients a; App.trajectory := App.trajectory a;
     App.isRunning := v; App.currentIndex := App.currentIndex a;
     App.multiRunResults := App.multiRunResults a; App.viewMode := App.viewMode a;
     App.showEquations := App.showEquations a; App.showAdvanced := App.showAdvanced a;
     App.numSimulations := App.numSimulations a; App.currentSeed := App.currentSeed a;
     App.lockSeed := App.lockSeed a; App.fullTrajectoryRef := App.fullTrajectoryRef a |}.

Definition setCurrentIndex (v : nat) (a : App.t) : App.t :=
  {| App.ambition := App.ambition a; App.skill := App.skill a;
     App.selfRegulation := App.selfRegulation a; App.dynamism := App.dynamism a;
     App.coefficients := App.coefficients a; App.trajectory := App.trajectory a;
     App.isRunning := App.isRunning a; App.currentIndex := v;
     App.multiRunResults := App.multiRunResults a; App.viewMode := App.viewMode a;
     App.showEquations := App.showEquations a; App.showAdvanced := App.showAdvanced a;
     App.numSimulations := App.numSimulations a; App.currentSeed := App.currentSeed a;
     App.lockSeed := App.lockSeed a; App.fullTrajectoryRef := App.fullTrajectoryRef a |}.

Definition setMultiRunResults (v : list RunSummary) (a : App.t) : App.t :=
  {| App.ambition := App.ambition a; App.skill := App.skill a;
     App.selfRegulation := App.selfRegulation a; App.dynamism := App.dynamism a;
     App.coefficients := App.coefficients a; App.trajectory := App.trajectory a;
     App.isRunning := App.isRunning a; App.currentIndex := App.currentIndex a;
     App.multiRunResults := v; App.viewMode := App.viewMode a;
     App.showEquations := App.showEquations a; App.showAdvanced := App.showAdvanced a;
     App.numSimulations := App.numSimulations a; App.currentSeed := App.currentSeed a;
     App.lockSeed := App.lockSeed a; App.fullTrajectoryRef := App.fullTrajectoryRef a |}.

Definition setViewMode (v : ViewMode) (a : App.t) : App.t :=
  {| App.ambition := App.ambition a; App.skill := App.skill a;
     App.selfRegulation := App.selfRegulation a; App.dynamism := App.dynamism a;
     App.coefficients := App.coefficients a; App.trajectory := App.trajectory a;
     App.isRunning := App.isRunning a; App.currentIndex := App.currentIndex a;
     App.multiRunResults := App.multiRunResults a; App.viewMode := v;
     App.showEquations := App.showEquations a; App.showAdvanced := App.showAdvanced a;
     App.numSimulations := App.numSimulations a; App.currentSeed := App.currentSeed a;
     App.lockSeed := App.lockSeed a; App.fullTrajectoryRef := App.fullTrajectoryRef a |}.

Definition setCurrentSeed (v : option Z) (a : App.t) : App.t :=
  {| App.ambition := App.ambition a; App.skill := App.skill a;
     App.selfRegulation := App.selfRegulation a; App.dynamism := App.dynamism a;
     App.coefficients := App.coefficients a; App.trajectory := App.trajectory a;
     App.isRunning := App.isRunning a; App.currentIndex := App.currentIndex a;
     App.multiRunResults := App.multiRunResults a; App.viewMode := App.viewMode a;
     App.showEquations := App.showEquations a; App.showAdvanced := App.showAdvanced a;
     App.numSimulations := App.numSimulations a; App.currentSeed := v;
     App.lockSeed := App.lockSeed a; App.fullTrajectoryRef := App.fullTrajectoryRef a |}.

Definition setLockSeed (v : bool) (a : App.t) : App.t :=
  {| App.ambition := App.ambition a; App.skill := App.skill a;
     App.selfRegulation := App.selfRegulation a; App.dynamism := App.dynamism a;
     App.coefficients := App.coefficients a; App.trajectory := App.trajectory a;
     App.isRunning := App.isRunning a; App.currentIndex := App.currentIndex a;
     App.multiRunResults := App.multiRunResults a; App.viewMode := App.viewMode a;
     App.showEquations := App.showEquations a; App.showAdvanced := App.showAdvanced a;
     App.numSimulations := App.numSimulations a; App.currentSeed := App.currentSeed a;
     App.lockSeed := v; App.fullTrajectoryRef := App.fullTrajectoryRef a |}.

(** [fullTrajectoryRef.current = v] *)
Definition setFullTrajectoryRef (v : list TrajectoryPoint) (a : App.t) : App.t :=
  {| App.ambition := App.ambition a; App.skill := App.skill a;
     App.selfRegulation := App.selfRegulation a; App.dynamism := App.dynamism a;
     App.coefficients := App.coefficients a; App.trajectory := App.trajectory a;
     App.isRunning := App.isRunning a; App.currentIndex := App.currentIndex a;
     App.multiRunResults := App.multiRunResults a; App.viewMode := App.viewMode a;
     App.showEquations := App.showEquations a; App.showAdvanced := App.showAdvanced a;
     App.numSimulations := App.numSimulations a; App.currentSeed := App.currentSeed a;
     App.lockSeed := App.lockSeed a; App.fullTrajectoryRef := v |}.

(** [{ ambition, skill, selfRegulation, dynamism, coefficients }] *)
Definition params_of (a : App.t) : Params :=
  {| ambition := App.ambition a; skill := App.skill a;
     selfRegulation := App.selfRegulation a; dynamism := App.dynamism a;
     coefficients := Some (App.coefficients a) |}.

Section Handlers.
Variable M : MathLib.

(** [runAnimatedSimulation]: [random] is the value of
    [Math.floor(Math.random() * 1000000)] in the handler, if it is
    evaluated, and [random'] the one in [runSimulation], if it is.  The
    locked seed is used when there is one and it is not 0. *)
Definition runAnimatedSimulation (random random' : Z) (a : App.t) : App.t :=
  let params := params_of a in
  let seed :=
    match App.currentSeed a with
    | Some s => if App.lockSeed a && negb (s =? 0) then s else random
    | None => random
    end in
  let a := if App.lockSeed a then a else setCurrentSeed (Some seed) a in
  let a := setFullTrajectoryRef (runSimulation M random' params 500 (Some seed)) a in
  setViewMode single (setIsRunning true (setCurrentIndex 0 (setTrajectory [] a))).

(** One run of the effect on [isRunning] and [currentIndex], together
    with the callback of the timer it sets: 18 ms later the next point
    of the full trajectory is appended to the displayed one.  The guard
    has checked the index, so the point exists. *)
Definition animationEffect (a : App.t) : App.t :=
  let full := App.fullTrajectoryRef a in
  if App.isRunning a && (App.currentIndex a <? length full)%nat then
    match nth_error full (App.currentIndex a) with
    | Some pt =>
        setCurrentIndex (App.currentIndex a + 1)
          (setTrajectory (App.trajectory a ++ [pt]) a)
    | None => a
    end
  else if (length full <=? App.currentIndex a)%nat then setIsRunning false a
  else a.

(** [runDistributionAnalysis]: [random i] is the base seed that run [i]
    draws. *)
Definition runDistributionAnalysis (random : nat -> Z) (a : App.t)
  : Exception + App.t :=
  match runMultipleSimulations M random (params_of a) (App.numSimulations a) 500 with
  | inl e => inl e
  | inr results => inr (setViewMode distribution (setMultiRunResults results a))
  end.

End Handlers.

Definition skipToEnd (a : App.t) : App.t :=
  if (0 <? length (App.fullTrajectoryRef a))%nat
  then setIsRunning false
         (setCurrentIndex (length (App.fullTrajectoryRef a))
            (setTrajectory (App.fullTrajectoryRef a) a))
  else a.

Definition reset (a : App.t) : App.t :=
  let a' := setViewMode single (setMultiRunResults [] (setIsRunning false
              (setCurrentIndex 0 (setTrajectory [] a)))) in
  if App.lockSeed a then a' else setCurrentSeed None a'.

Definition resetCoefficients (a : App.t) : App.t :=
  setCoefficients unit_coefficients a.


(** [generateNewSeed]: [random] is the value of
    [Math.floor(Math.random() * 1000000)]. *)
Definition generateNewSeed (random : Z) (a : App.t) : App.t :=
  setCurrentSeed (Some random) a.

(** [trajectory.length > 0 ? trajectory[trajectory.length - 1] : null],
    the value of both [currentState] and [finalState]. *)
Definition finalState (a : App.t) : option TrajectoryPoint :=
  last (map Some (App.trajectory a)) None.

(** ** The statistics of the distribution view

    The four numbers that the view formats with [toFixed], shown when
    [multiRunResults.length > 0]. *)

Definition avgPerformance (results : list RunSummary) : JS.number :=
  (fold_left (fun a b => a + r_performance b) results 0
   / JS.of_Z (Z.of_nat (length results)))%float.

Definition avgWellbeing (results : list RunSummary) : JS.number :=
  (fold_left (fun a b => a + r_wellbeing b) results 0
   / JS.of_Z (Z.of_nat (length results)))%float.

Definition successShare (results : list RunSummary) : JS.number :=
  (JS.of_Z (Z.of_nat (length (filter (fun r => 10 <? r_performance r) results)))
   / JS.of_Z (Z.of_nat (length results)) * 100)%float.

Definition burnoutShare (results : list RunSummary) : JS.number :=
  (JS.of_Z (Z.of_nat (length (filter (fun r => r_wellbeing r <? -20) results)))
   / JS.of_Z (Z.of_nat (length results)) * 100)%float.

(** ** A reference implementation of the built-ins

    [RefMath] computes [Math.log], [Math.cos] and [Math.exp] by argument
    reduction and a truncated series, to within a few units in the last
    place on the arguments the engine passes, with the values ECMAScript
    fixes exactly ([log 0 = -Infinity], [log 1 = 0], [exp 0 = 1],
    [cos 0 = 1], NaN for arguments outside the domain).  It serves to run
    the engine on concrete inputs; the theorems stated for every [MathLib]
    do not depend on it. *)

Module RefMath.
Local Open Scope float_scope.

Fixpoint horner (cs : list float) (x : float) : float :=
  match cs with
  | [] => 0
  | c :: cs' => c + x * horner cs' x
  end.

(** [1/1, 1/3, 1/5, ...]: the series of [atanh]. *)
Definition odd_reciprocals : list float :=
  map (fun k => 1 / JS.of_Z (2 * Z.of_nat k + 1)) (seq 0 14).

Fixpoint factorial (n : nat) : Z :=
  match n with O => 1%Z | S n' => (Z.of_nat n * factorial n')%Z end.

(** [1/0!, 1/1!, 1/2!, ...]: the series of [exp]. *)
Definition exp_coefficients : list float :=
  map (fun k => 1 / JS.of_Z (factorial k)) (seq 0 20).

(** [1/0!, -1/2!, 1/4!, ...]: the series of [cos] in [x^2]. *)
Definition cos_coefficients : list float :=
  map (fun k => (if Nat.even k then 1 else -1) / JS.of_Z (factorial (2 * k)))
      (seq 0 12).

(** [1/1!, -1/3!, 1/5!, ...]: the series of [sin x / x] in [x^2]. *)
Definition sin_coefficients : list float :=
  map (fun k => (if Nat.even k then 1 else -1) / JS.of_Z (factorial (2 * k + 1)))
      (seq 0 12).

Definition ln2_hi : float := 0x1.62e42feep-1.
Definition ln2_lo : float := 0x1.a39ef35793c76p-33.
Definition ln2 : float := 0x1.62e42fefa39efp-1.
Definition half_pi_hi : float := 0x1.921fb544p+0.
Definition half_pi_lo : float := 0x1.0b4611a626331p-34.

Definition log (x : float) : float :=
  if is_nan x || (x <? 0) then nan
  else if x =? 0 then neg_infinity
  else if x =? infinity then infinity
  else
    let '(m, e) := Z.frexp x in
    let '(m, e) := if m <? 0x1.6a09e667f3bcdp-1 then (2 * m, (e - 1)%Z) else (m, e) in
    let s := (m - 1) / (m + 1) in
    JS.of_Z e * ln2_hi + (2 * s * horner odd_reciprocals (s * s) + JS.of_Z e * ln2_lo).

Definition exp (x : float) : float :=
  if is_nan x then nan
  else if 710 <? x then infinity
  else if x <? -746 then 0
  else
    let k := JS.truncate (x / ln2 + (if x <? 0 then -0.5 else 0.5)) in
    let r := x - JS.of_Z k * ln2_hi - JS.of_Z k * ln2_lo in
    Z.ldexp (horner exp_coefficients r) k.

Definition cos (x : float) : float :=
  if is_nan x || is_infinity x then nan
  else
    let a := abs x in
    let k := JS.truncate (a / (half_pi_hi + half_pi_lo) + 0.5) in
    let r := a - JS.of_Z k * half_pi_hi - JS.of_Z k * half_pi_lo in
    let c := horner cos_coefficients (r * r) in
    let s := r * horner sin_coefficients (r * r) in
    match (k mod 4)%Z with
    | 0%Z => c
    | 1%Z => - s
    | 2%Z => - c
    | _ => s
    end.

Definition lib : MathLib :=
  {| Math_log := log; Math_cos := cos; Math_exp := exp |}.

End RefMath.

(** * Definitions for the statements and the proofs *)

(** The values of [time] in [n] iterations from [t] on. *)
Fixpoint times (n : nat) (t : Z) : list Z :=
  match n with
  | O => []
  | S n' => t :: times n' (t + 1)
  end.

(** The parameters of the regression fixture: ambition 0.5, skill 0.5,
    self-regulation 0.5, dynamism 0.2 (the double nearest to it), default
    coefficients. *)
Definition fixture_params : Params :=
  {| ambition := 0.5%float; skill := 0.5%float; selfRegulation := 0.5%float;
     dynamism := 0x1.999999999999ap-3%float; coefficients := None |}.

(** The fixture's parameters with ambition 0. *)
Definition zero_ambition_params : Params :=
  {| ambition := 0%float; skill := 0.5%float; selfRegulation := 0.5%float;
     dynamism := 0x1.999999999999ap-3%float; coefficients := None |}.

(** The fixture's parameters with [var8 = -1]. *)
Definition negative_var8_params : Params :=
  {| ambition := 0.5%float; skill := 0.5%float; selfRegulation := 0.5%float;
     dynamism := 0x1.999999999999ap-3%float;
     coefficients :=
       Some {| var1 := None; var2 := None; var3 := None; var4 := None;
               var5 := None; var6 := None; var7 := None;
               var8 := Some (-1)%float; var9 := None; var10 := None |} |}.


(** ** Binary64 values *)

(** The exponent of the unit in the last place of a double whose exact
    value needs the exponent [e]: [max (e - 53) (-1074)]. *)
Abbreviation fexp64 := (SpecFloat.fexp prec emax).


(** The record [mrs] holds the quotient of [N] by [D] and where the
    remainder lies with respect to the half of [D]. *)
Definition shr_inv (N D : Z) (mrs : shr_record) : Prop :=
  shr_m mrs = N / D
  /\ shr_r mrs = (D <=? 2 * (N mod D))
  /\ shr_s mrs = negb (N mod D =? 0) && negb (2 * (N mod D) =? D).


(** The value of a finite number in units of [2^-1074], the smallest
    positive double: an integer for every valid float. *)
Definition SF2Z (x : spec_float) : Z :=
  match x with
  | S754_finite s m e => cond_Zopp s (Zpos m * 2 ^ (e + 1074))
  | _ => 0
  end.

(** Zero or a positive finite number. *)
Definition nnf (x : spec_float) : bool :=
  match x with
  | S754_zero _ | S754_finite false _ _ => true
  | _ => false
  end.


(** The same on primitive floats. *)
Definition F2Z (x : float) : Z := SF2Z (Prim2SF x).
Definition nnfF (x : float) : bool := nnf (Prim2SF x).

(** The draws of a period are pairs of a value and a generator; this
    names the components of each of them. *)
Ltac destruct_draws :=
  repeat match goal with
         | |- context [match ?x with (_, _) => _ end] => destruct x
         end.

(** ** The order of the binary64 values *)

(** The rank of a value that is not NaN: its value in units of [2^-1074]
    when it is finite, and a rank beyond every finite one for an infinity.
    The two zeros have the same rank. *)
Definition ord (x : spec_float) : Z :=
  match x with
  | S754_infinity false => 2 ^ 2100
  | S754_infinity true => - 2 ^ 2100
  | _ => SF2Z x
  end.

Definition ordF (x : float) : Z := ord (Prim2SF x).

(** Zeros and finite numbers, on the specification side. *)
Definition SFzero (x : spec_float) : bool :=
  match x with S754_zero _ => true | _ => false end.

Definition SFfin (x : spec_float) : bool :=
  match x with S754_zero _ | S754_finite _ _ _ => true | _ => false end.

Definition zeroF (x : float) : bool := SFzero (Prim2SF x).
Definition finF (x : float) : bool := SFfin (Prim2SF x).

(** ** Draws *)

(** The generator after one call of [next()], and after two. *)
Definition one_draw (g : SeededRandom.t) : SeededRandom.t := snd (SeededRandom.next g).
Definition two_draws (g : SeededRandom.t) : SeededRandom.t := one_draw (one_draw g).

(** The five generators after [n] periods. *)
Definition after_periods (zero_ambition : bool) (n : nat) (rs : Streams) : Streams :=
  {| rng0_advance := Nat.iter n two_draws (rng0_advance rs);
     rng1_setback := Nat.iter n two_draws (rng1_setback rs);
     rng1_setbackPoisson := Nat.iter n one_draw (rng1_setbackPoisson rs);
     rng2_challenge :=
       if zero_ambition then rng2_challenge rs else Nat.iter n two_draws (rng2_challenge rs);
     rng3_hindrance :=
       if zero_ambition then rng3_hindrance rs else Nat.iter n two_draws (rng3_hindrance rs) |}.

(** Projections of the state after setters. *)
Ltac app_simpl :=
  cbn [App.ambition App.skill App.selfRegulation App.dynamism App.coefficients
       App.trajectory App.isRunning App.currentIndex App.multiRunResults App.viewMode
       App.showEquations App.showAdvanced App.numSimulations App.currentSeed App.lockSeed
       App.fullTrajectoryRef setCoefficients setTrajectory setIsRunning setCurrentIndex
       setMultiRunResults setViewMode setCurrentSeed setLockSeed setFullTrajectoryRef
       params_of] in *.

(** ** Ranges *)

(** A number of [0, 1]. *)
Definition in_unit (x : float) : bool := ((0 <=? x) && (x <=? 1))%float.

(** NaN, a zero, a positive number or [+Infinity]: the values that are
    not below 0. *)
Definition SFnonneg (x : spec_float) : bool :=
  match x with
  | S754_nan | S754_zero _ | S754_infinity false | S754_finite false _ _ => true
  | _ => false
  end.

(** The built-ins of [RefMath], with the absolute value of its [exp]: a
    library whose [exp] is never negative by construction. *)
Definition nonneg_exp_lib : MathLib :=
  {| Math_log := RefMath.log; Math_cos := RefMath.cos;
     Math_exp := fun x => abs (RefMath.exp x) |}.

(** * Binary64 arithmetic

    The operations of the primitive floats are specified by Rocq's
    [SpecFloat]: a result is the rounding, to nearest with ties to even, of
    the exact result.  This part derives from that specification what the
    claims need: roundings are monotone, they are the identity on doubles,
    and integers below [2^53] are doubles. *)

(** ** Digits and shifts *)

Lemma digits2_pos_bounds (p : positive) :
  2 ^ (Zpos (digits2_pos p) - 1) <= Zpos p < 2 ^ Zpos (digits2_pos p).
Proof.
  induction p as [p IH|p IH|]; cbn [digits2_pos]; [| |cbn; lia].
  all: rewrite Pos2Z.inj_succ;
    replace (Z.succ (Zpos (digits2_pos p)) - 1) with (Z.succ (Zpos (digits2_pos p) - 1)) by lia;
    rewrite !Z.pow_succ_r by lia; lia.
Qed.

(** [iter_pos], the iterator of [SpecFloat], is the iteration of [nat]. *)
Lemma iter_pos_nat {A} (f : A -> A) (n : positive) :
  forall x, iter_pos f n x = Nat.iter (Pos.to_nat n) f x.
Proof.
  induction n as [n IH|n IH|]; intros x; cbn [iter_pos].
  - rewrite !IH, Pos2Nat.inj_xI, <- Nat.iter_add.
    replace (S (2 * Pos.to_nat n)) with (S (Pos.to_nat n + Pos.to_nat n))%nat by lia.
    now rewrite Nat.iter_succ_r.
  - rewrite !IH, Pos2Nat.inj_xO, <- Nat.iter_add. f_equal; lia.
  - reflexivity.
Qed.

(** [shr] shifts [n] times, or not at all when [n] is not positive. *)
Lemma shr_nat (mrs : shr_record) (e n : Z) :
  shr mrs e n = (Nat.iter (Z.to_nat n) shr_1 mrs, e + Z.max n 0).
Proof.
  destruct n as [|p|p]; cbn [shr Z.to_nat Nat.iter].
  - now rewrite Z.add_0_r.
  - rewrite iter_pos_nat. f_equal; lia.
  - now rewrite Z.add_0_r.
Qed.

(** One shift halves the mantissa and remembers the bit shifted out. *)
Lemma shr_1_m (mrs : shr_record) :
  0 <= shr_m mrs ->
  shr_m (shr_1 mrs) = shr_m mrs / 2 /\ shr_r (shr_1 mrs) = Z.odd (shr_m mrs)
  /\ shr_s (shr_1 mrs) = shr_r mrs || shr_s mrs.
Proof.
  destruct mrs as [m r s]. cbn [shr_m shr_r shr_s]. intros Hm.
  destruct m as [|[p|p|]|p]; cbn [shr_1 shr_m shr_r shr_s]; try lia; repeat split.
  - apply Z.div_unique with (r := 1); lia.
  - apply Z.div_unique with (r := 0); lia.
Qed.

(** One shift doubles the divisor of the invariant. *)
Lemma shr_1_inv (N D : Z) (mrs : shr_record) :
  0 < D -> 0 <= N -> shr_inv N D mrs -> shr_inv N (D * 2) (shr_1 mrs).
Proof.
  intros HD HN (Hm & Hr & Hs).
  assert (H0 : 0 <= shr_m mrs) by (rewrite Hm; apply Z.div_pos; lia).
  destruct (shr_1_m mrs H0) as (Em & Er & Es).
  unfold shr_inv. rewrite Em, Er, Es, Hr, Hs, Hm.
  rewrite Z.div_div by lia.
  rewrite (Z.rem_mul_r N D 2) by lia.
  pose proof (Z.mod_pos_bound N D HD) as HR.
  pose proof (Z.mod_pos_bound (N / D) 2 ltac:(lia)) as HB.
  pose proof (Zmod_odd (N / D)) as Hodd.
  set (R := N mod D) in *. set (b := (N / D) mod 2) in *. clearbody R b.
  destruct (Z.odd (N / D)); subst b; repeat split;
    try (destruct (Z.leb_spec (D * 2) (2 * (R + D * 1))); lia);
    try (destruct (Z.leb_spec (D * 2) (2 * (R + D * 0))); lia);
    destruct (Z.leb_spec D (2 * R)), (Z.eqb_spec R 0), (Z.eqb_spec (2 * R) D);
    match goal with
    | |- context [?x + D * ?c =? 0] =>
        destruct (Z.eqb_spec (x + D * c) 0), (Z.eqb_spec (2 * (x + D * c)) (D * 2))
    end; cbn; lia.
Qed.

(** [k] shifts multiply the divisor by [2^k]. *)
Lemma shr_iter_inv (N D : Z) (mrs : shr_record) (k : nat) :
  0 < D -> 0 <= N -> shr_inv N D mrs ->
  shr_inv N (D * 2 ^ Z.of_nat k) (Nat.iter k shr_1 mrs).
Proof.
  intros HD HN H. induction k as [|k IH].
  - cbn. now rewrite Z.mul_1_r.
  - cbn [Nat.iter]. rewrite Nat2Z.inj_succ, Z.pow_succ_r, (Z.mul_comm 2), Z.mul_assoc by lia.
    apply shr_1_inv; [|assumption|assumption].
    apply Z.mul_pos_pos; [assumption|]. apply Z.pow_pos_nonneg; lia.
Qed.

Lemma fexp64_eq (x : Z) : fexp64 x = Z.max (x - 53) (-1074).
Proof. reflexivity. Qed.

(** Rounding to nearest even moves the quotient of [N] by [D] to one of
    the two integers around [N / D]: every integer above the exact quotient
    is above the result, every integer below is below. *)
Lemma rne_bounds (N D : Z) (mrs : shr_record) :
  0 < D -> 0 <= N -> shr_inv N D mrs ->
  let m1 := round_nearest_even (shr_m mrs) (loc_of_shr_record mrs) in
  0 <= m1
  /\ (forall t, N <= t * D -> m1 <= t)
  /\ (forall t, t * D <= N -> t <= m1).
Proof.
  intros HD HN (Hm & Hr & Hs).
  pose proof (Z.mod_pos_bound N D HD) as HR.
  pose proof (Z.div_mod N D ltac:(lia)) as HN'.
  assert (Hq : 0 <= N / D) by (apply Z.div_pos; lia).
  destruct mrs as [m r s]. cbn [shr_m shr_r shr_s] in *. subst m.
  set (q := N / D) in *. set (R := N mod D) in *. clearbody q R.
  assert (Hcase : round_nearest_even q (loc_of_shr_record (Build_shr_record q r s)) = q
                  \/ (round_nearest_even q (loc_of_shr_record (Build_shr_record q r s)) = q + 1
                      /\ 0 < R)).
  { destruct r, s; cbn [loc_of_shr_record round_nearest_even]; auto.
    - right. split; [reflexivity|]. destruct (Z.leb_spec D (2 * R)); [lia|discriminate].
    - destruct (Z.even q); auto. right. split; [reflexivity|].
      destruct (Z.leb_spec D (2 * R)); [lia|discriminate]. }
  cbv zeta. destruct Hcase as [-> | [-> HRpos]]; repeat split; try lia; intros t Ht; nia.
Qed.

Lemma Zdigits2_bounds (m : Z) :
  0 < m -> 2 ^ (Zdigits2 m - 1) <= m < 2 ^ Zdigits2 m.
Proof.
  destruct m as [|p|p]; try lia. intros _. apply digits2_pos_bounds.
Qed.

Lemma Zdigits2_nonneg (m : Z) : 0 <= Zdigits2 m.
Proof. destruct m; cbn; lia. Qed.

(** An integer is its own quotient by 1, exactly. *)
Lemma shr_inv_exact (m : Z) : shr_inv m 1 (shr_record_of_loc m loc_Exact).
Proof.
  unfold shr_inv. cbn [shr_record_of_loc shr_m shr_r shr_s].
  rewrite Z.div_1_r, Z.mod_1_r. repeat split.
Qed.

Lemma pow2_pos (k : Z) : 0 <= k -> 0 < 2 ^ k.
Proof. intros. apply Z.pow_pos_nonneg; lia. Qed.

(** The structure of [binary_round_aux] on a mantissa [m = N / D] at an
    exponent [e] that is not above the exponent [e1] of the result's last
    place: [m] is shifted to [e1] and rounded to [m1]; when the rounding
    carries into a new digit, [m1] is shifted once more, to [m2] at [e2].
    A result above the subnormal range has a full mantissa. *)
Lemma round_aux_spec (N D m e : Z) (l : location) (sx : bool) :
  0 < D -> 0 <= N -> shr_inv N D (shr_record_of_loc m l) ->
  e <= fexp64 (Zdigits2 m + e) ->
  exists m1 m2 e1 e2,
    e1 = fexp64 (Zdigits2 m + e) /\ e <= e1 /\ -1074 <= e1
    /\ 0 <= m1
    /\ (forall t, N <= t * (D * 2 ^ (e1 - e)) -> m1 <= t)
    /\ (forall t, t * (D * 2 ^ (e1 - e)) <= N -> t <= m1)
    /\ e1 <= e2 /\ m2 = m1 / 2 ^ (e2 - e1) /\ 0 <= m2
    /\ (-1074 < e2 -> 2 ^ 52 <= m2)
    /\ binary_round_aux prec emax sx m e l
       = match m2 with
         | 0 => S754_zero sx
         | Zpos p => if e2 <=? 971 then S754_finite sx p e2 else S754_infinity sx
         | Zneg _ => S754_nan
         end.
Proof.
  intros HD HN Hinv Hpre.
  set (e1 := fexp64 (Zdigits2 m + e)) in *.
  assert (He1 : -1074 <= e1) by (unfold e1; rewrite fexp64_eq; lia).
  set (k1 := Z.to_nat (e1 - e)).
  assert (Hk1 : Z.of_nat k1 = e1 - e) by (unfold k1; lia).
  pose proof (shr_iter_inv N D _ k1 HD HN Hinv) as Hinv1. rewrite Hk1 in Hinv1.
  assert (HD1 : 0 < D * 2 ^ (e1 - e)) by (apply Z.mul_pos_pos; [lia|apply pow2_pos; lia]).
  destruct (rne_bounds N _ _ HD1 HN Hinv1) as (Hm1 & F1 & F2).
  set (m1 := round_nearest_even _ _) in *.
  set (e2 := Z.max e1 (fexp64 (Zdigits2 m1 + e1))).
  set (k2 := Z.to_nat (e2 - e1)).
  assert (Hk2 : Z.of_nat k2 = e2 - e1) by (unfold k2, e2; lia).
  pose proof (shr_iter_inv m1 1 _ k2 ltac:(lia) Hm1 (shr_inv_exact m1)) as (Hm2 & _).
  rewrite Hk2, Z.mul_1_l in Hm2.
  assert (Hm : m = N / D) by (destruct Hinv as [<- _]; now destruct l as [|[]]).
  assert (Hm0 : 0 <= m) by (rewrite Hm; apply Z.div_pos; lia).
  exists m1, (m1 / 2 ^ (e2 - e1)), e1, e2.
  assert (Hnn : 0 <= m1 / 2 ^ (e2 - e1)) by (apply Z.div_pos; [lia|apply pow2_pos; unfold e2; lia]).
  repeat split; try assumption; try reflexivity; try (unfold e2; lia).
  - (* normal results have a full mantissa *)
    intros Hsub.
    destruct (Z.max_spec e1 (fexp64 (Zdigits2 m1 + e1))) as [[Hlt Hmax]|[Hle Hmax]];
      fold e2 in Hmax.
    + (* the second shift happens *)
      rewrite fexp64_eq in Hmax, Hlt.
      assert (Hd : Zdigits2 m1 + e1 - 53 = e2) by lia.
      assert (Hpos : 0 < m1) by (destruct m1; cbn in Hd; lia).
      pose proof (Zdigits2_bounds m1 Hpos) as [Hlo _].
      replace (Zdigits2 m1 - 1) with (52 + (e2 - e1)) in Hlo by lia.
      rewrite Z.pow_add_r in Hlo by lia.
      apply Z.div_le_lower_bound; [apply pow2_pos; lia|lia].
    + (* no second shift *)
      rewrite Hmax, Z.sub_diag, Z.pow_0_r, Z.div_1_r.
      assert (He1' : e1 = Zdigits2 m + e - 53) by (unfold e1 in *; rewrite fexp64_eq in *; lia).
      assert (Hpos : 0 < m).
      { destruct (Z.eq_dec m 0) as [->|]; [|lia]. cbn in He1'. unfold e1 in Hpre.
        rewrite fexp64_eq in Hpre. cbn in Hpre. lia. }
      pose proof (Zdigits2_bounds m Hpos) as [Hlo _].
      replace (Zdigits2 m - 1) with (52 + (e1 - e)) in Hlo by lia.
      rewrite Z.pow_add_r in Hlo by lia.
      apply F2.
      pose proof (Z.mul_div_le N D HD). rewrite <- Hm in *.
      pose proof (pow2_pos (e1 - e) ltac:(lia)). nia.
  - (* the computation *)
    unfold binary_round_aux, shr_fexp. rewrite shr_nat. fold e1. fold k1.
    cbv zeta. cbn [fst snd].
    replace (e + Z.max (e1 - e) 0) with e1 by lia.
    change (round_nearest_even _ _) with m1.
    rewrite shr_nat.
    replace (fexp64 (Zdigits2 m1 + e1) - e1) with
      (fexp64 (Zdigits2 m1 + e1) - e1) by reflexivity.
    replace (Z.to_nat (fexp64 (Zdigits2 m1 + e1) - e1)) with k2 by (unfold k2, e2; lia).
    replace (e1 + Z.max (fexp64 (Zdigits2 m1 + e1) - e1) 0) with e2 by (unfold e2; lia).
    rewrite Hm2. reflexivity.
Qed.

Lemma pow2_step (j k : Z) : 0 <= j -> j < k -> 2 * 2 ^ j <= 2 ^ k.
Proof.
  intros Hj Hk. replace k with (Z.succ j + (k - j - 1)) by lia.
  rewrite Z.pow_add_r, Z.pow_succ_r by lia.
  pose proof (pow2_pos j Hj). pose proof (pow2_pos (k - j - 1) ltac:(lia)). nia.
Qed.

(** What [bounded] says of a mantissa and an exponent. *)
Lemma bounded_facts (mb : positive) (eb : Z) :
  bounded prec emax mb eb = true ->
  -1074 <= eb <= 971 /\ Zpos mb < 2 ^ 53 /\ (-1074 < eb -> 2 ^ 52 <= Zpos mb).
Proof.
  unfold bounded, canonical_mantissa. intros H.
  apply andb_true_iff in H as [Hc He].
  apply Z.eqb_eq in Hc. apply Z.leb_le in He. rewrite fexp64_eq in Hc.
  change (emax - prec) with 971 in He.
  pose proof (digits2_pos_bounds mb) as [Hlo Hhi].
  set (d := Zpos (digits2_pos mb)) in *.
  assert (Hd : d <= 53) by lia.
  repeat split; try lia.
  - eapply Z.lt_le_trans; [exact Hhi|]. apply Z.pow_le_mono_r; lia.
  - intros Hn. assert (d = 53) as Hd53 by lia. rewrite Hd53 in Hlo. exact Hlo.
Qed.

(** Rounding is monotone, from above: a double that is not below the
    exact value [N / D * 2^e] is not below its rounding.  ([c] is any
    exponent below both, to compare the values as integers.) *)
Lemma round_aux_le (N D m e c : Z) (l : location) (mb : positive) (eb : Z) :
  0 < D -> 0 <= N -> shr_inv N D (shr_record_of_loc m l) ->
  e <= fexp64 (Zdigits2 m + e) ->
  bounded prec emax mb eb = true -> c <= e -> c <= eb ->
  N * 2 ^ (e - c) <= D * Zpos mb * 2 ^ (eb - c) ->
  SFleb (binary_round_aux prec emax false m e l) (S754_finite false mb eb) = true.
Proof.
  intros HD HN Hinv Hpre Hb Hce Hceb H.
  destruct (round_aux_spec N D m e l false HD HN Hinv Hpre)
    as (m1 & m2 & e1 & e2 & He1 & Hee1 & He1min & Hm1 & F1 & _ & He12 & Hm2 & Hm2nn & Hnorm & ->).
  destruct (bounded_facts mb eb Hb) as ([Hebmin Hebmax] & Hmb53 & Hmbnorm).
  assert (Hm : m = N / D) by (destruct Hinv as [<- _]; now destruct l as [|[]]).
  pose proof (pow2_pos (e - c) ltac:(lia)) as HP.
  pose proof (pow2_pos (e1 - e) ltac:(lia)) as HA.
  destruct (Z.lt_ge_cases eb e1) as [Hlt|Hge].
  - (* the bound would lie below the binade of the value *)
    exfalso.
    assert (He1' : e1 = Zdigits2 m + e - 53) by (rewrite fexp64_eq in He1; lia).
    assert (Hpos : 0 < m).
    { destruct (Z.eq_dec m 0) as [->|]; [|rewrite Hm; pose proof (Z.div_pos N D HN HD); lia].
      cbn in He1'. rewrite fexp64_eq in Hpre. cbn in Hpre. lia. }
    pose proof (Zdigits2_bounds m Hpos) as [Hlo _].
    replace (Zdigits2 m - 1) with (52 + (e1 - e)) in Hlo by lia.
    rewrite Z.pow_add_r in Hlo by lia.
    pose proof (Z.mul_div_le N D HD) as HND. rewrite <- Hm in HND.
    pose proof (pow2_step (eb - c) (e1 - c) ltac:(lia) ltac:(lia)) as Hstep.
    replace (e1 - c) with ((e1 - e) + (e - c)) in Hstep by lia.
    rewrite Z.pow_add_r in Hstep by lia.
    pose proof (pow2_pos (eb - c) ltac:(lia)) as HQ.
    set (P := 2 ^ (e - c)) in *. set (A := 2 ^ (e1 - e)) in *. set (Q := 2 ^ (eb - c)) in *.
    clearbody P A Q.
    assert (D * Z.pos mb * Q < D * 2 ^ 53 * Q) by nia.
    assert (D * 2 ^ 53 * Q <= D * (2 ^ 52 * A) * P) by nia.
    assert (D * (2 ^ 52 * A) * P <= N * P) by nia.
    lia.
  - (* the bound is on the grid of the rounding *)
    pose proof (pow2_pos (eb - e1) ltac:(lia)) as HJ.
    assert (Ht : m1 <= Zpos mb * 2 ^ (eb - e1)).
    { apply F1.
      replace (eb - c) with ((eb - e1) + ((e1 - e) + (e - c))) in H by lia.
      rewrite !Z.pow_add_r in H by lia.
      set (P := 2 ^ (e - c)) in *. set (A := 2 ^ (e1 - e)) in *. set (J := 2 ^ (eb - e1)) in *.
      clearbody P A J. nia. }
    pose proof (pow2_pos (e2 - e1) ltac:(lia)) as HK.
    pose proof (Z.mul_div_le m1 (2 ^ (e2 - e1)) HK) as Hfloor. rewrite <- Hm2 in Hfloor.
    assert (Hhigh : eb < e2 -> False).
    { intros Hlt. specialize (Hnorm ltac:(lia)).
      pose proof (pow2_step (eb - e1) (e2 - e1) ltac:(lia) ltac:(lia)) as Hstep.
      set (K := 2 ^ (e2 - e1)) in *. set (J := 2 ^ (eb - e1)) in *. clearbody K J. nia. }
    destruct m2 as [|p|p]; [reflexivity| |lia].
    destruct (Z.leb_spec e2 971) as [Hfin|Hinf]; [|exfalso; apply Hhigh; lia].
    unfold SFleb, SFcompare.
    destruct (Z.compare_spec e2 eb) as [Heq|Hlt|Hgt]; [|reflexivity|exfalso; now apply Hhigh].
    subst e2. fold (Pos.compare p mb).
    assert (Hle : (p <= mb)%positive).
    { apply Pos2Z.pos_le_pos. set (K := 2 ^ (eb - e1)) in *. clearbody K. nia. }
    unfold Pos.le in Hle. destruct (p ?= mb)%positive; congruence.
Qed.

(** Rounding is monotone, from below: a double that is not above the
    exact value is not above its rounding. *)
Lemma round_aux_ge (N D m e c : Z) (l : location) (mb : positive) (eb : Z) :
  0 < D -> 0 <= N -> shr_inv N D (shr_record_of_loc m l) ->
  e <= fexp64 (Zdigits2 m + e) ->
  bounded prec emax mb eb = true -> c <= e -> c <= eb ->
  valid_binary (binary_round_aux prec emax false m e l) = true ->
  D * Zpos mb * 2 ^ (eb - c) <= N * 2 ^ (e - c) ->
  SFleb (S754_finite false mb eb) (binary_round_aux prec emax false m e l) = true.
Proof.
  intros HD HN Hinv Hpre Hb Hce Hceb Hvalid H.
  destruct (round_aux_spec N D m e l false HD HN Hinv Hpre)
    as (m1 & m2 & e1 & e2 & He1 & Hee1 & He1min & Hm1 & _ & F2 & He12 & Hm2 & Hm2nn & Hnorm & E).
  rewrite E in *. clear E.
  destruct (bounded_facts mb eb Hb) as ([Hebmin Hebmax] & Hmb53 & Hmbnorm).
  pose proof (pow2_pos (e - c) ltac:(lia)) as HP.
  pose proof (pow2_pos (e1 - e) ltac:(lia)) as HA.
  pose proof (pow2_pos (e2 - e1) ltac:(lia)) as HK.
  destruct (Z.lt_ge_cases eb e2) as [Hlt|Hge].
  - (* the result lies in a binade above the bound *)
    specialize (Hnorm ltac:(lia)).
    destruct m2 as [|p|p]; try lia.
    destruct (Z.leb_spec e2 971); [|reflexivity].
    unfold SFleb, SFcompare. apply Z.compare_lt_iff in Hlt. now rewrite Hlt.
  - pose proof (pow2_pos (eb - e2) ltac:(lia)) as HL.
    assert (Ht : Zpos mb * 2 ^ (eb - e2) <= m2).
    { rewrite Hm2. apply Z.div_le_lower_bound; [exact HK|].
      apply F2.
      replace (eb - c) with ((eb - e2) + ((e2 - e1) + ((e1 - e) + (e - c)))) in H by lia.
      rewrite !Z.pow_add_r in H by lia.
      set (P := 2 ^ (e - c)) in *. set (A := 2 ^ (e1 - e)) in *.
      set (K := 2 ^ (e2 - e1)) in *. set (L := 2 ^ (eb - e2)) in *.
      clearbody P A K L. nia. }
    destruct m2 as [|p|p]; try nia.
    destruct (Z.leb_spec e2 971); [|reflexivity].
    cbn [valid_binary] in Hvalid.
    destruct (bounded_facts p e2 Hvalid) as (_ & Hp53 & _).
    unfold SFleb, SFcompare.
    destruct (Z.compare_spec eb e2) as [Heq|Hlt|Hgt]; [|reflexivity|].
    + subst e2. rewrite Z.sub_diag, Z.pow_0_r, Z.mul_1_r in Ht.
      fold (Pos.compare mb p).
      assert (Hle : (mb <= p)%positive) by (apply Pos2Z.pos_le_pos; exact Ht).
      unfold Pos.le in Hle. destruct (mb ?= p)%positive; congruence.
    + exfalso. specialize (Hmbnorm ltac:(lia)).
      pose proof (pow2_step 0 (eb - e2) ltac:(lia) ltac:(lia)) as Hstep.
      rewrite Z.pow_0_r in Hstep. set (L := 2 ^ (eb - e2)) in *. clearbody L. nia.
Qed.

(** On valid positive numbers the comparison of [SpecFloat] is the
    comparison of the values. *)
Lemma SFcompare_finite (m1 : positive) (e1 : Z) (m2 : positive) (e2 : Z) :
  bounded prec emax m1 e1 = true -> bounded prec emax m2 e2 = true ->
  SFcompare (S754_finite false m1 e1) (S754_finite false m2 e2)
  = Some (Zpos m1 * 2 ^ (e1 + 1074) ?= Zpos m2 * 2 ^ (e2 + 1074)).
Proof.
  intros H1 H2.
  destruct (bounded_facts m1 e1 H1) as ([Hmin1 _] & Hlt1 & Hn1).
  destruct (bounded_facts m2 e2 H2) as ([Hmin2 _] & Hlt2 & Hn2).
  pose proof (pow2_pos (e1 + 1074) ltac:(lia)) as P1.
  pose proof (pow2_pos (e2 + 1074) ltac:(lia)) as P2.
  cbn [SFcompare]. f_equal.
  destruct (Z.compare_spec e1 e2) as [Heq|Hlt|Hgt].
  - subst e2. change (Pos.compare_cont Eq m1 m2) with (Zpos m1 ?= Zpos m2).
    apply Zmult_compare_compat_r. lia.
  - symmetry. apply Z.compare_lt_iff. specialize (Hn2 ltac:(lia)).
    pose proof (pow2_step (e1 + 1074) (e2 + 1074) ltac:(lia) ltac:(lia)). nia.
  - symmetry. apply Z.compare_gt_iff. specialize (Hn1 ltac:(lia)).
    pose proof (pow2_step (e2 + 1074) (e1 + 1074) ltac:(lia) ltac:(lia)). nia.
Qed.

Lemma SF2Z_finite_pos (m : positive) (e : Z) :
  -1074 <= e -> 0 < SF2Z (S754_finite false m e).
Proof.
  intros H. unfold SF2Z, cond_Zopp. pose proof (pow2_pos (e + 1074) ltac:(lia)). nia.
Qed.

Lemma SFcompare_nnf (x y : spec_float) :
  valid_binary x = true -> valid_binary y = true -> nnf x = true -> nnf y = true ->
  SFcompare x y = Some (SF2Z x ?= SF2Z y).
Proof.
  intros Vx Vy Nx Ny.
  destruct x as [sx|sx| |sx mx ex], y as [sy|sy| |sy my ey]; try discriminate;
    try destruct sx; try destruct sy; try discriminate; cbn [valid_binary] in *.
  all: try reflexivity.
  all: try (destruct (bounded_facts _ _ Vy) as ([Hmin _] & _);
            pose proof (SF2Z_finite_pos my ey Hmin) as Hp;
            cbn [SFcompare]; f_equal; symmetry; apply Z.compare_lt_iff; exact Hp).
  all: try (destruct (bounded_facts _ _ Vx) as ([Hmin _] & _);
            pose proof (SF2Z_finite_pos mx ex Hmin) as Hp;
            cbn [SFcompare]; f_equal; symmetry; apply Z.compare_gt_iff; exact Hp).
  now apply SFcompare_finite.
Qed.

Lemma SFleb_nnf (x y : spec_float) :
  valid_binary x = true -> valid_binary y = true -> nnf x = true -> nnf y = true ->
  SFleb x y = (SF2Z x <=? SF2Z y).
Proof.
  intros. unfold SFleb. rewrite SFcompare_nnf by assumption.
  unfold Z.leb. now destruct (SF2Z x ?= SF2Z y).
Qed.

Lemma SFltb_nnf (x y : spec_float) :
  valid_binary x = true -> valid_binary y = true -> nnf x = true -> nnf y = true ->
  SFltb x y = (SF2Z x <? SF2Z y).
Proof.
  intros. unfold SFltb. rewrite SFcompare_nnf by assumption.
  unfold Z.ltb. now destruct (SF2Z x ?= SF2Z y).
Qed.

Lemma Zdigits2_gt (m k : Z) : 0 <= k -> 2 ^ k <= m -> k < Zdigits2 m.
Proof.
  intros Hk H. pose proof (pow2_pos k Hk).
  pose proof (Zdigits2_bounds m ltac:(lia)) as [_ Hhi].
  apply (Z.pow_lt_mono_r_iff 2); [lia|apply Zdigits2_nonneg|lia].
Qed.

(** A rounding with sign [false] is never negative. *)
Lemma round_aux_sign (N D m e : Z) (l : location) :
  0 < D -> 0 <= N -> shr_inv N D (shr_record_of_loc m l) ->
  e <= fexp64 (Zdigits2 m + e) ->
  SFleb (S754_zero false) (binary_round_aux prec emax false m e l) = true.
Proof.
  intros HD HN Hinv Hpre.
  destruct (round_aux_spec N D m e l false HD HN Hinv Hpre)
    as (m1 & m2 & e1 & e2 & _ & _ & _ & _ & _ & _ & _ & _ & Hm2nn & _ & ->).
  destruct m2 as [|p|p]; [reflexivity| |lia].
  now destruct (e2 <=? 971).
Qed.

(** The product of two valid mantissas has enough digits for its
    exponent: no precision is missing before the rounding. *)
Lemma mul_pre (mx : positive) (ex : Z) (my : positive) (ey : Z) :
  bounded prec emax mx ex = true -> bounded prec emax my ey = true ->
  ex + ey <= fexp64 (Zdigits2 (Zpos (mx * my)) + (ex + ey)).
Proof.
  intros Hx Hy.
  destruct (bounded_facts mx ex Hx) as ([Hminx _] & _ & Hnx).
  destruct (bounded_facts my ey Hy) as ([Hminy _] & _ & Hny).
  rewrite fexp64_eq.
  destruct (Z.le_gt_cases (ex + ey) (-1074)) as [|Hbig]; [lia|].
  assert (Hprod : 2 ^ 52 <= Zpos (mx * my)).
  { rewrite Pos2Z.inj_mul.
    destruct (Z.eq_dec ex (-1074)), (Z.eq_dec ey (-1074)); try lia;
      try (specialize (Hnx ltac:(lia))); try (specialize (Hny ltac:(lia))); nia. }
  pose proof (Zdigits2_gt _ 52 ltac:(lia) Hprod). lia.
Qed.

Lemma pow2_shift (a b k : Z) : 0 <= a -> 0 <= k -> 2 ^ (a + k) = 2 ^ a * 2 ^ k.
Proof. intros. now rewrite Z.pow_add_r. Qed.


Lemma SFleb_zero_l (s : bool) (b : spec_float) :
  nnf b = true -> SFleb (S754_zero s) b = true.
Proof. destruct b as [sb|sb| |[] mb eb]; try discriminate; reflexivity. Qed.

Lemma SFleb_zero_r (s : bool) (b : spec_float) :
  valid_binary b = true -> nnf b = true -> SF2Z b <= 0 ->
  SFleb b (S754_zero s) = true.
Proof.
  destruct b as [sb|sb| |[] mb eb]; try discriminate; try reflexivity.
  cbn [valid_binary]. intros Vb _ H.
  destruct (bounded_facts mb eb Vb) as ([Hmin _] & _).
  pose proof (SF2Z_finite_pos mb eb Hmin). lia.
Qed.

(** The three bounds of an operation whose result is a zero. *)
Lemma zero_bounds (s : bool) (b : spec_float) (exact : Z) :
  valid_binary b = true -> nnf b = true -> exact = 0 ->
  SFleb (S754_zero false) (S754_zero s) = true
  /\ (exact <= SF2Z b * 2 ^ 1074 -> SFleb (S754_zero s) b = true)
  /\ (valid_binary (S754_zero s) = true ->
      SF2Z b * 2 ^ 1074 <= exact -> SFleb b (S754_zero s) = true).
Proof.
  intros Vb Nb ->. split; [reflexivity|]. split; intros.
  - now apply SFleb_zero_l.
  - apply SFleb_zero_r; try assumption. lia.
Qed.

(** Multiplication of numbers that are not negative: the product is not
    negative, and it is on the same side of every double [b] as the exact
    product. *)
Theorem SFmul_bounds (x y b : spec_float) :
  valid_binary x = true -> valid_binary y = true -> valid_binary b = true ->
  nnf x = true -> nnf y = true -> nnf b = true ->
  SFleb (S754_zero false) (SFmul prec emax x y) = true
  /\ (SF2Z x * SF2Z y <= SF2Z b * 2 ^ 1074 -> SFleb (SFmul prec emax x y) b = true)
  /\ (valid_binary (SFmul prec emax x y) = true ->
      SF2Z b * 2 ^ 1074 <= SF2Z x * SF2Z y -> SFleb b (SFmul prec emax x y) = true).
Proof.
  intros Vx Vy Vb Nx Ny Nb.
  destruct x as [sx|sx| |sx mx ex]; try discriminate;
    destruct y as [sy|sy| |sy my ey]; try discriminate;
    try (destruct sx; try discriminate); try (destruct sy; try discriminate).
  all: cbn [SFmul xorb].
  all: try (apply zero_bounds; [assumption|assumption|cbn [SF2Z]; lia]).
  cbn [valid_binary] in Vx, Vy.
  destruct (bounded_facts mx ex Vx) as ([Hminx _] & _ & _).
  destruct (bounded_facts my ey Vy) as ([Hminy _] & _ & _).
  pose proof (mul_pre mx ex my ey Vx Vy) as Hpre.
  pose proof (shr_inv_exact (Zpos (mx * my))) as Hinv.
  pose proof (pow2_pos (ex + 1074) ltac:(lia)) as Px.
  pose proof (pow2_pos (ey + 1074) ltac:(lia)) as Py.
  split; [apply (round_aux_sign (Zpos (mx * my)) 1); [lia|lia|exact Hinv|exact Hpre]|].
  assert (Hval : forall mb eb, -1074 <= eb ->
            Zpos (mx * my) * 2 ^ (ex + ey - -2148)
            = SF2Z (S754_finite false mx ex) * SF2Z (S754_finite false my ey)
            /\ 1 * Zpos mb * 2 ^ (eb - -2148) = SF2Z (S754_finite false mb eb) * 2 ^ 1074).
  { intros mb eb Hmb. unfold SF2Z, cond_Zopp.
    replace (ex + ey - -2148) with ((ex + 1074) + (ey + 1074)) by lia.
    replace (eb - -2148) with ((eb + 1074) + 1074) by lia.
    rewrite (pow2_shift (ex + 1074) (ey + 1074)), (pow2_shift (eb + 1074) 1074),
      Pos2Z.inj_mul by lia.
    split; ring. }
  split.
  - intros H. destruct b as [sb|sb| |[] mb eb]; try discriminate.
    + exfalso.
      pose proof (SF2Z_finite_pos mx ex Hminx). pose proof (SF2Z_finite_pos my ey Hminy).
      change (SF2Z (S754_zero sb)) with 0 in H. nia.
    + cbn [valid_binary] in Vb. destruct (bounded_facts mb eb Vb) as ([Hminb _] & _).
      destruct (Hval mb eb Hminb) as [E1 E2].
      apply (round_aux_le (Zpos (mx * my)) 1 _ _ (-2148)); try assumption; lia.
  - intros Vr H. destruct b as [sb|sb| |[] mb eb]; try discriminate.
    + apply (round_aux_sign (Zpos (mx * my)) 1); [lia|lia|exact Hinv|exact Hpre].
    + cbn [valid_binary] in Vb. destruct (bounded_facts mb eb Vb) as ([Hminb _] & _).
      destruct (Hval mb eb Hminb) as [E1 E2].
      apply (round_aux_ge (Zpos (mx * my)) 1 _ _ (-2148)); try assumption; lia.
Qed.

Lemma iter_xO (m d : positive) : Zpos (Pos.iter xO m d) = Zpos m * 2 ^ Zpos d.
Proof.
  induction d as [|d IH] using Pos.peano_ind.
  - cbn [Pos.iter]. lia.
  - rewrite Pos.iter_succ, Pos2Z.inj_xO, IH, Pos2Z.inj_succ, Z.pow_succ_r by lia. ring.
Qed.

(** [shl_align] lowers the exponent to the smaller of the two and keeps
    the value. *)
Lemma shl_align_spec (m : positive) (e e' : Z) :
  snd (shl_align m e e') = Z.min e e'
  /\ Zpos (fst (shl_align m e e')) = Zpos m * 2 ^ (e - Z.min e e').
Proof.
  unfold shl_align. destruct (e' - e) as [|d|d] eqn:E; cbn [fst snd].
  - replace (Z.min e e') with e by lia. rewrite Z.sub_diag. split; lia.
  - replace (Z.min e e') with e by lia. rewrite Z.sub_diag. split; lia.
  - replace (Z.min e e') with e' by lia. rewrite iter_xO.
    replace (e - e') with (Zpos d) by lia. split; reflexivity.
Qed.

Lemma Zdigits2_unique (m n : Z) : 2 ^ (n - 1) <= m < 2 ^ n -> 0 < n -> Zdigits2 m = n.
Proof.
  intros [Hlo Hhi] Hn.
  pose proof (pow2_pos (n - 1) ltac:(lia)).
  pose proof (Zdigits2_bounds m ltac:(lia)) as [Hlo' Hhi'].
  pose proof (Zdigits2_nonneg m).
  destruct (Z.lt_trichotomy (Zdigits2 m) n) as [Hlt|[Heq|Hgt]]; [exfalso|exact Heq|exfalso].
  - assert (2 ^ Zdigits2 m <= 2 ^ (n - 1)) by (apply Z.pow_le_mono_r; lia). lia.
  - assert (2 ^ n <= 2 ^ (Zdigits2 m - 1)) by (apply Z.pow_le_mono_r; lia). lia.
Qed.

Lemma Zdigits2_shift (m k : Z) : 0 < m -> 0 <= k -> Zdigits2 (m * 2 ^ k) = Zdigits2 m + k.
Proof.
  intros Hm Hk. pose proof (Zdigits2_bounds m Hm) as [Hlo Hhi].
  pose proof (pow2_pos k Hk).
  assert (0 < Zdigits2 m) by (destruct m; cbn; lia).
  apply Zdigits2_unique; [|lia].
  replace (Zdigits2 m + k - 1) with ((Zdigits2 m - 1) + k) by lia.
  rewrite !Z.pow_add_r by lia. nia.
Qed.

(** The rounding of a positive integer mantissa at an exponent. *)
Lemma binary_round_bounds (mx : positive) (ex c : Z) (mb : positive) (eb : Z) :
  bounded prec emax mb eb = true -> c <= ex -> c <= -1074 ->
  SFleb (S754_zero false) (binary_round prec emax false mx ex) = true
  /\ (Zpos mx * 2 ^ (ex - c) <= Zpos mb * 2 ^ (eb - c) ->
      SFleb (binary_round prec emax false mx ex) (S754_finite false mb eb) = true)
  /\ (valid_binary (binary_round prec emax false mx ex) = true ->
      Zpos mb * 2 ^ (eb - c) <= Zpos mx * 2 ^ (ex - c) ->
      SFleb (S754_finite false mb eb) (binary_round prec emax false mx ex) = true).
Proof.
  intros Hb Hc Hc'.
  destruct (bounded_facts mb eb Hb) as ([Hminb _] & _).
  unfold binary_round.
  set (f := fexp64 (Zpos (digits2_pos mx) + ex)).
  destruct (shl_align_spec mx ex f) as [He Hm].
  destruct (shl_align mx ex f) as [mz ez]. cbn [fst snd] in He, Hm.
  assert (Hf : -1074 <= f) by (unfold f; rewrite fexp64_eq; lia).
  assert (Hpre : ez <= fexp64 (Zdigits2 (Zpos mz) + ez)).
  { rewrite Hm, Zdigits2_shift by lia. cbn [Zdigits2].
    replace (Zpos (digits2_pos mx) + (ex - Z.min ex f) + ez) with (Zpos (digits2_pos mx) + ex) by lia.
    fold f. lia. }
  pose proof (shr_inv_exact (Zpos mz)) as Hinv.
  assert (Hval : Zpos mz * 2 ^ (ez - c) = Zpos mx * 2 ^ (ex - c)).
  { rewrite Hm. replace (ex - c) with ((ex - Z.min ex f) + (ez - c)) by lia.
    rewrite Z.pow_add_r by lia. ring. }
  split; [apply (round_aux_sign (Zpos mz) 1); [lia|lia|exact Hinv|exact Hpre]|].
  split.
  - intros H. apply (round_aux_le (Zpos mz) 1 _ _ c); try assumption; lia.
  - intros Vr H. apply (round_aux_ge (Zpos mz) 1 _ _ c); try assumption; lia.
Qed.

(** The three bounds of an operation whose result is one of its
    operands. *)
Lemma self_bounds (r b : spec_float) (exact : Z) :
  valid_binary r = true -> nnf r = true -> valid_binary b = true -> nnf b = true ->
  exact = SF2Z r ->
  SFleb (S754_zero false) r = true
  /\ (exact <= SF2Z b -> SFleb r b = true)
  /\ (valid_binary r = true -> SF2Z b <= exact -> SFleb b r = true).
Proof.
  intros Vr Nr Vb Nb ->. split; [now apply SFleb_zero_l|].
  split; intros; rewrite SFleb_nnf by assumption; apply Z.leb_le; lia.
Qed.

(** Addition of numbers that are not negative. *)
Theorem SFadd_bounds (x y b : spec_float) :
  valid_binary x = true -> valid_binary y = true -> valid_binary b = true ->
  nnf x = true -> nnf y = true -> nnf b = true ->
  SFleb (S754_zero false) (SFadd prec emax x y) = true
  /\ (SF2Z x + SF2Z y <= SF2Z b -> SFleb (SFadd prec emax x y) b = true)
  /\ (valid_binary (SFadd prec emax x y) = true ->
      SF2Z b <= SF2Z x + SF2Z y -> SFleb b (SFadd prec emax x y) = true).
Proof.
  intros Vx Vy Vb Nx Ny Nb.
  destruct x as [sx|sx| |sx mx ex]; try discriminate;
    destruct y as [sy|sy| |sy my ey]; try discriminate;
    try (destruct sx; try discriminate); try (destruct sy; try discriminate).
  all: cbn [SFadd].
  all: try (apply self_bounds; try assumption; try reflexivity; cbn [SF2Z]; lia).
  cbn [valid_binary] in Vx, Vy.
  destruct (bounded_facts mx ex Vx) as ([Hminx _] & _ & _).
  destruct (bounded_facts my ey Vy) as ([Hminy _] & _ & _).
  set (ez := Z.min ex ey).
  destruct (shl_align_spec mx ex ez) as [_ Hax]. destruct (shl_align_spec my ey ez) as [_ Hay].
  set (ax := fst (shl_align mx ex ez)) in *. set (ay := fst (shl_align my ey ez)) in *.
  change (cond_Zopp false (Zpos ax) + cond_Zopp false (Zpos ay)) with (Zpos (ax + ay)).
  cbn [binary_normalize].
  assert (Hval : Zpos (ax + ay) * 2 ^ (ez - -1074)
                 = SF2Z (S754_finite false mx ex) + SF2Z (S754_finite false my ey)).
  { unfold SF2Z, cond_Zopp. rewrite Pos2Z.inj_add, Hax, Hay.
    replace (Z.min ex ez) with ez by lia. replace (Z.min ey ez) with ez by lia.
    replace (ex + 1074) with ((ex - ez) + (ez - -1074)) by lia.
    replace (ey + 1074) with ((ey - ez) + (ez - -1074)) by lia.
    rewrite !Z.pow_add_r by lia. ring. }
  pose proof (SF2Z_finite_pos mx ex Hminx). pose proof (SF2Z_finite_pos my ey Hminy).
  destruct b as [sb|sb| |[] mb eb]; try discriminate.
  - (* the bound is zero *)
    assert (Hdummy : bounded prec emax 1 (-1074) = true) by reflexivity.
    destruct (binary_round_bounds (ax + ay) ez (-1074) 1 (-1074) Hdummy) as (Hs & _);
      try lia.
    split; [exact Hs|]. split.
    + intros Hle. change (SF2Z (S754_zero sb)) with 0 in Hle. lia.
    + intros _ _. destruct (binary_round prec emax false (ax + ay) ez) as [s|s| |s m e];
        try destruct s; try discriminate; reflexivity.
  - cbn [valid_binary] in Vb.
    destruct (binary_round_bounds (ax + ay) ez (-1074) mb eb Vb) as (Hs & Hle & Hge);
      try lia.
    assert (Hb : Zpos mb * 2 ^ (eb - -1074) = SF2Z (S754_finite false mb eb)).
    { unfold SF2Z, cond_Zopp. repeat f_equal; lia. }
    split; [exact Hs|]. split.
    + intros H1. apply Hle. lia.
    + intros Vr H1. apply Hge; [exact Vr|lia].
Qed.

(** The location that the division computes from its remainder is the one
    of the invariant. *)
Lemma new_location_inv (D r q : Z) :
  0 < D -> 0 <= r < D ->
  shr_record_of_loc q (new_location D r)
  = Build_shr_record q (D <=? 2 * r) (negb (r =? 0) && negb (2 * r =? D)).
Proof.
  intros HD Hr. unfold new_location, new_location_even, new_location_odd.
  destruct (Z.even D) eqn:Ev.
  - destruct (Z.eqb_spec r 0) as [->|Hr0].
    + cbn [shr_record_of_loc negb andb]. f_equal. symmetry. apply Z.leb_gt. lia.
    + destruct (Z.compare_spec (2 * r) D); cbn [shr_record_of_loc negb andb]; f_equal;
        try (apply Z.eqb_neq in Hr0);
        repeat match goal with
               | |- context [?a <=? ?b] => destruct (Z.leb_spec a b)
               | |- context [?a =? ?b] => destruct (Z.eqb_spec a b)
               end; cbn; try reflexivity; lia.
  - assert (Hodd : 2 * r <> D).
    { intros <-. rewrite Z.even_mul in Ev. discriminate. }
    destruct (Z.eqb_spec r 0) as [->|Hr0].
    + cbn [shr_record_of_loc negb andb]. f_equal. symmetry. apply Z.leb_gt. lia.
    + destruct (Z.compare_spec (2 * r + 1) D); cbn [shr_record_of_loc negb andb]; f_equal;
        repeat match goal with
               | |- context [?a <=? ?b] => destruct (Z.leb_spec a b)
               | |- context [?a =? ?b] => destruct (Z.eqb_spec a b)
               end; cbn; try reflexivity; lia.
Qed.

(** The quotient that the division rounds: [mx * 2^s / my] at the
    exponent [e'], with enough digits for it. *)
Lemma div_core_spec (mx : positive) (ex : Z) (my : positive) (ey : Z) :
  bounded prec emax mx ex = true -> bounded prec emax my ey = true ->
  exists q e' l s,
    SFdiv_core_binary prec emax (Zpos mx) ex (Zpos my) ey = (q, e', l)
    /\ 0 <= s /\ s = ex - ey - e' /\ -2200 <= e'
    /\ shr_inv (Zpos mx * 2 ^ s) (Zpos my) (shr_record_of_loc q l)
    /\ e' <= fexp64 (Zdigits2 q + e').
Proof.
  intros Vx Vy.
  destruct (bounded_facts mx ex Vx) as ([Hminx Hmaxx] & _ & _).
  destruct (bounded_facts my ey Vy) as ([Hminy Hmaxy] & _ & _).
  unfold SFdiv_core_binary.
  set (d1 := Zdigits2 (Zpos mx)). set (d2 := Zdigits2 (Zpos my)).
  set (e' := Z.min (fexp64 (d1 + ex - (d2 + ey))) (ex - ey)).
  set (s := ex - ey - e').
  assert (Hs : 0 <= s) by (unfold s, e'; lia).
  assert (He' : -2200 <= e') by (unfold e'; rewrite fexp64_eq; lia).
  set (m' := match s with Z.pos _ => Z.shiftl (Zpos mx) s | 0 => Zpos mx | Z.neg _ => 0 end).
  assert (Hm' : m' = Zpos mx * 2 ^ s).
  { unfold m'. destruct s as [|p|p]; [lia| |lia]. apply Z.shiftl_mul_pow2. lia. }
  pose proof (pow2_pos s Hs) as HPs.
  assert (HN : 0 <= m') by (rewrite Hm'; nia).
  pose proof (Z.mod_pos_bound m' (Zpos my) ltac:(lia)) as Hr.
  assert (Hq : fst (Z.div_eucl m' (Zpos my)) = m' / Zpos my) by reflexivity.
  assert (Hrm : snd (Z.div_eucl m' (Zpos my)) = m' mod Zpos my) by reflexivity.
  destruct (Z.div_eucl m' (Zpos my)) as [q r]. cbn [fst snd] in Hq, Hrm.
  exists q, e', (new_location (Zpos my) r), s.
  split; [reflexivity|]. split; [exact Hs|]. split; [reflexivity|]. split; [exact He'|].
  split.
  - rewrite new_location_inv by (rewrite ?Hrm; lia).
    unfold shr_inv. cbn [shr_m shr_r shr_s]. rewrite <- Hm', <- Hrm, <- Hq. repeat split.
  - rewrite fexp64_eq.
    destruct (Z.le_gt_cases e' (-1074)) as [|Hbig]; [lia|].
    assert (Hf : e' <= d1 + ex - (d2 + ey) - 53) by (unfold e' in *; rewrite fexp64_eq in *; lia).
    pose proof (digits2_pos_bounds mx) as [Hlox _]. pose proof (digits2_pos_bounds my) as [_ Hhiy].
    fold (Zdigits2 (Zpos mx)) in Hlox. fold (Zdigits2 (Zpos my)) in Hhiy. fold d1 in Hlox. fold d2 in Hhiy.
    assert (Hd1 : 0 < d1) by (unfold d1; cbn; lia).
    assert (Hd2 : 0 < d2) by (unfold d2; cbn; lia).
    assert (Hq52 : 2 ^ 52 <= q).
    { rewrite Hq. apply Z.div_le_lower_bound; [lia|]. rewrite Hm'.
      assert (2 ^ (52 + d2) <= 2 ^ ((d1 - 1) + s)) by (apply Z.pow_le_mono_r; lia).
      rewrite !Z.pow_add_r in * by lia. nia. }
    pose proof (Zdigits2_gt q 52 ltac:(lia) Hq52). lia.
Qed.

(** Division of a number that is not negative by a positive one. *)
Theorem SFdiv_bounds (x : spec_float) (my : positive) (ey : Z) (b : spec_float) :
  valid_binary x = true -> bounded prec emax my ey = true -> valid_binary b = true ->
  nnf x = true -> nnf b = true ->
  let y := S754_finite false my ey in
  SFleb (S754_zero false) (SFdiv prec emax x y) = true
  /\ (SF2Z x * 2 ^ 1074 <= SF2Z b * SF2Z y -> SFleb (SFdiv prec emax x y) b = true)
  /\ (valid_binary (SFdiv prec emax x y) = true ->
      SF2Z b * SF2Z y <= SF2Z x * 2 ^ 1074 -> SFleb b (SFdiv prec emax x y) = true).
Proof.
  intros Vx Vy Vb Nx Nb y. subst y.
  destruct (bounded_facts my ey Vy) as ([Hminy Hmaxy] & _ & _).
  pose proof (SF2Z_finite_pos my ey Hminy) as Hypos.
  destruct x as [sx|sx| |[] mx ex]; try discriminate.
  - (* zero divided by a positive number *)
    cbn [SFdiv]. split; [now destruct sx|]. split; intros.
    + now apply SFleb_zero_l.
    + apply SFleb_zero_r; try assumption. change (SF2Z (S754_zero sx)) with 0 in *. nia.
  - cbn [valid_binary] in Vx.
    destruct (bounded_facts mx ex Vx) as ([Hminx Hmaxx] & _ & _).
    pose proof (SF2Z_finite_pos mx ex Hminx) as Hxpos.
    destruct (div_core_spec mx ex my ey Vx Vy) as (q & e' & l & s & E & Hs & Hse & He' & Hinv & Hpre).
    cbn [SFdiv xorb]. rewrite E.
    pose proof (pow2_pos s Hs) as HPs.
    assert (HN : 0 <= Zpos mx * 2 ^ s) by nia.
    split; [apply (round_aux_sign (Zpos mx * 2 ^ s) (Zpos my)); try assumption; lia|].
    assert (Hval : forall mb eb, -1074 <= eb <= 971 ->
              Zpos mx * 2 ^ s * 2 ^ (e' - -4000)
              = SF2Z (S754_finite false mx ex) * 2 ^ 1074 * 2 ^ (1852 - ey)
              /\ Zpos my * Zpos mb * 2 ^ (eb - -4000)
                 = SF2Z (S754_finite false mb eb) * SF2Z (S754_finite false my ey)
                   * 2 ^ (1852 - ey)).
    { intros mb eb Heb. unfold SF2Z, cond_Zopp. split.
      - rewrite <- !Z.mul_assoc, <- !Z.pow_add_r by lia. do 2 f_equal. lia.
      - replace (eb - -4000) with ((eb + 1074) + ((ey + 1074) + (1852 - ey))) by lia.
        rewrite (Z.pow_add_r 2 (eb + 1074) ((ey + 1074) + (1852 - ey))),
          (Z.pow_add_r 2 (ey + 1074) (1852 - ey)) by lia.
        ring. }
    pose proof (pow2_pos (1852 - ey) ltac:(lia)) as HT.
    destruct b as [sb|sb| |[] mb eb]; try discriminate.
    + split.
      * intros H. change (SF2Z (S754_zero sb)) with 0 in H. nia.
      * intros _ _. apply (round_aux_sign (Zpos mx * 2 ^ s) (Zpos my)); try assumption; lia.
    + cbn [valid_binary] in Vb. destruct (bounded_facts mb eb Vb) as (Hb & _).
      destruct (Hval mb eb Hb) as [E1 E2].
      split.
      * intros H. apply (round_aux_le (Zpos mx * 2 ^ s) (Zpos my) _ _ (-4000));
          try assumption; try lia.
        rewrite E1, E2. apply Z.mul_le_mono_nonneg_r; lia.
      * intros Vr H. apply (round_aux_ge (Zpos mx * 2 ^ s) (Zpos my) _ _ (-4000));
          try assumption; try lia.
        rewrite E1, E2. apply Z.mul_le_mono_nonneg_r; lia.
Qed.

(** ** Primitive floats *)

Lemma F2Z_nonneg (x : float) : nnfF x = true -> 0 <= F2Z x.
Proof.
  unfold nnfF, F2Z. pose proof (Prim2SF_valid x) as V.
  destruct (Prim2SF x) as [s|s| |[] m e]; try discriminate; intros _; cbn [SF2Z]; try lia.
  cbn [valid_binary] in V. destruct (bounded_facts m e V) as ([Hmin _] & _).
  pose proof (SF2Z_finite_pos m e Hmin). cbn [SF2Z] in *. lia.
Qed.

(** On numbers that are not negative, [<=?] and [<?] compare the values. *)
Lemma leb_nnf (x y : float) :
  nnfF x = true -> nnfF y = true -> (x <=? y)%float = (F2Z x <=? F2Z y).
Proof.
  intros. rewrite leb_spec. apply SFleb_nnf; auto using Prim2SF_valid.
Qed.

Lemma ltb_nnf (x y : float) :
  nnfF x = true -> nnfF y = true -> (x <? y)%float = (F2Z x <? F2Z y).
Proof.
  intros. rewrite ltb_spec. apply SFltb_nnf; auto using Prim2SF_valid.
Qed.

(** A number between 0 and a finite bound is finite. *)
Lemma nnf_between (x b : float) :
  (0 <=? x)%float = true -> (x <=? b)%float = true -> nnfF b = true -> nnfF x = true.
Proof.
  rewrite !leb_spec. unfold nnfF. change (Prim2SF 0) with (S754_zero false).
  destruct (Prim2SF x) as [s|[]| |[] m e], (Prim2SF b) as [sb|sb| |[] mb eb];
    cbn; congruence.
Qed.

(** A number that is not below 0 is finite or [+Infinity]. *)
Lemma ge0_cases (x : float) :
  (0 <=? x)%float = true -> nnfF x = true \/ Prim2SF x = S754_infinity false.
Proof.
  rewrite leb_spec. unfold nnfF. change (Prim2SF 0) with (S754_zero false).
  destruct (Prim2SF x) as [s|[]| |[] m e]; cbn; auto; congruence.
Qed.

(** The bounds of the three operations, on primitive floats. *)
Lemma mul_bounds (x y b : float) :
  nnfF x = true -> nnfF y = true -> nnfF b = true ->
  (0 <=? x * y)%float = true
  /\ (F2Z x * F2Z y <= F2Z b * 2 ^ 1074 -> (x * y <=? b)%float = true)
  /\ (F2Z b * 2 ^ 1074 <= F2Z x * F2Z y -> (b <=? x * y)%float = true).
Proof.
  intros Nx Ny Nb. rewrite !leb_spec. pose proof (Prim2SF_valid (x * y)) as Vr.
  rewrite mul_spec in *. change (Prim2SF 0) with (S754_zero false).
  destruct (SFmul_bounds (Prim2SF x) (Prim2SF y) (Prim2SF b)) as (H0 & Hle & Hge);
    auto using Prim2SF_valid.
Qed.

Lemma add_bounds (x y b : float) :
  nnfF x = true -> nnfF y = true -> nnfF b = true ->
  (0 <=? x + y)%float = true
  /\ (F2Z x + F2Z y <= F2Z b -> (x + y <=? b)%float = true)
  /\ (F2Z b <= F2Z x + F2Z y -> (b <=? x + y)%float = true).
Proof.
  intros Nx Ny Nb. rewrite !leb_spec. pose proof (Prim2SF_valid (x + y)) as Vr.
  rewrite add_spec in *. change (Prim2SF 0) with (S754_zero false).
  destruct (SFadd_bounds (Prim2SF x) (Prim2SF y) (Prim2SF b)) as (H0 & Hle & Hge);
    auto using Prim2SF_valid.
Qed.

Lemma div_bounds (x y b : float) :
  nnfF x = true -> nnfF y = true -> 0 < F2Z y -> nnfF b = true ->
  (0 <=? x / y)%float = true
  /\ (F2Z x * 2 ^ 1074 <= F2Z b * F2Z y -> (x / y <=? b)%float = true)
  /\ (F2Z b * F2Z y <= F2Z x * 2 ^ 1074 -> (b <=? x / y)%float = true).
Proof.
  intros Nx Ny Hy Nb. rewrite !leb_spec. pose proof (Prim2SF_valid (x / y)) as Vr.
  pose proof (Prim2SF_valid y) as Vy.
  rewrite div_spec in *. change (Prim2SF 0) with (S754_zero false).
  unfold nnfF, F2Z in *.
  destruct (Prim2SF y) as [sy|sy| |[] my ey]; try discriminate; cbn [SF2Z] in Hy; try lia.
  cbn [valid_binary] in Vy.
  destruct (SFdiv_bounds (Prim2SF x) my ey (Prim2SF b)) as (H0 & Hle & Hge);
    auto using Prim2SF_valid.
Qed.

Lemma F2Z_1 : F2Z 1 = 2 ^ 1074.
Proof. vm_compute. reflexivity. Qed.

Lemma nnfF_1 : nnfF 1 = true.
Proof. reflexivity. Qed.

Lemma nnfF_0 : nnfF 0 = true.
Proof. reflexivity. Qed.

(** [1 + e] is at least 1 when [e] is not below 0. *)
Lemma one_plus_ge (e : float) :
  (0 <=? e)%float = true -> (1 <=? 1 + e)%float = true.
Proof.
  intros H. destruct (ge0_cases e H) as [Ne|Einf].
  - apply (add_bounds 1 e 1); auto using nnfF_1. pose proof (F2Z_nonneg e Ne). lia.
  - rewrite leb_spec, add_spec, Einf. reflexivity.
Qed.

(** The inverse of a number that is at least 1 is between 0 and 1. *)
Lemma inv_le_one (y : float) :
  (1 <=? y)%float = true -> (0 <=? 1 / y)%float = true /\ (1 / y <=? 1)%float = true.
Proof.
  intros H.
  assert (Hc : (nnfF y = true /\ 0 < F2Z y) \/ Prim2SF y = S754_infinity false).
  { rewrite leb_spec in H. unfold nnfF, F2Z.
    pose proof (Prim2SF_valid y) as V.
    change (Prim2SF 1) with (S754_finite false 4503599627370496 (-52)) in H.
    destruct (Prim2SF y) as [s|[]| |[] m e]; cbn in H; try discriminate; auto.
    left. split; [reflexivity|]. cbn [valid_binary] in V.
    destruct (bounded_facts m e V) as ([Hmin _] & _). now apply SF2Z_finite_pos. }
  destruct Hc as [[Ny Hy]|Einf].
  - destruct (div_bounds 1 y 1 nnfF_1 Ny Hy nnfF_1) as (H0 & Hle & _).
    split; [exact H0|]. apply Hle.
    rewrite (leb_nnf 1 y nnfF_1 Ny) in H. apply Z.leb_le in H.
    rewrite F2Z_1 in *. pose proof (pow2_pos 1074 ltac:(lia)). nia.
  - rewrite !leb_spec, div_spec, Einf. split; reflexivity.
Qed.


(** The logistic term and the effort. *)
Lemma logistic_bounds (e : float) :
  (0 <=? e)%float = true ->
  (0 <=? 1 / (1 + e))%float = true /\ (1 / (1 + e) <=? 1)%float = true.
Proof. intros H. apply inv_le_one, one_plus_ge, H. Qed.

(** ** NaN *)

(** NaN is the one value whose specification is [S754_nan]. *)
Lemma is_nan_spec (x : float) : is_nan x = true <-> Prim2SF x = S754_nan.
Proof.
  unfold Prim2SF. destruct (is_nan x); [tauto|].
  split; [discriminate|].
  destruct (is_zero x); [discriminate|]. destruct (is_infinity x); [discriminate|].
  destruct (Z.frexp x) as [r e].
  destruct (shr_fexp prec emax _ _ _) as [mrs e'].
  destruct (shr_m mrs); discriminate.
Qed.

(** NaN is absorbing. *)
Lemma add_nan_l (x y : float) : is_nan x = true -> is_nan (x + y) = true.
Proof.
  rewrite !is_nan_spec, add_spec. intros ->. reflexivity.
Qed.

Lemma add_nan_r (x y : float) : is_nan y = true -> is_nan (x + y) = true.
Proof.
  rewrite !is_nan_spec, add_spec. intros ->. now destruct (Prim2SF x).
Qed.

Lemma sub_nan_l (x y : float) : is_nan x = true -> is_nan (x - y) = true.
Proof.
  rewrite !is_nan_spec, sub_spec. intros ->. reflexivity.
Qed.

Lemma mul_nan_r (x y : float) : is_nan y = true -> is_nan (x * y) = true.
Proof.
  rewrite !is_nan_spec, mul_spec. intros ->. now destruct (Prim2SF x).
Qed.

Lemma mul_nan_l (x y : float) : is_nan x = true -> is_nan (x * y) = true.
Proof.
  rewrite !is_nan_spec, mul_spec. intros ->. reflexivity.
Qed.

(** [Infinity * c * 0] is NaN whatever [c] is. *)
Lemma infinity_mul_zero (c : float) : is_nan (infinity * c * 0) = true.
Proof.
  rewrite is_nan_spec, !mul_spec.
  change (Prim2SF infinity) with (S754_infinity false).
  change (Prim2SF 0) with (S754_zero false).
  destruct (Prim2SF c) as [s|s| |s m e]; reflexivity.
Qed.

Lemma Math_max_nan (a b : float) : is_nan b = true -> is_nan (JS.Math_max a b) = true.
Proof. unfold JS.Math_max. intros ->. rewrite orb_true_r. reflexivity. Qed.

Lemma Math_min_nan (a b : float) : is_nan b = true -> is_nan (JS.Math_min a b) = true.
Proof. unfold JS.Math_min. intros ->. rewrite orb_true_r. reflexivity. Qed.

Lemma toFixed3_nan (x : float) : is_nan x = true -> is_nan (JS.toFixed3 x) = true.
Proof. unfold JS.toFixed3. intros ->. reflexivity. Qed.


(** * The generator's arithmetic *)

Lemma of_Z_uint63 (z : Z) :
  0 <= z < 2 ^ 63 -> JS.of_Z z = of_uint63 (Uint63.of_Z z).
Proof.
  intros H. unfold JS.of_Z.
  rewrite <- (SF2Prim_Prim2SF (of_uint63 (Uint63.of_Z z))), of_uint63_spec.
  rewrite Uint63.of_Z_spec, Z.mod_small; [reflexivity|].
  change Uint63.wB with (2 ^ 63). lia.
Qed.

Lemma Prim2SF_of_Z (z : Z) :
  0 <= z < 2 ^ 63 -> Prim2SF (JS.of_Z z) = binary_normalize prec emax z 0 false.
Proof.
  intros H. rewrite of_Z_uint63, of_uint63_spec by exact H.
  rewrite Uint63.of_Z_spec, Z.mod_small; [reflexivity|].
  change Uint63.wB with (2 ^ 63). lia.
Qed.

(** Every positive integer below [2^53] is a double. *)
Lemma representable (V : Z) :
  0 < V < 2 ^ 53 ->
  exists mb eb, bounded prec emax mb eb = true
                /\ SF2Z (S754_finite false mb eb) = V * 2 ^ 1074.
Proof.
  intros [Hpos Hlt].
  pose proof (Zdigits2_bounds V Hpos) as [Hlo Hhi].
  set (d := Zdigits2 V) in *.
  assert (Hd : 0 < d <= 53).
  { split; [unfold d; destruct V; cbn; lia|].
    destruct (Z.le_gt_cases d 53) as [|Hbig]; [assumption|exfalso].
    assert (2 ^ 53 <= 2 ^ (d - 1)) by (apply Z.pow_le_mono_r; lia). lia. }
  pose proof (pow2_pos (53 - d) ltac:(lia)) as HP.
  exists (Z.to_pos (V * 2 ^ (53 - d))), (d - 53).
  assert (Hm : Zpos (Z.to_pos (V * 2 ^ (53 - d))) = V * 2 ^ (53 - d)) by (apply Z2Pos.id; nia).
  split.
  - unfold bounded, canonical_mantissa. apply andb_true_iff. split.
    + apply Z.eqb_eq. fold (Zdigits2 (Zpos (Z.to_pos (V * 2 ^ (53 - d))))).
      rewrite Hm, Zdigits2_shift by lia. fold d. rewrite fexp64_eq. lia.
    + apply Z.leb_le. change (emax - prec) with 971. lia.
  - unfold SF2Z, cond_Zopp. rewrite Hm.
    replace 1074 with ((53 - d) + (d - 53 + 1074)) at 2 by lia.
    rewrite (Z.pow_add_r 2 (53 - d)) by lia. ring.
Qed.

(** A float squeezed between 0 and a finite float, from both sides, has
    its value. *)
Lemma squeeze (r b : float) :
  nnfF b = true -> (0 <=? r)%float = true -> (r <=? b)%float = true ->
  (b <=? r)%float = true -> nnfF r = true /\ F2Z r = F2Z b.
Proof.
  intros Nb H0 Hle Hge. pose proof (nnf_between r b H0 Hle Nb) as Nr.
  split; [exact Nr|].
  rewrite leb_nnf in Hle, Hge by assumption. apply Z.leb_le in Hle, Hge. lia.
Qed.

(** Integers below [2^53] are converted exactly. *)
Lemma of_Z_exact (z : Z) :
  0 <= z < 2 ^ 53 -> nnfF (JS.of_Z z) = true /\ F2Z (JS.of_Z z) = z * 2 ^ 1074.
Proof.
  intros [H0 H53]. unfold nnfF, F2Z.
  pose proof (Prim2SF_valid (JS.of_Z z)) as V.
  rewrite Prim2SF_of_Z in * by lia.
  destruct z as [|p|p]; [split; reflexivity| |lia].
  cbn [binary_normalize] in *.
  destruct (representable (Zpos p) ltac:(lia)) as (mb & eb & Hb & Hv).
  destruct (binary_round_bounds p 0 (-1074) mb eb Hb) as (Hs & Hle & Hge); try lia.
  assert (Hb' : Zpos mb * 2 ^ (eb - -1074) = Zpos p * 2 ^ (0 - -1074)).
  { unfold SF2Z, cond_Zopp in Hv. replace (eb - -1074) with (eb + 1074) by lia. exact Hv. }
  specialize (Hle ltac:(lia)). specialize (Hge V ltac:(lia)).
  set (R := binary_round prec emax false p 0) in *.
  assert (NR : nnf R = true).
  { destruct R as [s|[]| |[] m e]; cbn in Hs, Hle; try discriminate; reflexivity. }
  split; [exact NR|].
  rewrite SFleb_nnf in Hle, Hge by (cbn [valid_binary nnf]; auto).
  apply Z.leb_le in Hle, Hge. lia.
Qed.

Lemma mul_exact (x y : float) (V : Z) :
  nnfF x = true -> nnfF y = true -> 0 <= V < 2 ^ 53 ->
  F2Z x * F2Z y = V * 2 ^ 1074 * 2 ^ 1074 ->
  nnfF (x * y) = true /\ F2Z (x * y) = V * 2 ^ 1074.
Proof.
  intros Nx Ny HV H. destruct (of_Z_exact V HV) as [Nb Eb].
  destruct (mul_bounds x y (JS.of_Z V) Nx Ny Nb) as (H0 & Hle & Hge).
  rewrite <- Eb. apply squeeze; auto; [apply Hle|apply Hge]; rewrite Eb; lia.
Qed.

Lemma add_exact (x y : float) (V : Z) :
  nnfF x = true -> nnfF y = true -> 0 <= V < 2 ^ 53 ->
  F2Z x + F2Z y = V * 2 ^ 1074 ->
  nnfF (x + y) = true /\ F2Z (x + y) = V * 2 ^ 1074.
Proof.
  intros Nx Ny HV H. destruct (of_Z_exact V HV) as [Nb Eb].
  destruct (add_bounds x y (JS.of_Z V) Nx Ny Nb) as (H0 & Hle & Hge).
  rewrite <- Eb. apply squeeze; auto; [apply Hle|apply Hge]; rewrite Eb; lia.
Qed.

(** The integer part of a finite number that is not negative. *)
Lemma truncate_nnf (x : float) :
  nnfF x = true -> JS.truncate x = F2Z x / 2 ^ 1074.
Proof.
  unfold nnfF, F2Z, JS.truncate. pose proof (Prim2SF_valid x) as V.
  destruct (Prim2SF x) as [s|s| |[] m e]; try discriminate; intros _.
  - reflexivity.
  - cbn [valid_binary] in V. destruct (bounded_facts m e V) as ([Hmin _] & _).
    unfold SF2Z, cond_Zopp.
    pose proof (pow2_pos 1074 ltac:(lia)) as HP.
    destruct (Z.leb_spec 0 e) as [Hpos|Hneg].
    + rewrite Z.shiftl_mul_pow2 by lia. rewrite Z.pow_add_r by lia.
      rewrite Z.mul_assoc. rewrite Z.div_mul by lia. reflexivity.
    + rewrite Z.shiftr_div_pow2 by lia.
      replace 1074 with ((e + 1074) + (- e)) at 2 by lia.
      pose proof (pow2_pos (e + 1074) ltac:(lia)). pose proof (pow2_pos (- e) ltac:(lia)).
      rewrite (Z.pow_add_r 2 (e + 1074) (- e)) by lia.
      rewrite (Z.mul_comm (2 ^ (e + 1074)) (2 ^ (- e))).
      rewrite Z.div_mul_cancel_r by lia.
      reflexivity.
Qed.

Lemma truncate_infinity (x : float) :
  Prim2SF x = S754_infinity false -> JS.truncate x = 0.
Proof. unfold JS.truncate. now intros ->. Qed.

(** [x & 0x7fffffff] keeps the low 31 bits of the integer part. *)
Lemma bitand_mask (x : float) :
  JS.bitand x 0x7fffffff = JS.truncate x mod 2 ^ 31.
Proof.
  unfold JS.bitand. change (JS.ToInt32 0x7fffffff) with (Z.ones 31).
  rewrite Z.land_ones by lia. unfold JS.ToInt32.
  set (t := JS.truncate x).
  pose proof (Z.div_mod (t + 2 ^ 31) (2 ^ 32) ltac:(lia)) as E.
  replace ((t + 2 ^ 31) mod 2 ^ 32 - 2 ^ 31)
    with (t + (- 2 * ((t + 2 ^ 31) / 2 ^ 32)) * 2 ^ 31) by lia.
  apply Z.mod_add. lia.
Qed.

(** The constants of the generator and of the proofs, as values. *)
Lemma F2Z_multiplier : nnfF 1103515245 = true /\ F2Z 1103515245 = 1103515245 * 2 ^ 1074.
Proof. split; vm_compute; reflexivity. Qed.

Lemma F2Z_increment : nnfF 12345 = true /\ F2Z 12345 = 12345 * 2 ^ 1074.
Proof. split; vm_compute; reflexivity. Qed.

Lemma F2Z_modulus : nnfF 0x7fffffff = true /\ F2Z 0x7fffffff = (2 ^ 31 - 1) * 2 ^ 1074.
Proof. split; vm_compute; reflexivity. Qed.

Lemma F2Z_2p53 : nnfF 0x1p53 = true /\ F2Z 0x1p53 = 2 ^ 53 * 2 ^ 1074.
Proof. split; vm_compute; reflexivity. Qed.

(** The largest double below 1. *)
Lemma F2Z_pred_1 :
  nnfF 0x1.fffffffffffffp-1 = true
  /\ F2Z 0x1.fffffffffffffp-1 = (2 ^ 53 - 1) * 2 ^ 1021.
Proof. split; vm_compute; reflexivity. Qed.

(** Below [2^53] the linear congruence never gives [2^31 - 1]: the seed
    would have to be [230538014] modulo [2^31], above the largest seed whose
    product stays below [2^53]. *)
Lemma congruence_not_max (s : Z) :
  0 <= s -> s * 1103515245 + 12345 < 2 ^ 53 ->
  (s * 1103515245 + 12345) mod 2 ^ 31 <> 2 ^ 31 - 1.
Proof.
  intros H0 H Hmod.
  pose proof (Z.div_mod (s * 1103515245 + 12345) (2 ^ 31) ltac:(lia)) as E.
  rewrite Hmod in E. set (q := (s * 1103515245 + 12345) / 2 ^ 31) in *. clearbody q.
  change (2 ^ 31) with 2147483648 in *. change (2 ^ 53) with 9007199254740992 in *.
  assert (Hk : s + 1916945634
               = 2147483648 * (q * 1857678181 + 1857678181 - s * 954594553 - 10679))
    by lia.
  lia.
Qed.

Lemma next_seed_range (s : Z) : 0 <= SeededRandom.next_seed s < 2 ^ 31.
Proof. unfold SeededRandom.next_seed. rewrite bitand_mask. apply Z.mod_pos_bound. lia. Qed.

Lemma next_seed_exact (s : Z) :
  0 <= s -> s * 1103515245 + 12345 < 2 ^ 53 ->
  SeededRandom.next_seed s = (s * 1103515245 + 12345) mod 2 ^ 31.
Proof.
  intros H0 H. unfold SeededRandom.next_seed. rewrite bitand_mask.
  destruct (of_Z_exact s ltac:(lia)) as [Ns Es].
  destruct F2Z_multiplier as [Na Ea]. destruct F2Z_increment as [Nc Ec].
  destruct (mul_exact (JS.of_Z s) 1103515245 (s * 1103515245) Ns Na ltac:(lia))
    as [Np Ep]; [rewrite Es, Ea; ring|].
  destruct (add_exact (JS.of_Z s * 1103515245) 12345 (s * 1103515245 + 12345) Np Nc
              ltac:(lia)) as [Nx Ex]; [rewrite Ep, Ec; ring|].
  rewrite truncate_nnf, Ex, Z.div_mul by (try assumption; pose proof (pow2_pos 1074); lia).
  reflexivity.
Qed.

(** From [2^53] on a double is an even integer, and so are its low 31
    bits. *)
Lemma big_not_max (x : float) :
  (0 <=? x)%float = true -> (0x1p53 <=? x)%float = true ->
  JS.truncate x mod 2 ^ 31 <> 2 ^ 31 - 1.
Proof.
  intros H0 H53. destruct (ge0_cases x H0) as [Nx|Einf].
  - destruct F2Z_2p53 as [Nb Eb].
    rewrite leb_nnf in H53 by assumption. apply Z.leb_le in H53. rewrite Eb in H53.
    unfold JS.truncate. unfold nnfF, F2Z in *. pose proof (Prim2SF_valid x) as V.
    pose proof (pow2_pos 1074 ltac:(lia)) as HP.
    change (2 ^ 53) with 9007199254740992 in *.
    destruct (Prim2SF x) as [s|s| |[] m e]; try discriminate.
    cbn [valid_binary] in V. destruct (bounded_facts m e V) as ([Hmin _] & Hm & _).
      unfold SF2Z, cond_Zopp in H53.
      assert (He : 1 <= e).
      { destruct (Z.le_gt_cases 1 e) as [|Hsmall]; [assumption|exfalso].
        assert (2 ^ (e + 1074) <= 2 ^ 1074) by (apply Z.pow_le_mono_r; lia).
        pose proof (pow2_pos (e + 1074) ltac:(lia)). nia. }
      destruct (Z.leb_spec 0 e); [|lia].
      rewrite Z.shiftl_mul_pow2 by lia.
      replace e with (Z.succ (e - 1)) by lia. rewrite Z.pow_succ_r by lia.
      set (h := 2 ^ (e - 1)). intros Hmod.
      pose proof (Z.div_mod (Zpos m * (2 * h)) (2 ^ 31) ltac:(lia)) as E.
      rewrite Hmod in E. change (2 ^ 31) with 2147483648 in E. lia.
  - rewrite truncate_infinity by exact Einf. cbn. lia.
Qed.

Lemma next_seed_not_max (s : Z) : 0 <= s < 2 ^ 53 -> SeededRandom.next_seed s <> 2 ^ 31 - 1.
Proof.
  intros [H0 H53].
  destruct (Z.lt_ge_cases (s * 1103515245 + 12345) (2 ^ 53)) as [Hsmall|Hbig].
  - rewrite next_seed_exact by assumption. now apply congruence_not_max.
  - unfold SeededRandom.next_seed. rewrite bitand_mask.
    destruct (of_Z_exact s ltac:(lia)) as [Ns Es].
    destruct F2Z_multiplier as [Na Ea]. destruct F2Z_increment as [Nc Ec].
    destruct F2Z_2p53 as [Nb Eb].
    set (p := (JS.of_Z s * 1103515245)%float).
    destruct (mul_bounds (JS.of_Z s) 1103515245 0x1p53 Ns Na Nb) as (Hp0 & _ & Hpge).
    fold p in Hp0, Hpge.
    pose proof (pow2_pos 1074 ltac:(lia)) as HP.
    destruct (ge0_cases p Hp0) as [Np|Einf].
    + destruct (add_bounds p 12345 0x1p53 Np Nc Nb) as (Hx0 & _ & Hxge).
      apply big_not_max; [exact Hx0|]. apply Hxge. rewrite Eb, Ec.
      destruct (Z.lt_ge_cases (s * 1103515245) (2 ^ 53)) as [Hps|Hpb].
      * destruct (mul_exact (JS.of_Z s) 1103515245 (s * 1103515245) Ns Na ltac:(lia))
          as [_ Ep]; [rewrite Es, Ea; ring|].
        fold p in Ep. rewrite Ep. nia.
      * assert (Hge : (0x1p53 <=? p)%float = true).
        { apply Hpge. rewrite Eb, Es, Ea. nia. }
        rewrite leb_nnf in Hge by assumption. apply Z.leb_le in Hge. rewrite Eb in Hge. nia.
    + assert (Ex : Prim2SF (p + 12345) = S754_infinity false).
      { rewrite FloatAxioms.add_spec, Einf. reflexivity. }
      rewrite truncate_infinity by exact Ex. cbn. lia.
Qed.

(** A seed below [2^31 - 1] gives a draw in [0, 1). *)
Lemma draw_range (s : Z) :
  0 <= s <= 2 ^ 31 - 2 ->
  (0 <=? JS.of_Z s / 0x7fffffff)%float = true
  /\ (JS.of_Z s / 0x7fffffff <? 1)%float = true.
Proof.
  intros Hs. destruct (of_Z_exact s ltac:(lia)) as [Ns Es].
  destruct F2Z_modulus as [Nm Em]. destruct F2Z_pred_1 as [Nb Eb].
  pose proof (pow2_pos 1074 ltac:(lia)) as HP.
  destruct (div_bounds (JS.of_Z s) 0x7fffffff 0x1.fffffffffffffp-1 Ns Nm) as (H0 & Hle & _);
    [rewrite Em; lia|exact Nb|].
  split; [exact H0|].
  assert (Hb : (JS.of_Z s / 0x7fffffff <=? 0x1.fffffffffffffp-1)%float = true).
  { apply Hle. rewrite Es, Em, Eb.
    replace (2 ^ 1074) with (2 ^ 53 * 2 ^ 1021) by (rewrite <- Z.pow_add_r; [reflexivity|lia|lia]).
    pose proof (pow2_pos 1021 ltac:(lia)). 
    change (2 ^ 31) with 2147483648 in *. change (2 ^ 53) with 9007199254740992.
    nia. }
  pose proof (nnf_between _ _ H0 Hb Nb) as Nq.
  rewrite ltb_nnf by (try assumption; apply nnfF_1).
  rewrite leb_nnf in Hb by assumption. apply Z.leb_le in Hb. apply Z.ltb_lt.
  rewrite F2Z_1. rewrite Eb in Hb.
  replace (2 ^ 1074) with (2 ^ 53 * 2 ^ 1021) by (rewrite <- Z.pow_add_r; [reflexivity|lia|lia]).
  pose proof (pow2_pos 1021 ltac:(lia)). change (2 ^ 53) with 9007199254740992 in *. nia.
Qed.
(** * Properties of the engine *)

(** ** The loop *)

Lemma times_seq (n : nat) :
  forall t, times n t = map (fun k => t + Z.of_nat k) (seq 0 n).
Proof.
  induction n as [|n IH]; intros t; [reflexivity|].
  cbn [times seq map]. rewrite Z.add_0_r. f_equal.
  rewrite IH, <- seq_shift, map_map.
  apply map_ext. intros k. lia.
Qed.

Section LoopFacts.
Variable M : MathLib.
Variable params : Params.
Variable finalTime : Z.

(** An invariant of the generators and the stocks that every period
    keeps holds in every state the loop reaches, and a property that
    every point pushed from such a state has holds on the whole
    trajectory. *)
Lemma loop_invariant (I : Streams -> Stocks -> Prop) (Q : TrajectoryPoint -> Prop) :
  (forall time rs st, I rs st ->
     I (p_streams (period_body M params finalTime time rs st))
       (p_stocks (period_body M params finalTime time rs st))
     /\ Q (record_point time (period_body M params finalTime time rs st))) ->
  forall n time s,
    I (streams s) (stocks s) -> Forall Q (trajectory s) ->
    I (streams (loop M params finalTime n time s))
      (stocks (loop M params finalTime n time s))
    /\ Forall Q (trajectory (loop M params finalTime n time s)).
Proof.
  intros Hstep. induction n as [|n IH]; intros time s HI HQ; [now split|].
  cbn [loop]. apply IH; unfold step; cbn [streams stocks trajectory].
  - apply Hstep, HI.
  - destruct (Z.rem time 5 =? 0); [|exact HQ].
    apply Forall_app. split; [exact HQ|].
    constructor; [apply Hstep, HI|constructor].
Qed.

(** The periods on the trajectory: the loop pushes a point exactly at
    the times that are multiples of 5. *)
Lemma loop_periods :
  forall n time s,
    map period (trajectory (loop M params finalTime n time s))
    = map period (trajectory s) ++ filter (fun t => Z.rem t 5 =? 0) (times n time).
Proof.
  induction n as [|n IH]; intros time s; cbn [loop times filter].
  - now rewrite app_nil_r.
  - rewrite IH. unfold step; cbn [trajectory].
    destruct (Z.rem time 5 =? 0); [|reflexivity].
    now rewrite map_app, <- app_assoc.
Qed.

(** The loop only appends: the points already pushed stay in front. *)
Lemma loop_prefix :
  forall n time s,
    exists l, trajectory (loop M params finalTime n time s) = trajectory s ++ l.
Proof.
  induction n as [|n IH]; intros time s; cbn [loop].
  - exists []. now rewrite app_nil_r.
  - destruct (IH (time + 1) (step M params finalTime time s)) as [l Hl].
    rewrite Hl. unfold step; cbn [trajectory].
    destruct (Z.rem time 5 =? 0).
    + eexists. now rewrite <- app_assoc.
    + now exists l.
Qed.

End LoopFacts.

(** ** Sampling cadence *)

Lemma runSimulation_periods (M : MathLib) (fresh : Z) (params : Params)
    (finalTime : Z) (seed : option Z) :
  map period (runSimulation M fresh params finalTime seed)
  = filter (fun t => Z.rem t 5 =? 0) (map Z.of_nat (seq 0 (Z.to_nat (finalTime + 1)))).
Proof.
  unfold runSimulation, final_state. rewrite loop_periods. cbn [init trajectory map app].
  rewrite times_seq. reflexivity.
Qed.


(** ** Zero ambition *)

Lemma toFixed3_0 : JS.toFixed3 0 = 0%float.
Proof. reflexivity. Qed.

Lemma toFixed3_1 : JS.toFixed3 1 = 1%float.
Proof. reflexivity. Qed.

Lemma zero_ambition_period (M : MathLib) (params : Params) (finalTime time : Z)
    (rs : Streams) (st : Stocks) :
  JS.strict_eq (ambition params) 0 = true ->
  let c := period_body M params finalTime time rs st in
  p_challengeStressors c = 0%float /\ p_hindranceStressors c = 0%float
  /\ p_strainIncrease c = 0%float /\ p_recovery c = 1%float
  /\ rng2_challenge (p_streams c) = rng2_challenge rs
  /\ rng3_hindrance (p_streams c) = rng3_hindrance rs.
Proof.
  intros H. unfold period_body. rewrite H. destruct_draws.
  cbn. repeat split.
Qed.

(** C7: when [ambition === 0], in every period (whatever the state it
    starts from) the challenge stressors, the hindrance stressors and the
    strain increase are 0 and the recovery is 1, and the challenge and
    hindrance generators are left as they were: no draw is taken from them.
    Hence every recorded point has stressors 0 and recovery 1, and at the
    end of the run both generators still hold the seeds they were
    constructed with. *)
Theorem zero_ambition_degeneracy (M : MathLib) (params : Params) (finalTime : Z)
    (fresh : Z) (seed : option Z) :
  JS.strict_eq (ambition params) 0 = true ->
  (forall time rs st,
     let c := period_body M params finalTime time rs st in
     p_challengeStressors c = 0%float /\ p_hindranceStressors c = 0%float
     /\ p_strainIncrease c = 0%float /\ p_recovery c = 1%float
     /\ rng2_challenge (p_streams c) = rng2_challenge rs
     /\ rng3_hindrance (p_streams c) = rng3_hindrance rs)
  /\ Forall (fun pt => challengeStressors pt = 0%float
                       /\ hindranceStressors pt = 0%float
                       /\ recovery pt = 1%float)
            (runSimulation M fresh params finalTime seed)
  /\ rng2_challenge (streams (final_state M fresh params finalTime seed))
     = SeededRandom.constructor (baseSeed fresh seed + 2000)
  /\ rng3_hindrance (streams (final_state M fresh params finalTime seed))
     = SeededRandom.constructor (baseSeed fresh seed + 3000).
Proof.
  intros H. split; [intros; now apply zero_ambition_period|].
  set (b := baseSeed fresh seed).
  destruct (loop_invariant M params finalTime
              (fun rs _ => rng2_challenge rs = SeededRandom.constructor (b + 2000)
                           /\ rng3_hindrance rs = SeededRandom.constructor (b + 3000))
              (fun pt => challengeStressors pt = 0%float
                         /\ hindranceStressors pt = 0%float
                         /\ recovery pt = 1%float))
    with (n := Z.to_nat (finalTime + 1)) (time := 0) (s := init b) as [[H2 H3] HQ].
  - intros time rs st [I2 I3].
    destruct (zero_ambition_period M params finalTime time rs st H)
      as (Hc & Hh & _ & Hr & E2 & E3).
    split; [split; congruence|].
    cbn [record_point challengeStressors hindranceStressors recovery].
    rewrite Hc, Hh, Hr. now rewrite toFixed3_0, toFixed3_1.
  - now split.
  - constructor.
  - unfold runSimulation, final_state. fold b. now repeat split.
Qed.

Lemma zero_ambition_degeneracy_witness :
  JS.strict_eq (ambition zero_ambition_params) 0 = true
  /\ Forall (fun pt => challengeStressors pt = 0%float
                       /\ hindranceStressors pt = 0%float
                       /\ recovery pt = 1%float)
            (runSimulation RefMath.lib 0 zero_ambition_params 500 (Some 42)).
Proof.
  split; [reflexivity|].
  apply (zero_ambition_degeneracy RefMath.lib zero_ambition_params 500 0 (Some 42)).
  reflexivity.
Defined.

(** ** Seeds and reproducibility *)

(** A seed that is a number other than 0 is the base seed, whatever
    [Math.random] would have returned. *)
Lemma baseSeed_nonzero (fresh seed : Z) :
  seed <> 0 -> baseSeed fresh (Some seed) = seed.
Proof.
  intros H. unfold baseSeed. destruct (Z.eqb_spec seed 0); [contradiction|reflexivity].
Qed.

(** The seed 0 is falsy: the base seed is the fresh one, as for [null]. *)
Lemma baseSeed_zero (fresh : Z) : baseSeed fresh (Some 0) = baseSeed fresh None.
Proof. reflexivity. Qed.

(** Two calls with seed 0 that draw the fresh base seeds 1 and 2 return
    different trajectories: the challenge stressors of period 0 are 0 in
    the first and 0.257 in the second. *)
Lemma seed_zero_runs_differ :
  runSimulation RefMath.lib 1 fixture_params 5 (Some 0)
  <> runSimulation RefMath.lib 2 fixture_params 5 (Some 0).
Proof.
  intros H.
  apply (f_equal (fun tr => match tr with
                            | pt :: _ => (challengeStressors pt <? 0.125)%float
                            | [] => false
                            end)) in H.
  vm_compute in H. discriminate H.
Qed.

(** C1, as stated, fails: 0 is a seed that is not [null], and two calls
    with it need not agree. *)
Lemma determinism_counterexample :
  ~ (forall (M : MathLib) (params : Params) (finalTime seed fresh1 fresh2 : Z),
        runSimulation M fresh1 params finalTime (Some seed)
        = runSimulation M fresh2 params finalTime (Some seed)).
Proof.
  intros H. exact (seed_zero_runs_differ (H RefMath.lib fixture_params 5 0 1 2)).
Qed.

(** C1 (amended): for all parameters, every horizon and every seed other
    than 0, two calls return the same trajectory whatever [Math.random]
    would have returned in each: the trajectory is a function of the
    parameters, the horizon and the seed.  The five generators are
    constructed from the seed plus 0, 1000, 1500, 2000 and 3000. *)
Theorem determinism (M : MathLib) (params : Params) (finalTime seed fresh1 fresh2 : Z) :
  seed <> 0 ->
  runSimulation M fresh1 params finalTime (Some seed)
  = runSimulation M fresh2 params finalTime (Some seed)
  /\ streams (init (baseSeed fresh1 (Some seed)))
     = {| rng0_advance := SeededRandom.constructor seed;
          rng1_setback := SeededRandom.constructor (seed + 1000);
          rng1_setbackPoisson := SeededRandom.constructor (seed + 1500);
          rng2_challenge := SeededRandom.constructor (seed + 2000);
          rng3_hindrance := SeededRandom.constructor (seed + 3000) |}.
Proof.
  intros H. unfold runSimulation, final_state.
  rewrite !(baseSeed_nonzero _ seed H). split; reflexivity.
Qed.

Lemma determinism_witness :
  42 <> 0
  /\ runSimulation RefMath.lib 1 fixture_params 500 (Some 42)
     = runSimulation RefMath.lib 2 fixture_params 500 (Some 42).
Proof.
  split; [discriminate|].
  apply (determinism RefMath.lib fixture_params 500 42 1 2). discriminate.
Defined.

(** C10: a call with seed 0 is a call with seed [null]: both use the fresh
    base seed.  Such calls are not reproducible: with the fresh seeds 1 and
    2 the trajectories differ. *)
Theorem seed_zero_is_null :
  (forall (M : MathLib) (fresh : Z) (params : Params) (finalTime : Z),
     runSimulation M fresh params finalTime (Some 0)
     = runSimulation M fresh params finalTime None)
  /\ (exists (params : Params) (finalTime fresh1 fresh2 : Z),
        runSimulation RefMath.lib fresh1 params finalTime (Some 0)
        <> runSimulation RefMath.lib fresh2 params finalTime (Some 0)).
Proof.
  split; [reflexivity|].
  exists fixture_params, 5, 1, 2. exact seed_zero_runs_differ.
Qed.

(** ** Arguments that are not positive *)






(** ** The clamp of the stocks *)

Lemma Prim2SF_0 : Prim2SF 0 = S754_zero false.
Proof. reflexivity. Qed.

(** [Math.max(0, x)] is never negative (it is NaN when [x] is). *)
Lemma Math_max_0_not_negative (x : JS.number) :
  (JS.Math_max 0 x <? 0)%float = false.
Proof.
  unfold JS.Math_max. change (is_nan 0) with false. cbn [orb].
  destruct (is_nan x); [reflexivity|].
  destruct (0 <? x)%float eqn:H0x.
  - rewrite ltb_spec in *. rewrite Prim2SF_0 in *.
    destruct (Prim2SF x) as [s|s| |s m e]; try destruct s; cbn in *; congruence.
  - destruct (x <? 0)%float; reflexivity.
Qed.

(** What the update and the clamp of one period do to the stocks. *)
Lemma period_stocks (M : MathLib) (params : Params) (finalTime time : Z)
    (rs : Streams) (st : Stocks) :
  let c := period_body M params finalTime time rs st in
  p_unclamped c
  = {| s_motivation :=
         (s_motivation st + p_motivationIncrease c - p_motivationDecrease c)%float;
       s_strain := (s_strain st + p_strainIncrease c - p_strainDecrease c)%float;
       s_cumulativeEffort := (s_cumulativeEffort st + p_effort c)%float;
       s_progress := (s_progress st + p_advance c - p_setback c)%float |}
  /\ p_stocks c
     = {| s_motivation := JS.Math_max 0 (s_motivation (p_unclamped c));
          s_strain := JS.Math_max 0 (s_strain (p_unclamped c));
          s_cumulativeEffort := s_cumulativeEffort (p_unclamped c);
          s_progress := JS.Math_max 0 (s_progress (p_unclamped c)) |}.
Proof.
  unfold period_body. destruct_draws. split; reflexivity.
Qed.

(** C2, as stated, fails: the cumulative effort is not clamped.  With
    [var8 = -1] and seed 42 it is negative after the second period. *)
Lemma clamp_counterexample :
  (s_cumulativeEffort (stocks (loop RefMath.lib negative_var8_params 500 2 0 (init 42)))
   <? 0)%float = true.
Proof. vm_compute. reflexivity. Qed.

(** C2 (amended): in every period the update is
    [motivation += motivationIncrease - motivationDecrease],
    [strain += strainIncrease - strainDecrease],
    [cumulativeEffort += effort], [progress += advance - setback]; then
    motivation, strain and progress are passed through [Math.max(0, .)],
    and are never negative, in every state the loop reaches.  The
    cumulative effort is not clamped. *)
Theorem stocks_clamped (M : MathLib) (params : Params) (finalTime : Z) :
  (forall time rs st,
     let c := period_body M params finalTime time rs st in
     p_unclamped c
     = {| s_motivation :=
            (s_motivation st + p_motivationIncrease c - p_motivationDecrease c)%float;
          s_strain := (s_strain st + p_strainIncrease c - p_strainDecrease c)%float;
          s_cumulativeEffort := (s_cumulativeEffort st + p_effort c)%float;
          s_progress := (s_progress st + p_advance c - p_setback c)%float |}
     /\ p_stocks c
        = {| s_motivation := JS.Math_max 0 (s_motivation (p_unclamped c));
             s_strain := JS.Math_max 0 (s_strain (p_unclamped c));
             s_cumulativeEffort := s_cumulativeEffort (p_unclamped c);
             s_progress := JS.Math_max 0 (s_progress (p_unclamped c)) |})
  /\ (forall fresh seed n,
        let st := stocks (loop M params finalTime n 0 (init (baseSeed fresh seed))) in
        (s_motivation st <? 0)%float = false
        /\ (s_strain st <? 0)%float = false
        /\ (s_progress st <? 0)%float = false).
Proof.
  split; [intros; apply period_stocks|].
  intros fresh seed n.
  apply (loop_invariant M params finalTime
           (fun _ st => (s_motivation st <? 0)%float = false
                        /\ (s_strain st <? 0)%float = false
                        /\ (s_progress st <? 0)%float = false)
           (fun _ => True)); [| now repeat split | constructor].
  intros time rs st _. split; [|exact I].
  destruct (period_stocks M params finalTime time rs st) as [_ ->].
  cbn [s_motivation s_strain s_progress].
  repeat split; apply Math_max_0_not_negative.
Qed.

(** ** NaN in the engine *)

Lemma loop_add (M : MathLib) (params : Params) (finalTime : Z) (a b : nat) :
  forall time s,
    loop M params finalTime (a + b) time s
    = loop M params finalTime b (time + Z.of_nat a) (loop M params finalTime a time s).
Proof.
  induction a as [|a IH]; intros time s.
  - cbn [Nat.add loop]. f_equal. cbn. lia.
  - cbn [Nat.add loop]. rewrite IH. f_equal. lia.
Qed.

(** Once the progress is NaN it stays NaN. *)
Lemma progress_stays_nan (M : MathLib) (params : Params) (finalTime time : Z)
    (rs : Streams) (st : Stocks) :
  is_nan (s_progress st) = true ->
  is_nan (s_progress (p_stocks (period_body M params finalTime time rs st))) = true.
Proof.
  intros H. unfold period_body. destruct_draws. cbn [p_stocks s_progress].
  apply Math_max_nan, sub_nan_l, add_nan_l, H.
Qed.

(** The advance generator takes two draws a period, whatever the built-ins
    return. *)
Lemma advance_generator_period (M : MathLib) (params : Params) (finalTime time : Z)
    (rs : Streams) (st : Stocks) :
  rng0_advance (p_streams (period_body M params finalTime time rs st))
  = snd (SeededRandom.next (snd (SeededRandom.next (rng0_advance rs)))).
Proof.
  unfold period_body, SeededRandom.nextTruncatedNormal, SeededRandom.nextNormal.
  destruct (SeededRandom.next (rng0_advance rs)) as [u1 g1]. cbn [snd].
  destruct (SeededRandom.next g1) as [u2 g2].
  destruct_draws. reflexivity.
Qed.

Lemma advance_generator_loop (M : MathLib) (params : Params) (finalTime : Z) (n : nat) :
  forall time s,
    rng0_advance (streams (loop M params finalTime n time s))
    = Nat.iter n (fun g => snd (SeededRandom.next (snd (SeededRandom.next g))))
        (rng0_advance (streams s)).
Proof.
  induction n as [|n IH]; intros time s; [reflexivity|].
  cbn [loop]. rewrite IH, Nat.iter_succ_r. unfold step; cbn [streams].
  now rewrite advance_generator_period.
Qed.

(** A normal draw with standard deviation 0 whose first uniform draw is
    exactly 0 is NaN on an engine with [log 0 = -Infinity]. *)
Lemma nan_draw (M : MathLib) (g : SeededRandom.t) :
  Math_log M 0%float = neg_infinity -> fst (SeededRandom.next g) = 0%float ->
  is_nan (fst (SeededRandom.nextTruncatedNormal M 0 0 0 0 g)) = true.
Proof.
  intros Hlog Hu. unfold SeededRandom.nextTruncatedNormal, SeededRandom.nextNormal.
  destruct (SeededRandom.next g) as [u1 g1]. cbn [fst] in Hu. subst u1.
  destruct (SeededRandom.next g1) as [u2 g2]. cbn [fst]. rewrite Hlog.
  change (sqrt (-2 * neg_infinity)) with infinity.
  apply Math_max_nan, Math_min_nan, add_nan_r, infinity_mul_zero.
Qed.

(** With ambition 0 and a skill that is not 0, such a draw of the advance
    generator makes the progress NaN. *)
Lemma progress_becomes_nan (M : MathLib) (finalTime time : Z) (rs : Streams) (st : Stocks) :
  Math_log M 0%float = neg_infinity ->
  fst (SeededRandom.next (rng0_advance rs)) = 0%float ->
  is_nan (s_progress (p_stocks (period_body M zero_ambition_params finalTime time rs st)))
  = true.
Proof.
  intros Hlog Hu. pose proof (nan_draw M (rng0_advance rs) Hlog Hu) as Hnan.
  unfold period_body.
  change (ambition zero_ambition_params) with 0%float.
  change (JS.strict_eq 0 0) with true.
  change (JS.strict_eq (skill zero_ambition_params) 0) with false.
  destruct (SeededRandom.nextTruncatedNormal M 0 0 0 0 (rng0_advance rs)) as [a g0].
  cbn [fst] in Hnan. destruct_draws. cbn [p_stocks s_progress].
  apply Math_max_nan, sub_nan_l, add_nan_r, mul_nan_r, Hnan.
Qed.

(** C3 fails on the code at ambition 0 and seed 420441, on every engine
    whose [Math.log(0)] is [-Infinity] (as ECMAScript requires): the
    thirteenth draw of the advance generator is exactly 0, its logarithm is
    [-Infinity], and the normal draw of period 6, [0 + z * 0] with an
    infinite [z], is NaN; the clamps keep a NaN, so the progress is NaN
    from period 6 on and the point of period 10 records a performance that
    is NaN, hence not [>= 0]. *)
Theorem nan_performance (M : MathLib) (fresh : Z) :
  Math_log M 0%float = neg_infinity ->
  exists pt,
    nth_error (runSimulation M fresh zero_ambition_params 500 (Some 420441)) 2 = Some pt
    /\ period pt = 10
    /\ is_nan (performance pt) = true
    /\ (0 <=? performance pt)%float = false.
Proof.
  intros Hlog. unfold runSimulation, final_state.
  change (baseSeed fresh (Some 420441)) with 420441.
  change (Z.to_nat (500 + 1)) with (6 + (1 + (3 + (1 + 490))))%nat.
  set (lp := loop M zero_ambition_params 500).
  set (s6 := lp 6%nat 0 (init 420441)).
  set (s7 := lp 1%nat 6 s6).
  set (s10 := lp 3%nat 7 s7).
  set (s11 := lp 1%nat 10 s10).
  assert (E : lp (6 + (1 + (3 + (1 + 490))))%nat 0 (init 420441) = lp 490%nat 11 s11).
  { unfold lp. rewrite !loop_add. reflexivity. }
  rewrite E. clear E.
  (* the progress is NaN after period 6 *)
  assert (H7 : is_nan (s_progress (stocks s7)) = true).
  { unfold s7, lp. cbn [loop]. unfold step; cbn [stocks].
    apply progress_becomes_nan; [exact Hlog|].
    unfold s6, lp. rewrite advance_generator_loop. vm_compute. reflexivity. }
  (* and still after period 9 *)
  assert (H10 : is_nan (s_progress (stocks s10)) = true).
  { unfold s10, lp.
    apply (loop_invariant M zero_ambition_params 500
             (fun _ st => is_nan (s_progress st) = true) (fun _ => True));
      [|exact H7|].
    - intros time rs st Hst. split; [now apply progress_stays_nan|exact I].
    - clear. induction (trajectory s7); constructor; auto. }
  (* two points are on the trajectory before period 10 *)
  assert (L10 : length (trajectory s10) = 2%nat).
  { rewrite <- (length_map period). unfold s10, s7, s6, lp.
    rewrite !loop_periods. reflexivity. }
  destruct (loop_prefix M zero_ambition_params 500 490 11 s11) as [l Hl].
  fold lp in Hl. rewrite Hl.
  exists (record_point 10 (period_body M zero_ambition_params 500 10
                             (streams s10) (stocks s10))).
  split.
  - unfold s11, lp. cbn [loop]. unfold step; cbn [trajectory].
    change (Z.rem 10 5 =? 0) with true. cbv iota.
    rewrite <- app_assoc, nth_error_app2 by lia. rewrite L10. reflexivity.
  - split; [reflexivity|].
    assert (Hn : is_nan (performance
                           (record_point 10 (period_body M zero_ambition_params 500 10
                                               (streams s10) (stocks s10)))) = true)
      by (cbn [record_point performance]; apply toFixed3_nan, progress_stays_nan, H10).
    split; [exact Hn|].
    rewrite leb_spec. apply is_nan_spec in Hn. rewrite Hn. reflexivity.
Qed.

Lemma nan_performance_witness :
  Math_log RefMath.lib 0%float = neg_infinity
  /\ exists pt,
       nth_error (runSimulation RefMath.lib 0 zero_ambition_params 500 (Some 420441)) 2
       = Some pt
       /\ period pt = 10
       /\ is_nan (performance pt) = true
       /\ (0 <=? performance pt)%float = false.
Proof.
  split; [reflexivity|]. apply (nan_performance RefMath.lib 0). reflexivity.
Defined.

(** ** The first recorded point *)

(** The point of period 0 is the first of the trajectory, for a horizon
    that is not negative. *)
Lemma first_point (M : MathLib) (fresh : Z) (params : Params) (finalTime : Z)
    (seed : option Z) :
  0 <= finalTime ->
  exists rest,
    runSimulation M fresh params finalTime seed
    = record_point 0 (period_body M params finalTime 0
                        (streams (init (baseSeed fresh seed)))
                        (stocks (init (baseSeed fresh seed))))
      :: rest.
Proof.
  intros H. unfold runSimulation, final_state.
  destruct (Z.to_nat (finalTime + 1)) as [|n] eqn:E; [lia|].
  cbn [loop].
  destruct (loop_prefix M params finalTime n (0 + 1)
              (step M params finalTime 0 (init (baseSeed fresh seed)))) as [l Hl].
  rewrite Hl. exists l. reflexivity.
Qed.

(** C4, as stated, fails: with seed 42 and the fixture's parameters the
    point of period 0 records the motivation 0.5, not 0. *)
Lemma known_point_counterexample :
  exists pt rest,
    runSimulation RefMath.lib 0 fixture_params 500 (Some 42) = pt :: rest
    /\ period pt = 0
    /\ motivation pt = 0.5%float
    /\ (motivation pt =? 0)%float = false.
Proof.
  destruct (first_point RefMath.lib 0 fixture_params 500 (Some 42)) as [rest ->]; [lia|].
  do 2 eexists. split; [reflexivity|]. repeat split.
Qed.

(** C4 (amended): the point of period 0 records the stocks after the first
    update.  With seed 42 and the fixture's parameters, on an engine whose
    challenge and hindrance draws of period 0 are both 0 (the normal draws
    are negative and the clamp raises them to 0), it records the strain 0
    and the motivation 0.5: the motivation increase of the first period is
    [max(0, 0.5) * 1 * 1]. *)
Theorem known_point (M : MathLib) (fresh : Z) :
  fst (SeededRandom.nextTruncatedNormal M 0 0.5 0 0.5 (SeededRandom.constructor 2042))
  = 0%float ->
  fst (SeededRandom.nextTruncatedNormal M 0 0.5 0 0.5 (SeededRandom.constructor 3042))
  = 0%float ->
  exists pt rest,
    runSimulation M fresh fixture_params 500 (Some 42) = pt :: rest
    /\ period pt = 0
    /\ motivation pt = 0.5%float
    /\ strain pt = 0%float.
Proof.
  intros Hc Hh.
  destruct (first_point M fresh fixture_params 500 (Some 42)) as [rest ->]; [lia|].
  do 2 eexists. split; [reflexivity|]. split; [reflexivity|].
  change (baseSeed fresh (Some 42)) with 42.
  unfold init; cbn [streams stocks].
  change (42 + 1000) with 1042. change (42 + 1500) with 1542.
  change (42 + 2000) with 2042. change (42 + 3000) with 3042.
  unfold period_body.
  change (JS.strict_eq (ambition fixture_params) 0) with false.
  cbn [rng2_challenge rng3_hindrance rng0_advance rng1_setback rng1_setbackPoisson].
  change (ambition fixture_params) with 0.5%float.
  destruct (SeededRandom.nextTruncatedNormal M 0 0.5 0 0.5 (SeededRandom.constructor 2042))
    as [c g2].
  destruct (SeededRandom.nextTruncatedNormal M 0 0.5 0 0.5 (SeededRandom.constructor 3042))
    as [h g3].
  cbn [fst] in Hc, Hh. subst c h. destruct_draws.
  cbn [record_point motivation strain p_stocks s_motivation s_strain stocks].
  split; vm_compute; reflexivity.
Qed.

Lemma known_point_witness :
  fst (SeededRandom.nextTruncatedNormal RefMath.lib 0 0.5 0 0.5
         (SeededRandom.constructor 2042)) = 0%float
  /\ fst (SeededRandom.nextTruncatedNormal RefMath.lib 0 0.5 0 0.5
            (SeededRandom.constructor 3042)) = 0%float
  /\ exists pt rest,
       runSimulation RefMath.lib 0 fixture_params 500 (Some 42) = pt :: rest
       /\ period pt = 0
       /\ motivation pt = 0.5%float
       /\ strain pt = 0%float.
Proof.
  split; [vm_compute; reflexivity|]. split; [vm_compute; reflexivity|].
  apply (known_point RefMath.lib 0); vm_compute; reflexivity.
Defined.

(** ** The generator *)




(** ** Effort *)




(** * The order of binary64 values

    Comparisons, [Math.max] and [Math.min] on numbers of either sign, by
    way of their ranks. *)

Lemma finite_ord (m : positive) (e : Z) :
  bounded prec emax m e = true -> 0 < Zpos m * 2 ^ (e + 1074) < 2 ^ 2100.
Proof.
  intros H. destruct (bounded_facts m e H) as ([Hmin Hmax] & Hlt & _).
  pose proof (pow2_pos (e + 1074) ltac:(lia)) as HP.
  split; [nia|].
  assert (2 ^ (e + 1074) <= 2 ^ 2045) by (apply Z.pow_le_mono_r; lia).
  change (2 ^ 2100) with (2 ^ 53 * 2 ^ 2045 * 4). nia.
Qed.

Lemma compare_finite_pos (m1 : positive) (e1 : Z) (m2 : positive) (e2 : Z) :
  bounded prec emax m1 e1 = true -> bounded prec emax m2 e2 = true ->
  (Zpos m1 * 2 ^ (e1 + 1074) ?= Zpos m2 * 2 ^ (e2 + 1074))
  = match e1 ?= e2 with
    | Eq => Pos.compare_cont Eq m1 m2
    | Lt => Lt
    | Gt => Gt
    end.
Proof.
  intros H1 H2. pose proof (SFcompare_finite m1 e1 m2 e2 H1 H2) as H.
  assert (inj : forall a b : comparison, Some a = Some b -> a = b) by (intros; congruence).
  symmetry. apply inj. exact H.
Qed.

Lemma SFcompare_ord (x y : spec_float) :
  valid_binary x = true -> valid_binary y = true ->
  x <> S754_nan -> y <> S754_nan ->
  SFcompare x y = Some (ord x ?= ord y).
Proof.
  intros Vx Vy Nx Ny.
  destruct x as [sx|sx| |sx mx ex]; try congruence;
    destruct y as [sy|sy| |sy my ey]; try congruence; cbn [valid_binary] in *.
  all: try (pose proof (finite_ord mx ex Vx) as Hx).
  all: try (pose proof (finite_ord my ey Vy) as Hy).
  all: try destruct sx; try destruct sy; unfold SFcompare, ord, SF2Z, cond_Zopp; f_equal;
    try reflexivity.
  all: try (symmetry; first [apply Z.compare_lt_iff; lia | apply Z.compare_gt_iff; lia]).
  - rewrite Z.compare_opp, (Z.compare_antisym _ (Zpos my * _)),
      (compare_finite_pos mx ex my ey Vx Vy).
    destruct (ex ?= ey); reflexivity.
  - symmetry. now apply compare_finite_pos.
Qed.

Lemma is_nan_false (x : float) : is_nan x = false <-> Prim2SF x <> S754_nan.
Proof.
  pose proof (is_nan_spec x) as H. destruct (is_nan x); split; intros; try congruence.
  - exfalso. apply H0, H. reflexivity.
  - intros E. apply H in E. discriminate.
Qed.

Lemma compare_ord (x y : float) :
  is_nan x = false -> is_nan y = false ->
  SFcompare (Prim2SF x) (Prim2SF y) = Some (ordF x ?= ordF y).
Proof.
  intros Hx Hy. apply SFcompare_ord; auto using Prim2SF_valid; now apply is_nan_false.
Qed.

Lemma ltb_ord (x y : float) :
  is_nan x = false -> is_nan y = false -> (x <? y)%float = (ordF x <? ordF y).
Proof.
  intros Hx Hy. rewrite ltb_spec. unfold SFltb. rewrite (compare_ord x y Hx Hy).
  unfold Z.ltb. destruct (ordF x ?= ordF y); reflexivity.
Qed.

Lemma leb_ord (x y : float) :
  is_nan x = false -> is_nan y = false -> (x <=? y)%float = (ordF x <=? ordF y).
Proof.
  intros Hx Hy. rewrite leb_spec. unfold SFleb. rewrite (compare_ord x y Hx Hy).
  unfold Z.leb. destruct (ordF x ?= ordF y); reflexivity.
Qed.

Lemma eqb_ord (x y : float) :
  is_nan x = false -> is_nan y = false -> (x =? y)%float = (ordF x =? ordF y).
Proof.
  intros Hx Hy. rewrite eqb_spec. unfold SFeqb. rewrite (compare_ord x y Hx Hy).
  destruct (Z.compare_spec (ordF x) (ordF y)) as [E|L|L]; symmetry;
    [apply Z.eqb_eq; exact E|apply Z.eqb_neq; lia|apply Z.eqb_neq; lia].
Qed.

Lemma compare_nan (x y : float) :
  is_nan x = true \/ is_nan y = true -> SFcompare (Prim2SF x) (Prim2SF y) = None.
Proof.
  intros [H|H]; apply is_nan_spec in H; rewrite H; [reflexivity|].
  now destruct (Prim2SF x).
Qed.

Lemma ltb_nan (x y : float) :
  is_nan x = true \/ is_nan y = true -> (x <? y)%float = false.
Proof. intros H. rewrite ltb_spec. unfold SFltb. now rewrite compare_nan. Qed.

Lemma leb_nan (x y : float) :
  is_nan x = true \/ is_nan y = true -> (x <=? y)%float = false.
Proof. intros H. rewrite leb_spec. unfold SFleb. now rewrite compare_nan. Qed.

Lemma eqb_nan (x y : float) :
  is_nan x = true \/ is_nan y = true -> (x =? y)%float = false.
Proof. intros H. rewrite eqb_spec. unfold SFeqb. now rewrite compare_nan. Qed.

(** A comparison that holds has operands that are numbers. *)
Lemma ltb_true (x y : float) :
  (x <? y)%float = true -> is_nan x = false /\ is_nan y = false /\ ordF x < ordF y.
Proof.
  intros H. destruct (is_nan x) eqn:Hx; [rewrite ltb_nan in H by auto; discriminate|].
  destruct (is_nan y) eqn:Hy; [rewrite ltb_nan in H by auto; discriminate|].
  rewrite ltb_ord in H by assumption. apply Z.ltb_lt in H. auto.
Qed.

Lemma leb_true (x y : float) :
  (x <=? y)%float = true -> is_nan x = false /\ is_nan y = false /\ ordF x <= ordF y.
Proof.
  intros H. destruct (is_nan x) eqn:Hx; [rewrite leb_nan in H by auto; discriminate|].
  destruct (is_nan y) eqn:Hy; [rewrite leb_nan in H by auto; discriminate|].
  rewrite leb_ord in H by assumption. apply Z.leb_le in H. auto.
Qed.

(** [Math.max] and [Math.min] of two numbers are the maximum and the
    minimum of their values. *)
Lemma Math_max_ord (a b : float) :
  is_nan a = false -> is_nan b = false ->
  is_nan (JS.Math_max a b) = false
  /\ ordF (JS.Math_max a b) = Z.max (ordF a) (ordF b).
Proof.
  intros Ha Hb. unfold JS.Math_max. rewrite Ha, Hb. cbn [orb].
  rewrite (ltb_ord a b Ha Hb), (ltb_ord b a Hb Ha).
  destruct (Z.ltb_spec (ordF a) (ordF b)); [split; [assumption|lia]|].
  destruct (Z.ltb_spec (ordF b) (ordF a)); [split; [assumption|lia]|].
  destruct (get_sign a); split; try assumption; lia.
Qed.

Lemma Math_min_ord (a b : float) :
  is_nan a = false -> is_nan b = false ->
  is_nan (JS.Math_min a b) = false
  /\ ordF (JS.Math_min a b) = Z.min (ordF a) (ordF b).
Proof.
  intros Ha Hb. unfold JS.Math_min. rewrite Ha, Hb. cbn [orb].
  rewrite (ltb_ord a b Ha Hb), (ltb_ord b a Hb Ha).
  destruct (Z.ltb_spec (ordF a) (ordF b)); [split; [assumption|lia]|].
  destruct (Z.ltb_spec (ordF b) (ordF a)); [split; [assumption|lia]|].
  destruct (get_sign a); split; try assumption; lia.
Qed.

Lemma Math_max_is_nan (a b : float) :
  is_nan (JS.Math_max a b) = is_nan a || is_nan b.
Proof.
  destruct (is_nan a) eqn:Ha; [unfold JS.Math_max; rewrite Ha; reflexivity|].
  destruct (is_nan b) eqn:Hb; [unfold JS.Math_max; rewrite Ha, Hb; reflexivity|].
  now destruct (Math_max_ord a b Ha Hb).
Qed.

Lemma Math_min_is_nan (a b : float) :
  is_nan (JS.Math_min a b) = is_nan a || is_nan b.
Proof.
  destruct (is_nan a) eqn:Ha; [unfold JS.Math_min; rewrite Ha; reflexivity|].
  destruct (is_nan b) eqn:Hb; [unfold JS.Math_min; rewrite Ha, Hb; reflexivity|].
  now destruct (Math_min_ord a b Ha Hb).
Qed.

(** [Math.max(lo, Math.min(hi, v))] with [lo <= hi]: NaN exactly when [v]
    is, and otherwise between the bounds. *)
Lemma clamp_range (lo hi v : float) :
  (lo <=? hi)%float = true ->
  let r := JS.Math_max lo (JS.Math_min hi v) in
  is_nan r = is_nan v
  /\ (lo <=? r)%float = negb (is_nan v)
  /\ (r <=? hi)%float = negb (is_nan v).
Proof.
  intros H r. destruct (leb_true lo hi H) as (Hlo & Hhi & Hle).
  assert (Hn : is_nan r = is_nan v).
  { unfold r. now rewrite Math_max_is_nan, Math_min_is_nan, Hlo, Hhi. }
  split; [exact Hn|].
  destruct (is_nan v) eqn:Hv; cbn [negb].
  - split; apply leb_nan; auto.
  - destruct (Math_min_ord hi v Hhi Hv) as [Hm Em].
    destruct (Math_max_ord lo _ Hlo Hm) as [_ Er]. fold r in Er.
    rewrite !leb_ord by assumption. split; apply Z.leb_le; lia.
Qed.

(** ** Subtraction *)

(** The bounds of a subtraction that does not go below zero. *)
Lemma SFsub_bounds (x y : spec_float) :
  valid_binary x = true -> valid_binary y = true -> nnf x = true -> nnf y = true ->
  SF2Z y <= SF2Z x ->
  SFleb (S754_zero false) (SFsub prec emax x y) = true
  /\ SFleb (SFsub prec emax x y) x = true.
Proof.
  intros Vx Vy Nx Ny Hle.
  destruct x as [sx|sx| |sx mx ex]; try discriminate;
    destruct y as [sy|sy| |sy my ey]; try discriminate;
    try (destruct sx; try discriminate); try (destruct sy; try discriminate).
  all: cbn [SFsub].
  all: try (split; reflexivity).
  all: cbn [valid_binary] in Vx, Vy.
  all: try (destruct (bounded_facts my ey Vy) as ([Hminy _] & _ & _);
            pose proof (SF2Z_finite_pos my ey Hminy); cbn [SF2Z] in *; lia).
  all: try (split; [reflexivity|]; rewrite SFleb_nnf by (assumption || reflexivity);
            apply Z.leb_le; lia).
  destruct (bounded_facts mx ex Vx) as ([Hminx _] & _ & _).
  destruct (bounded_facts my ey Vy) as ([Hminy _] & _ & _).
  set (ez := Z.min ex ey).
  destruct (shl_align_spec mx ex ez) as [_ Hax]. destruct (shl_align_spec my ey ez) as [_ Hay].
  set (ax := fst (shl_align mx ex ez)) in *. set (ay := fst (shl_align my ey ez)) in *.
  unfold cond_Zopp.
  replace (Z.min ex ez) with ez in Hax by lia. replace (Z.min ey ez) with ez in Hay by lia.
  assert (Hez : -1074 <= ez <= ex /\ ez <= ey) by (unfold ez; lia).
  pose proof (pow2_pos (ez + 1074) ltac:(lia)) as HP.
  assert (Hx : Zpos ax * 2 ^ (ez + 1074) = Zpos mx * 2 ^ (ex + 1074)).
  { rewrite Hax. replace (ex + 1074) with ((ex - ez) + (ez + 1074)) by lia.
    rewrite (Z.pow_add_r 2 (ex - ez) (ez + 1074)) by lia. ring. }
  assert (Hy : Zpos ay * 2 ^ (ez + 1074) = Zpos my * 2 ^ (ey + 1074)).
  { rewrite Hay. replace (ey + 1074) with ((ey - ez) + (ez + 1074)) by lia.
    rewrite (Z.pow_add_r 2 (ey - ez) (ez + 1074)) by lia. ring. }
  unfold SF2Z, cond_Zopp in Hle.
  assert (Hd : 0 <= Zpos ax - Zpos ay).
  { assert (Zpos ay <= Zpos ax); [|lia].
    apply (Z.mul_le_mono_pos_r _ _ (2 ^ (ez + 1074)) HP). rewrite Hx, Hy. exact Hle. }
  destruct (Zpos ax - Zpos ay) as [|p|p] eqn:Ed; [split; reflexivity| |lia].
  cbn [binary_normalize].
  destruct (binary_round_bounds p ez (-1074) mx ex Vx) as (Hs & Hub & _); try lia.
  split; [exact Hs|]. apply Hub.
  replace (ez - -1074) with (ez + 1074) by lia.
  replace (ex - -1074) with (ex + 1074) by lia. rewrite <- Hx.
  apply Z.mul_le_mono_nonneg_r; lia.
Qed.

Lemma sub_bounds (x y : float) :
  nnfF x = true -> nnfF y = true -> F2Z y <= F2Z x ->
  (0 <=? x - y)%float = true /\ (x - y <=? x)%float = true.
Proof.
  intros Nx Ny H. rewrite !leb_spec, sub_spec. change (Prim2SF 0) with (S754_zero false).
  apply SFsub_bounds; auto using Prim2SF_valid.
Qed.

(** ** Zeros *)

(** [x === 0] holds of the two zeros. *)
Lemma strict_eq_0 (x : float) : JS.strict_eq x 0 = zeroF x.
Proof.
  unfold JS.strict_eq, zeroF. rewrite eqb_spec. change (Prim2SF 0) with (S754_zero false).
  destruct (Prim2SF x) as [[]|[]| |[] m e]; reflexivity.
Qed.

Lemma is_finite_spec (x : float) : is_finite x = finF x.
Proof.
  unfold is_finite, is_infinity, finF. rewrite eqb_spec, abs_spec.
  change (Prim2SF infinity) with (S754_infinity false).
  destruct (is_nan x) eqn:Hn.
  - apply is_nan_spec in Hn. now rewrite Hn.
  - apply is_nan_false in Hn.
    destruct (Prim2SF x) as [[]|[]| |[] m e]; try reflexivity; congruence.
Qed.

Lemma nnf_finF (x : float) : nnfF x = true -> finF x = true.
Proof. unfold nnfF, finF. now destruct (Prim2SF x) as [s|s| |[] m e]. Qed.

Lemma zeroF_finF (x : float) : zeroF x = true -> finF x = true.
Proof. unfold zeroF, finF. now destruct (Prim2SF x). Qed.

Lemma zeroF_not_nan (x : float) : zeroF x = true -> is_nan x = false.
Proof.
  unfold zeroF. intros H. apply is_nan_false. now destruct (Prim2SF x).
Qed.

Lemma zeroF_ord (x : float) : zeroF x = true <-> is_nan x = false /\ ordF x = 0.
Proof.
  split.
  - intros H. split; [now apply zeroF_not_nan|]. unfold zeroF, ordF in *.
    now destruct (Prim2SF x).
  - intros [Hn H0]. apply is_nan_false in Hn. unfold zeroF, ordF in *.
    pose proof (Prim2SF_valid x) as V.
    destruct (Prim2SF x) as [s|[]| |s m e]; try reflexivity; try congruence;
      try discriminate H0.
    cbn [valid_binary] in V. pose proof (finite_ord m e V). unfold ord, SF2Z, cond_Zopp in H0.
    destruct s; lia.
Qed.

(** A float whose specification is [+0] is the literal [0]. *)
Lemma plus_zero (x : float) : Prim2SF x = S754_zero false -> x = 0%float.
Proof. intros H. rewrite <- (SF2Prim_Prim2SF x), H. reflexivity. Qed.

Lemma mul_zero_l (x y : float) : zeroF x = true -> finF y = true -> zeroF (x * y) = true.
Proof.
  unfold zeroF, finF. rewrite mul_spec.
  now destruct (Prim2SF x), (Prim2SF y).
Qed.

Lemma mul_zero_r (x y : float) : finF x = true -> zeroF y = true -> zeroF (x * y) = true.
Proof.
  unfold zeroF, finF. rewrite mul_spec.
  now destruct (Prim2SF x), (Prim2SF y).
Qed.

Lemma add_zero (x y : float) : zeroF x = true -> zeroF y = true -> zeroF (x + y) = true.
Proof.
  unfold zeroF. rewrite add_spec.
  now destruct (Prim2SF x) as [[]|?| |? ? ?], (Prim2SF y) as [[]|?| |? ? ?].
Qed.

Lemma sub_zero (x y : float) : zeroF x = true -> zeroF y = true -> zeroF (x - y) = true.
Proof.
  unfold zeroF. rewrite sub_spec.
  now destruct (Prim2SF x) as [[]|?| |? ? ?], (Prim2SF y) as [[]|?| |? ? ?].
Qed.

(** [0 - z] is [+0] for both zeros [z]. *)
Lemma zero_sub_zero (z : float) : zeroF z = true -> (0 - z)%float = 0%float.
Proof.
  unfold zeroF. intros H. apply plus_zero. rewrite sub_spec.
  change (Prim2SF 0) with (S754_zero false).
  now destruct (Prim2SF z) as [[]|?| |? ? ?].
Qed.

Lemma Math_max_0_zero (x : float) : zeroF x = true -> JS.Math_max 0 x = 0%float.
Proof.
  intros H. apply zeroF_ord in H as [Hn H0]. unfold JS.Math_max.
  rewrite Hn. change (is_nan 0) with false. cbn [orb].
  rewrite (ltb_ord 0 x), (ltb_ord x 0) by (assumption || reflexivity).
  rewrite H0. reflexivity.
Qed.

Lemma Math_min_zero (a b : float) :
  zeroF a = true -> zeroF b = true -> zeroF (JS.Math_min a b) = true.
Proof.
  intros Ha Hb. apply zeroF_ord in Ha as [Na Ha], Hb as [Nb Hb].
  destruct (Math_min_ord a b Na Nb) as [Nr Er]. apply zeroF_ord. split; [exact Nr|lia].
Qed.

(** [Math.min(0, x)] is a zero when [x] is a number that is not
    negative. *)
Lemma Math_min_0_nonneg (x : float) :
  is_nan x = false -> 0 <= ordF x -> zeroF (JS.Math_min 0 x) = true.
Proof.
  intros Nx Hx. destruct (Math_min_ord 0 x eq_refl Nx) as [Nr Er].
  apply zeroF_ord. split; [exact Nr|]. rewrite Er. change (ordF 0) with 0. lia.
Qed.

Lemma toFixed3_zero (x : float) : zeroF x = true -> JS.toFixed3 x = 0%float.
Proof.
  intros H. pose proof (zeroF_not_nan x H) as Hn.
  assert (Ha : abs x = 0%float).
  { apply plus_zero. rewrite abs_spec. unfold zeroF in H. now destruct (Prim2SF x). }
  unfold JS.toFixed3. rewrite Hn, Ha.
  change (0x1p43 <=? 0)%float with false. cbv iota.
  apply zeroF_ord in H as [_ H0].
  rewrite (ltb_ord x 0 Hn eq_refl), H0. reflexivity.
Qed.

(** * Further properties of the engine *)

(** ** The samplers *)

(** X1: [nextTruncatedNormal(mean, std, min, max)] with [min <= max] returns
    NaN exactly when the normal draw [nextNormal(mean, std)] is NaN, and
    otherwise a number between [min] and [max], bounds included.  It takes
    two uniform draws from the generator, whatever the built-ins return. *)
Theorem truncated_normal_range (M : MathLib) (mean std min max : JS.number)
    (g : SeededRandom.t) :
  (min <=? max)%float = true ->
  let value := fst (SeededRandom.nextNormal M mean std g) in
  let r := fst (SeededRandom.nextTruncatedNormal M mean std min max g) in
  is_nan r = is_nan value
  /\ (min <=? r)%float = negb (is_nan value)
  /\ (r <=? max)%float = negb (is_nan value)
  /\ snd (SeededRandom.nextTruncatedNormal M mean std min max g)
     = snd (SeededRandom.next (snd (SeededRandom.next g))).
Proof.
  intros H. unfold SeededRandom.nextTruncatedNormal, SeededRandom.nextNormal.
  destruct (SeededRandom.next g) as [u1 g1]. cbn [snd].
  destruct (SeededRandom.next g1) as [u2 g2]. cbn [fst snd].
  match goal with
  | |- context [JS.Math_min max ?v] => destruct (clamp_range min max v H) as (Hn & Hlo & Hhi)
  end.
  repeat split; assumption.
Qed.

Lemma truncated_normal_range_witness :
  (0 <=? 0.5)%float = true
  /\ (0 <=? fst (SeededRandom.nextTruncatedNormal RefMath.lib 0 0.5 0 0.5
                   (SeededRandom.constructor 42)))%float = true.
Proof.
  split; [reflexivity|].
  destruct (truncated_normal_range RefMath.lib 0%float 0.5%float 0%float 0.5%float
              (SeededRandom.constructor 42)) as (_ & Hlo & _); [reflexivity|].
  rewrite Hlo. vm_compute. reflexivity.
Defined.

(** The uniform draw of a generator whose seed is an integer of
    [0, 2^53). *)
Lemma next_unit (g : SeededRandom.t) :
  0 <= SeededRandom.seed g < 2 ^ 53 ->
  (0 <=? fst (SeededRandom.next g))%float = true
  /\ (fst (SeededRandom.next g) <? 1)%float = true
  /\ 0 <= SeededRandom.seed (snd (SeededRandom.next g)) <= 2 ^ 31 - 2.
Proof.
  intros Hs. unfold SeededRandom.next. cbn [fst snd SeededRandom.seed].
  pose proof (next_seed_range (SeededRandom.seed g)) as Hr.
  pose proof (next_seed_not_max (SeededRandom.seed g) Hs) as Hm.
  assert (Hb : 0 <= SeededRandom.next_seed (SeededRandom.seed g) <= 2 ^ 31 - 2) by lia.
  destruct (draw_range _ Hb) as [H0 H1]. auto.
Qed.

(** X2: [nextPoisson(mean, 0, 1)] takes one uniform draw [u] from the
    generator and returns exactly 1 when [u < mean] and exactly 0 otherwise
    (so 0 for a NaN [mean]).  From a generator whose seed is an integer of
    [0, 2^53) it returns 1 whenever [mean >= 1] and 0 whenever
    [mean <= 0]: the draw lies in [0, 1). *)
Theorem poisson_draw (mean : JS.number) (g : SeededRandom.t) :
  let u := fst (SeededRandom.next g) in
  let r := fst (SeededRandom.nextPoisson mean 0 1 g) in
  r = (if (u <? mean)%float then 1 else 0)%float
  /\ snd (SeededRandom.nextPoisson mean 0 1 g) = snd (SeededRandom.next g)
  /\ (0 <= SeededRandom.seed g < 2 ^ 53 ->
      ((1 <=? mean)%float = true -> r = 1%float)
      /\ ((mean <=? 0)%float = true -> r = 0%float)).
Proof.
  cbv zeta. unfold SeededRandom.nextPoisson.
  pose proof (next_unit g) as Hu.
  destruct (SeededRandom.next g) as [u g1]. cbv zeta. cbn [fst snd] in *.
  assert (E : JS.Math_max 0 (JS.Math_min 1 (if (u <? mean)%float then 1 else 0))
              = (if (u <? mean)%float then 1 else 0)%float)
    by (destruct (u <? mean)%float; reflexivity).
  split; [exact E|]. split; [reflexivity|].
  intros Hs. destruct (Hu Hs) as (H0 & H1 & _).
  destruct (leb_true _ _ H0) as (_ & Nu & L0). destruct (ltb_true _ _ H1) as (_ & _ & L1).
  split; intros Hm; destruct (leb_true _ _ Hm) as (Na & Nb & L);
    (etransitivity; [exact E|]).
  - rewrite (ltb_ord u mean Nu Nb). destruct (Z.ltb_spec (ordF u) (ordF mean)); [reflexivity|lia].
  - rewrite (ltb_ord u mean Nu Na). destruct (Z.ltb_spec (ordF u) (ordF mean)); [lia|reflexivity].
Qed.

(** ** Draw accounting *)

Lemma truncated_normal_generator (M : MathLib) (mean std min max : JS.number)
    (g : SeededRandom.t) :
  snd (SeededRandom.nextTruncatedNormal M mean std min max g) = two_draws g.
Proof.
  unfold SeededRandom.nextTruncatedNormal, SeededRandom.nextNormal, two_draws, one_draw.
  destruct (SeededRandom.next g) as [u1 g1]. cbn [snd].
  destruct (SeededRandom.next g1) as [u2 g2]. reflexivity.
Qed.

Lemma period_streams (M : MathLib) (params : Params) (finalTime time : Z)
    (rs : Streams) (st : Stocks) :
  p_streams (period_body M params finalTime time rs st)
  = after_periods (JS.strict_eq (ambition params) 0) 1 rs.
Proof.
  unfold after_periods. cbv [Nat.iter nat_rect].
  rewrite <- !(truncated_normal_generator M 0%float (ambition params) 0%float (ambition params)).
  unfold period_body, one_draw, SeededRandom.nextPoisson.
  destruct (JS.strict_eq (ambition params) 0).
  - destruct (SeededRandom.next (rng1_setbackPoisson rs)) as [u g]. destruct_draws. reflexivity.
  - destruct (SeededRandom.next (rng1_setbackPoisson rs)) as [u g]. destruct_draws. reflexivity.
Qed.

Lemma loop_streams (M : MathLib) (params : Params) (finalTime : Z) (n : nat) :
  forall time s,
    streams (loop M params finalTime n time s)
    = after_periods (JS.strict_eq (ambition params) 0) n (streams s).
Proof.
  induction n as [|n IH]; intros time s.
  - cbn [loop]. unfold after_periods. cbv [Nat.iter nat_rect].
    destruct (streams s), (JS.strict_eq (ambition params) 0); reflexivity.
  - cbn [loop]. rewrite IH. unfold step; cbn [streams]. rewrite period_streams.
    unfold after_periods; cbn [rng0_advance rng1_setback rng1_setbackPoisson rng2_challenge
                                 rng3_hindrance].
    rewrite !Nat.iter_succ_r. cbv [Nat.iter nat_rect].
    destruct (JS.strict_eq (ambition params) 0); reflexivity.
Qed.

(** X3: the generators at the end of a run.  After the [n] periods of the
    loop ([n = finalTime + 1], or 0 for a negative horizon) the advance and
    the setback generators have made two draws a period, the Poisson
    generator one, and the challenge and hindrance generators two, unless
    [ambition === 0], when they are as constructed.  So the sequence of
    uniform draws of a run depends on the base seed, the horizon and whether
    the ambition is 0, and not on the stocks, the other parameters or the
    built-ins. *)
Theorem draw_accounting (M : MathLib) (fresh : Z) (params : Params) (finalTime : Z)
    (seed : option Z) :
  let n := Z.to_nat (finalTime + 1) in
  let base := baseSeed fresh seed in
  let unless_zero_ambition (g : SeededRandom.t) :=
    if JS.strict_eq (ambition params) 0 then g else Nat.iter n two_draws g in
  streams (final_state M fresh params finalTime seed)
  = {| rng0_advance := Nat.iter n two_draws (SeededRandom.constructor base);
       rng1_setback := Nat.iter n two_draws (SeededRandom.constructor (base + 1000));
       rng1_setbackPoisson := Nat.iter n one_draw (SeededRandom.constructor (base + 1500));
       rng2_challenge := unless_zero_ambition (SeededRandom.constructor (base + 2000));
       rng3_hindrance := unless_zero_ambition (SeededRandom.constructor (base + 3000)) |}.
Proof.
  cbv zeta. unfold final_state. rewrite loop_streams. reflexivity.
Qed.

(** ** A horizon of 0 *)

Lemma sub_nan_r (x y : float) : is_nan y = true -> is_nan (x - y) = true.
Proof.
  rewrite !is_nan_spec, sub_spec. intros ->. now destruct (Prim2SF x) as [[]|[]| |].
Qed.

(** X4: a horizon of 0.  The loop runs once, and the progress sensitivity
    of its period is [0 / 0]: for all parameters and every seed the run
    returns one point, of period 0, whose resources, motivation and
    well-being are NaN. *)
Theorem zero_horizon (M : MathLib) (fresh : Z) (params : Params) (seed : option Z) :
  exists pt,
    runSimulation M fresh params 0 seed = [pt]
    /\ period pt = 0
    /\ is_nan (resources pt) = true
    /\ is_nan (motivation pt) = true
    /\ is_nan (wellbeing pt) = true.
Proof.
  unfold runSimulation, final_state. change (Z.to_nat (0 + 1)) with 1%nat.
  cbn [loop]. unfold step. cbn [trajectory]. change (Z.rem 0 5 =? 0) with true. cbv iota.
  cbn [app]. eexists. split; [reflexivity|]. split; [reflexivity|].
  cbn [record_point resources motivation wellbeing].
  assert (Hps : is_nan (JS.of_Z 0 / JS.of_Z 0) = true) by reflexivity.
  unfold period_body. destruct_draws.
  cbn [p_resources p_stocks p_wellbeing s_motivation].
  set (res := (ambition params * (1 - JS.of_Z 0 / JS.of_Z 0) + _)%float).
  assert (Hres : is_nan res = true).
  { unfold res. apply add_nan_l, mul_nan_r, sub_nan_r, Hps. }
  split; [apply toFixed3_nan, Hres|].
  assert (Hm : forall a b c d e : float,
             is_nan (JS.Math_max 0 (a + JS.Math_max b res * c * d - e)) = true).
  { intros. apply Math_max_nan, sub_nan_l, add_nan_r, mul_nan_l, mul_nan_l, Math_max_nan, Hres. }
  split; [apply toFixed3_nan, Hm|].
  apply toFixed3_nan, sub_nan_l, mul_nan_r, Hm.
Qed.

(** ** The last point and the distribution runs *)

Lemma multiples_of_5 (n : nat) :
  filter (fun t => Z.rem t 5 =? 0) (map Z.of_nat (seq 0 n))
  = map (fun k => 5 * Z.of_nat k) (seq 0 ((n + 4) / 5)).
Proof.
  induction n as [|n IH]; [reflexivity|].
  rewrite seq_S, map_app, filter_app, IH. change (0 + n)%nat with n. cbn [map filter].
  assert (Hq : ((S n + 4) / 5)%nat
               = (if Z.rem (Z.of_nat n) 5 =? 0
                  then S ((n + 4) / 5)%nat else ((n + 4) / 5)%nat)
               /\ (Z.rem (Z.of_nat n) 5 = 0
                   -> Z.of_nat n = 5 * Z.of_nat ((n + 4) / 5)%nat)).
  { rewrite Z.rem_mod_nonneg by lia.
    split.
    - apply Nat2Z.inj.
      destruct (Z.eqb_spec (Z.of_nat n mod 5) 0) as [E|E];
        rewrite ?Nat2Z.inj_succ, !Nat2Z.inj_div, !Nat2Z.inj_add, ?Nat2Z.inj_succ;
        change (Z.of_nat 4) with 4; change (Z.of_nat 5) with 5;
        Z.to_euclidean_division_equations; lia.
    - intros E. rewrite Nat2Z.inj_div, Nat2Z.inj_add.
      change (Z.of_nat 4) with 4; change (Z.of_nat 5) with 5.
      Z.to_euclidean_division_equations; lia. }
  destruct Hq as [-> Hn].
  destruct (Z.rem (Z.of_nat n) 5 =? 0) eqn:E.
  - rewrite seq_S, map_app. cbn [Nat.add map]. rewrite <- Hn by (now apply Z.eqb_eq).
    reflexivity.
  - now rewrite app_nil_r.
Qed.

Lemma last_point (M : MathLib) (fresh : Z) (params : Params) (finalTime : Z)
    (seed : option Z) :
  0 <= finalTime ->
  exists final,
    last (map Some (runSimulation M fresh params finalTime seed)) None = Some final
    /\ period final = 5 * (finalTime / 5)
    /\ length (runSimulation M fresh params finalTime seed) = Z.to_nat (finalTime / 5 + 1).
Proof.
  intros H. pose proof (runSimulation_periods M fresh params finalTime seed) as Hp.
  rewrite multiples_of_5 in Hp.
  set (k := Z.to_nat (finalTime / 5)).
  assert (Hk : ((Z.to_nat (finalTime + 1) + 4) / 5)%nat = S k).
  { apply Nat2Z.inj. rewrite Nat2Z.inj_succ, Nat2Z.inj_div, Nat2Z.inj_add. unfold k.
    rewrite !Z2Nat.id by (try apply Z.div_pos; lia).
    change (Z.of_nat 4) with 4; change (Z.of_nat 5) with 5.
    Z.to_euclidean_division_equations; lia. }
  rewrite Hk in Hp.
  assert (Hlen : length (runSimulation M fresh params finalTime seed) = S k).
  { rewrite <- (length_map period), Hp, length_map, length_seq. reflexivity. }
  rewrite seq_S, map_app in Hp. cbn [Nat.add map] in Hp.
  destruct (exists_last (l := runSimulation M fresh params finalTime seed)) as (l & p0 & E);
    [intros E; rewrite E in Hlen; discriminate Hlen|].
  rewrite E in *. rewrite map_app in Hp. cbn [map] in Hp.
  apply app_inj_tail in Hp as [_ Hx].
  exists p0. rewrite map_app. cbn [map]. rewrite last_last.
  split; [reflexivity|]. split.
  - rewrite Hx. unfold k. rewrite Z2Nat.id by (apply Z.div_pos; lia). reflexivity.
  - rewrite Hlen. unfold k. rewrite Z2Nat.inj_add by (try apply Z.div_pos; lia).
    rewrite Nat.add_comm. reflexivity.
Qed.

Lemma runs_results (M : MathLib) (fresh : nat -> Z) (params : Params) (finalTime : Z) :
  0 <= finalTime ->
  forall n i acc,
    exists l,
      runs M fresh params finalTime n i acc = inr (acc ++ l)
      /\ length l = n
      /\ forall j, (j < n)%nat ->
           exists final,
             last (map Some (runSimulation M (fresh (i + j)%nat) params finalTime None)) None
             = Some final
             /\ period final = 5 * (finalTime / 5)
             /\ nth_error l j
                = Some {| run := Z.of_nat (i + j);
                          r_performance := performance final;
                          r_wellbeing := wellbeing final;
                          finalEffort := effort final |}.
Proof.
  intros H. induction n as [|n IH]; intros i acc.
  - exists []. cbn [runs]. rewrite app_nil_r. repeat split. intros j Hj. lia.
  - cbn [runs].
    destruct (last_point M (fresh i) params finalTime None H) as (final & Hl & Hp & _).
    rewrite Hl.
    match goal with
    | |- context [runs _ _ _ _ _ _ (acc ++ [?r])] =>
        destruct (IH (S i) (acc ++ [r])) as (l & El & Hlen & Hnth); exists (r :: l)
    end.
    split; [rewrite El, <- app_assoc; reflexivity|]. split; [cbn [length]; lia|].
    intros [|j] Hj.
    + exists final. rewrite Nat.add_0_r. repeat split; assumption.
    + destruct (Hnth j ltac:(lia)) as (f & H1 & H2 & H3).
      exists f. replace (i + S j)%nat with (S i + j)%nat by lia. repeat split; assumption.
Qed.

(** X5: [runMultipleSimulations] with a horizon that is not negative does
    not throw.  It returns [numRuns] summaries (none when [numRuns <= 0]);
    summary [i] has [run = i] and the performance, well-being and effort of
    the last point of run [i], a run without a seed, and that point is the
    one of period [5 * floor(finalTime / 5)]: for a horizon that is not a
    multiple of 5 the periods after it are not reported. *)
Theorem distribution_runs (M : MathLib) (fresh : nat -> Z) (params : Params)
    (numRuns finalTime : Z) :
  0 <= finalTime ->
  exists results,
    runMultipleSimulations M fresh params numRuns finalTime = inr results
    /\ length results = Z.to_nat numRuns
    /\ forall i, (i < Z.to_nat numRuns)%nat ->
         exists final,
           last (map Some (runSimulation M (fresh i) params finalTime None)) None
           = Some final
           /\ period final = 5 * (finalTime / 5)
           /\ nth_error results i
              = Some {| run := Z.of_nat i;
                        r_performance := performance final;
                        r_wellbeing := wellbeing final;
                        finalEffort := effort final |}.
Proof.
  intros H. unfold runMultipleSimulations.
  destruct (runs_results M fresh params finalTime H (Z.to_nat numRuns) 0%nat [])
    as (l & El & Hlen & Hnth).
  exists l. split; [exact El|]. split; [exact Hlen|]. exact Hnth.
Qed.

Lemma distribution_runs_witness :
  0 <= 500
  /\ exists results,
       runMultipleSimulations RefMath.lib (fun i => Z.of_nat i + 1) fixture_params 10 500
       = inr results
       /\ length results = 10%nat.
Proof.
  split; [lia|].
  destruct (distribution_runs RefMath.lib (fun i => Z.of_nat i + 1) fixture_params 10 500)
    as (results & E & L & _); [lia|].
  exists results. split; [exact E|exact L].
Defined.

(** ** No skill, no ambition *)

Lemma loop_invariant_from (M : MathLib) (params : Params) (finalTime : Z)
    (I : Streams -> Stocks -> Prop) (Q : TrajectoryPoint -> Prop) (n : nat) :
  forall time s,
    (forall t rs st, time <= t < time + Z.of_nat n -> I rs st ->
       I (p_streams (period_body M params finalTime t rs st))
         (p_stocks (period_body M params finalTime t rs st))
       /\ Q (record_point t (period_body M params finalTime t rs st))) ->
    I (streams s) (stocks s) -> Forall Q (trajectory s) ->
    I (streams (loop M params finalTime n time s))
      (stocks (loop M params finalTime n time s))
    /\ Forall Q (trajectory (loop M params finalTime n time s)).
Proof.
  induction n as [|n IH]; intros time s Hstep HI HQ; [now split|].
  cbn [loop]. destruct (Hstep time (streams s) (stocks s) ltac:(lia) HI) as [HI' HQ'].
  apply IH; unfold step; cbn [streams stocks trajectory].
  - intros t rs st Ht. apply Hstep. lia.
  - exact HI'.
  - destruct (Z.rem time 5 =? 0); [|exact HQ].
    apply Forall_app. split; [exact HQ|]. constructor; [exact HQ'|constructor].
Qed.

Lemma poisson_value (mean : JS.number) (g : SeededRandom.t) :
  fst (SeededRandom.nextPoisson mean 0 1 g)
  = (if (fst (SeededRandom.next g) <? mean)%float then 1 else 0)%float.
Proof.
  unfold SeededRandom.nextPoisson. destruct (SeededRandom.next g) as [u g1].
  cbv zeta. cbn [fst]. destruct (u <? mean)%float; reflexivity.
Qed.

Lemma Math_max_0_nonneg (x : float) :
  is_nan (JS.Math_max 0 x) = false -> 0 <= ordF (JS.Math_max 0 x).
Proof.
  intros H. rewrite Math_max_is_nan in H. cbn [orb] in H.
  change (is_nan 0) with false in H. cbn [orb] in H.
  destruct (Math_max_ord 0 x eq_refl H) as [_ ->]. change (ordF 0) with 0. lia.
Qed.

(** With progress 0, no advance and a setback draw that is not negative,
    the progress stays 0, or becomes NaN with the draw. *)
Lemma no_progress (sp sr : float) :
  sp = 1%float \/ sp = 0%float ->
  let r := JS.Math_max 0 sr in
  let progress := JS.Math_max 0 (0 + 0 - sp * JS.Math_min 0 r) in
  progress = 0%float \/ is_nan progress = true.
Proof.
  intros Hsp r progress.
  destruct (is_nan r) eqn:Hr.
  - right. unfold progress. apply Math_max_nan, sub_nan_r, mul_nan_r, Math_min_nan, Hr.
  - left. pose proof (Math_max_0_nonneg sr Hr) as H0. fold r in H0.
    pose proof (Math_min_0_nonneg r Hr H0) as Hz.
    assert (Hs : zeroF (sp * JS.Math_min 0 r) = true).
    { apply mul_zero_r; [|exact Hz]. now destruct Hsp as [-> | ->]. }
    unfold progress. change (0 + 0)%float with 0%float.
    rewrite (zero_sub_zero _ Hs). reflexivity.
Qed.

Lemma zero_skill_period (M : MathLib) (params : Params) (finalTime time : Z)
    (rs : Streams) (st : Stocks) :
  JS.strict_eq (skill params) 0 = true ->
  s_progress st = 0%float \/ is_nan (s_progress st) = true ->
  let c := period_body M params finalTime time rs st in
  p_advance c = 0%float
  /\ (s_progress (p_stocks c) = 0%float \/ is_nan (s_progress (p_stocks c)) = true).
Proof.
  intros Hsk Hp c.
  assert (Ha : p_advance c = 0%float).
  { unfold c, period_body. rewrite Hsk. destruct_draws. reflexivity. }
  split; [exact Ha|].
  destruct Hp as [Hp|Hp]; [|right; now apply progress_stays_nan].
  destruct (period_stocks M params finalTime time rs st) as [_ E]. fold c in E. rewrite E.
  cbn [s_progress]. destruct (period_stocks M params finalTime time rs st) as [E' _].
  fold c in E'. rewrite E'. cbn [s_progress]. rewrite Ha, Hp.
  assert (Hs : p_setback c
               = (fst (SeededRandom.nextPoisson (dynamism params) 0 1 (rng1_setbackPoisson rs))
                  * JS.Math_min (s_progress st)
                      (fst (SeededRandom.nextTruncatedNormal M 0 (ambition params) 0
                              (ambition params) (rng1_setback rs))))%float).
  { unfold c, period_body. destruct_draws. reflexivity. }
  rewrite Hs, Hp, poisson_value.
  unfold SeededRandom.nextTruncatedNormal, SeededRandom.nextNormal.
  destruct (SeededRandom.next (rng1_setback rs)) as [u1 g1].
  destruct (SeededRandom.next g1) as [u2 g2]. cbn [fst].
  apply no_progress.
  destruct (_ <? _)%float; auto.
Qed.

(** X6: when [skill === 0] the venture makes no progress: in every recorded
    point the advance is 0 and the performance is 0 or NaN (NaN from the
    period of a NaN setback draw on), for every seed, horizon and other
    parameter. *)
Theorem zero_skill (M : MathLib) (fresh : Z) (params : Params) (finalTime : Z)
    (seed : option Z) :
  JS.strict_eq (skill params) 0 = true ->
  Forall (fun pt => advance pt = 0%float
                    /\ (performance pt = 0%float \/ is_nan (performance pt) = true))
         (runSimulation M fresh params finalTime seed).
Proof.
  intros Hsk. unfold runSimulation, final_state.
  apply (loop_invariant M params finalTime
           (fun _ st => s_progress st = 0%float \/ is_nan (s_progress st) = true)
           (fun pt => advance pt = 0%float
                      /\ (performance pt = 0%float \/ is_nan (performance pt) = true)));
    [|left; reflexivity|constructor].
  intros time rs st Hp.
  destruct (zero_skill_period M params finalTime time rs st Hsk Hp) as [Ha Hp'].
  split; [exact Hp'|]. cbn [record_point advance performance]. rewrite Ha.
  split; [reflexivity|].
  destruct Hp' as [-> | Hn]; [left; reflexivity|right; now apply toFixed3_nan].
Qed.

Lemma zero_skill_witness :
  let params := {| ambition := 0.5%float; skill := 0%float; selfRegulation := 0.5%float;
                   dynamism := 0x1.999999999999ap-3%float; coefficients := None |} in
  JS.strict_eq (skill params) 0 = true
  /\ Forall (fun pt => advance pt = 0%float
                       /\ (performance pt = 0%float \/ is_nan (performance pt) = true))
            (runSimulation RefMath.lib 0 params 500 (Some 42)).
Proof.
  cbv zeta. split; [reflexivity|]. now apply zero_skill.
Defined.

(** [1 - x] is finite and not negative for [x] in [0, 1]. *)
Lemma one_minus (x : float) :
  (0 <=? x)%float = true -> (x <=? 1)%float = true ->
  nnfF x = true /\ nnfF (1 - x) = true.
Proof.
  intros H0 H1. pose proof (nnf_between x 1 H0 H1 nnfF_1) as Nx.
  split; [exact Nx|].
  rewrite (leb_nnf x 1 Nx nnfF_1) in H1. apply Z.leb_le in H1.
  destruct (sub_bounds 1 x nnfF_1 Nx H1) as [Hlo Hhi].
  exact (nnf_between _ 1 Hlo Hhi nnfF_1).
Qed.

(** The progress sensitivity [time / finalTime] of a period of the loop
    lies in [0, 1]. *)
Lemma sensitivity_range (time finalTime : Z) :
  0 <= time <= finalTime -> 0 < finalTime < 2 ^ 53 ->
  (0 <=? JS.of_Z time / JS.of_Z finalTime)%float = true
  /\ (JS.of_Z time / JS.of_Z finalTime <=? 1)%float = true.
Proof.
  intros Ht Hf.
  destruct (of_Z_exact time ltac:(lia)) as [Nt Et].
  destruct (of_Z_exact finalTime ltac:(lia)) as [Nf Ef].
  pose proof (pow2_pos 1074 ltac:(lia)) as HP.
  destruct (div_bounds (JS.of_Z time) (JS.of_Z finalTime) 1 Nt Nf) as (H0 & Hle & _);
    [rewrite Ef; nia|exact nnfF_1|].
  split; [exact H0|]. apply Hle. rewrite Et, Ef, F2Z_1. nia.
Qed.

Lemma zero_ambition_fields (M : MathLib) (params : Params) (finalTime time : Z)
    (rs : Streams) (st : Stocks) :
  JS.strict_eq (ambition params) 0 = true ->
  let c := period_body M params finalTime time rs st in
  let ps := (JS.of_Z time / JS.of_Z finalTime)%float in
  p_resources c
  = (ambition params * (1 - ps)
     + (if JS.strict_eq (s_cumulativeEffort st) 0 then 0
        else s_progress st / s_cumulativeEffort st) * ps)%float
  /\ p_motivationIncrease c
     = (JS.Math_max 0 (p_resources c) * 1 * or_one (var1 (coeffs params)))%float
  /\ p_motivationDecrease c
     = JS.Math_min (s_motivation st)
         ((1 - selfRegulation params) * 0 * or_one (var7 (coeffs params)))%float
  /\ p_strainIncrease c = 0%float
  /\ p_strainDecrease c
     = JS.Math_min (s_strain st) (p_resources c * 1 * or_one (var6 (coeffs params)))%float
  /\ p_effort c
     = (if JS.strict_eq (s_motivation st) 0 then 0
        else or_one (var8 (coeffs params))
             * (1 / (1 + Math_exp M (s_strain st - s_motivation st))))%float
  /\ p_wellbeing c
     = (or_one (var9 (coeffs params)) * s_motivation (p_stocks c)
        - or_one (var10 (coeffs params)) * s_strain (p_stocks c))%float.
Proof.
  intros H. unfold period_body. rewrite H. destruct_draws. cbn. repeat split.
Qed.

Lemma zero_ambition_inert_period (M : MathLib) (params : Params) (finalTime time : Z)
    (rs : Streams) (st : Stocks) :
  JS.strict_eq (ambition params) 0 = true ->
  0 <= time <= finalTime -> 0 < finalTime < 2 ^ 53 ->
  (0 <=? selfRegulation params)%float = true ->
  (selfRegulation params <=? 1)%float = true ->
  is_finite (or_one (var1 (coeffs params))) = true ->
  is_finite (or_one (var6 (coeffs params))) = true ->
  is_finite (or_one (var7 (coeffs params))) = true ->
  is_finite (or_one (var9 (coeffs params))) = true ->
  is_finite (or_one (var10 (coeffs params))) = true ->
  s_motivation st = 0%float -> s_strain st = 0%float -> s_cumulativeEffort st = 0%float ->
  let c := period_body M params finalTime time rs st in
  s_motivation (p_stocks c) = 0%float
  /\ s_strain (p_stocks c) = 0%float
  /\ s_cumulativeEffort (p_stocks c) = 0%float
  /\ p_effort c = 0%float
  /\ zeroF (p_resources c) = true
  /\ zeroF (p_wellbeing c) = true.
Proof.
  intros Ha Ht Hf Hs0 Hs1 F1 F6 F7 F9 F10 Em Es Ec c.
  rewrite is_finite_spec in F1, F6, F7, F9, F10.
  destruct (zero_ambition_fields M params finalTime time rs st Ha)
    as (Eres & Einc & Edec & Esi & Esd & Eeff & Ewb).
  destruct (period_stocks M params finalTime time rs st) as [Eun Est].
  fold c in Eres, Einc, Edec, Esi, Esd, Eeff, Ewb, Eun, Est.
  rewrite Em, Es, Ec in *.
  change (JS.strict_eq 0 0) with true in *. cbv iota in Eres, Eeff.
  destruct (sensitivity_range time finalTime Ht Hf) as [P0 P1].
  destruct (one_minus _ P0 P1) as [Nps Nps1].
  destruct (one_minus _ Hs0 Hs1) as [_ Nsr1].
  rewrite strict_eq_0 in Ha.
  (* the resources are a zero *)
  assert (Zres : zeroF (p_resources c) = true).
  { rewrite Eres. apply add_zero.
    - apply mul_zero_l; [exact Ha|now apply nnf_finF].
    - apply mul_zero_l; [reflexivity|now apply nnf_finF]. }
  assert (Zinc : zeroF (p_motivationIncrease c) = true).
  { rewrite Einc, (Math_max_0_zero _ Zres). change (0 * 1)%float with 0%float.
    now apply mul_zero_l. }
  assert (Zdec : zeroF (p_motivationDecrease c) = true).
  { rewrite Edec. apply Math_min_zero; [reflexivity|].
    apply mul_zero_l; [|exact F7]. apply mul_zero_r; [now apply nnf_finF|reflexivity]. }
  assert (Zsd : zeroF (p_strainDecrease c) = true).
  { rewrite Esd. apply Math_min_zero; [reflexivity|].
    apply mul_zero_l; [|exact F6]. apply mul_zero_l; [exact Zres|reflexivity]. }
  assert (Em' : s_motivation (p_stocks c) = 0%float).
  { rewrite Est, Eun. cbn [s_motivation]. apply Math_max_0_zero, sub_zero; [|exact Zdec].
    apply add_zero; [reflexivity|exact Zinc]. }
  assert (Es' : s_strain (p_stocks c) = 0%float).
  { rewrite Est, Eun. cbn [s_strain]. apply Math_max_0_zero, sub_zero; [|exact Zsd].
    rewrite Esi. reflexivity. }
  split; [exact Em'|]. split; [exact Es'|]. split.
  { rewrite Est, Eun. cbn [s_cumulativeEffort]. rewrite Eeff. reflexivity. }
  split; [exact Eeff|]. split; [exact Zres|].
  rewrite Ewb, Em', Es'. apply sub_zero; apply mul_zero_r; auto.
Qed.

(** X7: when [ambition === 0] the system stays at rest.  For a horizon
    in [1, 2^53), a self-regulation in [0, 1] and finite weights [var1],
    [var6], [var7], [var9], [var10], every recorded point has motivation,
    strain, effort, cumulative effort, resources and well-being exactly 0,
    for every seed and whatever the built-ins return.  (The performance is
    not covered: it can become NaN.) *)
Theorem zero_ambition_inert (M : MathLib) (fresh : Z) (params : Params) (finalTime : Z)
    (seed : option Z) :
  JS.strict_eq (ambition params) 0 = true ->
  0 < finalTime < 2 ^ 53 ->
  (0 <=? selfRegulation params)%float = true ->
  (selfRegulation params <=? 1)%float = true ->
  is_finite (or_one (var1 (coeffs params))) = true ->
  is_finite (or_one (var6 (coeffs params))) = true ->
  is_finite (or_one (var7 (coeffs params))) = true ->
  is_finite (or_one (var9 (coeffs params))) = true ->
  is_finite (or_one (var10 (coeffs params))) = true ->
  Forall (fun pt => motivation pt = 0%float /\ strain pt = 0%float
                    /\ effort pt = 0%float /\ cumulativeEffort pt = 0%float
                    /\ resources pt = 0%float /\ wellbeing pt = 0%float)
         (runSimulation M fresh params finalTime seed).
Proof.
  intros Ha Hf Hs0 Hs1 F1 F6 F7 F9 F10. unfold runSimulation, final_state.
  apply (loop_invariant_from M params finalTime
           (fun _ st => s_motivation st = 0%float /\ s_strain st = 0%float
                        /\ s_cumulativeEffort st = 0%float));
    [|repeat split|constructor].
  intros t rs st Ht (Em & Es & Ec).
  destruct (zero_ambition_inert_period M params finalTime t rs st Ha ltac:(lia) Hf
              Hs0 Hs1 F1 F6 F7 F9 F10 Em Es Ec) as (Em' & Es' & Ec' & Ee & Zr & Zw).
  split; [repeat split; assumption|].
  cbn [record_point motivation strain effort cumulativeEffort resources wellbeing].
  rewrite Em', Es', Ec', Ee, (toFixed3_zero _ Zr), (toFixed3_zero _ Zw).
  repeat split; reflexivity.
Qed.

Lemma zero_ambition_inert_witness :
  JS.strict_eq (ambition zero_ambition_params) 0 = true
  /\ 0 < 500 < 2 ^ 53
  /\ Forall (fun pt => motivation pt = 0%float /\ strain pt = 0%float
                       /\ effort pt = 0%float /\ cumulativeEffort pt = 0%float
                       /\ resources pt = 0%float /\ wellbeing pt = 0%float)
            (runSimulation RefMath.lib 0 zero_ambition_params 500 (Some 42)).
Proof.
  split; [reflexivity|]. split; [lia|].
  apply (zero_ambition_inert RefMath.lib 0 zero_ambition_params 500 (Some 42));
    solve [reflexivity | lia].
Defined.

(** ** Recorded values *)

(** Below [2^43] the integer that [toFixed(3)] prints is below [2^53]. *)
Lemma thousandths_bound (x : float) :
  is_nan x = false -> (0x1p43 <=? abs x)%float = false ->
  0 <= JS.thousandths (abs x) < 2 ^ 53.
Proof.
  intros Hn Hlt.
  assert (Ha : is_nan (abs x) = false).
  { apply is_nan_false. rewrite abs_spec. apply is_nan_false in Hn.
    destruct (Prim2SF x); cbn; congruence. }
  rewrite (leb_ord 0x1p43 (abs x) eq_refl Ha) in Hlt. apply Z.leb_gt in Hlt.
  assert (E43 : ordF 0x1p43 = 2 ^ 43 * 2 ^ 1074) by (vm_compute; reflexivity).
  rewrite E43 in Hlt. clear E43.
  unfold JS.thousandths. unfold ordF in Hlt.
  pose proof (Prim2SF_valid (abs x)) as V. rewrite abs_spec in *.
  destruct (Prim2SF x) as [s|s| |s m e]; cbn [SFabs] in *; try (split; [lia|reflexivity]).
  cbn [valid_binary] in V. destruct (bounded_facts m e V) as ([Hmin _] & _ & _).
  unfold ord, SF2Z, cond_Zopp in Hlt.
  change (2 ^ 53) with 9007199254740992. change (2 ^ 43) with 8796093022208 in Hlt.
  destruct (Z.leb_spec 0 e) as [He|He].
  - rewrite Z.shiftl_mul_pow2 by lia.
    rewrite (Z.pow_add_r 2 e 1074) in Hlt by lia.
    pose proof (pow2_pos e He) as Pe. pose proof (pow2_pos 1074 ltac:(lia)) as P.
    assert (Zpos m * 2 ^ e < 8796093022208) by nia. nia.
  - pose proof (pow2_pos (- e) ltac:(lia)) as Pk.
    pose proof (pow2_pos (e + 1074) ltac:(lia)) as Pe.
    assert (E : 2 ^ 1074 = 2 ^ (e + 1074) * 2 ^ (- e)).
    { rewrite <- Z.pow_add_r by lia. f_equal. lia. }
    rewrite E in Hlt.
    assert (Hm : Zpos m < 8796093022208 * 2 ^ (- e)) by nia.
    replace (- e + 1) with (1 + - e) by lia. rewrite (Z.pow_add_r 2 1 (- e)) by lia.
    change (2 ^ 1) with 2.
    split; [apply Z.div_pos; lia|]. apply Z.div_lt_upper_bound; lia.
Qed.

(** [toFixed(3)] does not make a number negative. *)
Lemma toFixed3_not_negative (x : float) :
  (x <? 0)%float = false -> (JS.toFixed3 x <? 0)%float = false.
Proof.
  intros H. unfold JS.toFixed3.
  destruct (is_nan x) eqn:Hn; [reflexivity|].
  destruct (0x1p43 <=? abs x)%float eqn:Hb; [exact H|]. rewrite H.
  destruct (of_Z_exact _ (thousandths_bound x Hn Hb)) as [Nn _].
  assert (N1000 : nnfF 1000 = true /\ 0 < F2Z 1000) by (split; reflexivity).
  destruct N1000 as [N1000 P1000].
  destruct (div_bounds _ 1000 1 Nn N1000 P1000 nnfF_1) as [H0 _].
  destruct (leb_true _ _ H0) as (_ & Nr & L).
  rewrite (ltb_ord _ 0%float Nr eq_refl). apply Z.ltb_ge. exact L.
Qed.

(** X8: no recorded motivation, strain or performance is negative, for all
    parameters, horizons and seeds and whatever the built-ins return: the
    stocks have passed [Math.max(0, .)], and [toFixed(3)] does not make a
    number negative.  (A recorded value can be NaN, which is not below
    0.) *)
Theorem recorded_not_negative (M : MathLib) (fresh : Z) (params : Params)
    (finalTime : Z) (seed : option Z) :
  Forall (fun pt => (motivation pt <? 0)%float = false
                    /\ (strain pt <? 0)%float = false
                    /\ (performance pt <? 0)%float = false)
         (runSimulation M fresh params finalTime seed).
Proof.
  unfold runSimulation, final_state.
  apply (loop_invariant M params finalTime (fun _ _ => True)); [|exact I|constructor].
  intros time rs st _. split; [exact I|].
  cbn [record_point motivation strain performance].
  destruct (period_stocks M params finalTime time rs st) as [_ ->].
  cbn [s_motivation s_strain s_progress].
  repeat split; apply toFixed3_not_negative, Math_max_0_not_negative.
Qed.

(** ** Doubling *)

(** The double of a double below the largest binade is a double. *)
Lemma double_repr (m : positive) (e : Z) :
  bounded prec emax m e = true -> e < 971 ->
  exists mb eb, bounded prec emax mb eb = true
                /\ Zpos mb * 2 ^ (eb + 1074) = 2 * (Zpos m * 2 ^ (e + 1074)).
Proof.
  intros Hb He. pose proof Hb as Hb'. unfold bounded, canonical_mantissa in Hb'.
  apply andb_true_iff in Hb' as [Hc _]. apply Z.eqb_eq in Hc. rewrite fexp64_eq in Hc.
  destruct (bounded_facts m e Hb) as ([Hmin _] & _ & _).
  set (d := Zpos (digits2_pos m)) in *.
  destruct (Z.le_gt_cases (-1074) (d + e - 53)) as [Hn|Hs].
  - exists m, (e + 1). split.
    + unfold bounded, canonical_mantissa. apply andb_true_iff. split.
      * apply Z.eqb_eq. fold d. rewrite fexp64_eq. lia.
      * apply Z.leb_le. change (emax - prec) with 971. lia.
    + replace (e + 1 + 1074) with (1 + (e + 1074)) by lia.
      rewrite (Z.pow_add_r 2 1 (e + 1074)) by lia. change (2 ^ 1) with 2. ring.
  - exists (m~0)%positive, e. split.
    + unfold bounded, canonical_mantissa. apply andb_true_iff. split.
      * apply Z.eqb_eq. cbn [digits2_pos]. rewrite Pos2Z.inj_succ. fold d.
        rewrite fexp64_eq. lia.
      * apply Z.leb_le. change (emax - prec) with 971. lia.
    + rewrite Pos2Z.inj_xO. ring.
Qed.

Lemma F2Z_2 : nnfF 2 = true /\ F2Z 2 = 2 * 2 ^ 1074.
Proof. split; reflexivity. Qed.

(** Doubling a number of [0, 1] is exact. *)
Lemma double_exact (a : float) :
  nnfF a = true -> F2Z a <= 2 ^ 1074 ->
  nnfF (2 * a) = true /\ F2Z (2 * a) = 2 * F2Z a.
Proof.
  intros Na Ha. destruct F2Z_2 as [N2 E2].
  pose proof (pow2_pos 1074 ltac:(lia)) as HP.
  pose proof (Prim2SF_valid a) as V.
  destruct (Prim2SF a) as [s|s| |[] m e] eqn:E;
    try (unfold nnfF in Na; rewrite E in Na; discriminate Na).
  - assert (Ea : F2Z a = 0) by (unfold F2Z; rewrite E; reflexivity).
    destruct (mul_bounds 2 a 0 N2 Na nnfF_0) as (H0 & Hle & _).
    rewrite Ea. change (2 * 0) with (F2Z 0).
    apply squeeze; [exact nnfF_0|exact H0| |].
    + apply Hle. rewrite Ea. change (F2Z 0) with 0. lia.
    + destruct (mul_bounds 2 a 0 N2 Na nnfF_0) as (_ & _ & Hge).
      apply Hge. rewrite Ea. change (F2Z 0) with 0. lia.
  - cbn [valid_binary] in V.
    assert (Ea : F2Z a = Zpos m * 2 ^ (e + 1074)) by (unfold F2Z; rewrite E; reflexivity).
    destruct (bounded_facts m e V) as ([Hmin _] & _ & _).
    assert (He : e < 971).
    { destruct (Z.lt_ge_cases e 971) as [|Hbig]; [assumption|exfalso].
      assert (2 ^ 1075 <= 2 ^ (e + 1074)) by (apply Z.pow_le_mono_r; lia).
      change (2 ^ 1075) with (2 * 2 ^ 1074) in *. rewrite Ea in Ha. nia. }
    destruct (double_repr m e V He) as (mb & eb & Hb & Hv).
    set (B := SF2Prim (S754_finite false mb eb)).
    assert (EB : Prim2SF B = S754_finite false mb eb) by (apply Prim2SF_SF2Prim; exact Hb).
    assert (NB : nnfF B = true) by (unfold nnfF; rewrite EB; reflexivity).
    assert (FB : F2Z B = 2 * F2Z a) by (unfold F2Z at 1; rewrite EB, Ea; exact Hv).
    destruct (mul_bounds 2 a B N2 Na NB) as (H0 & Hle & Hge).
    rewrite <- FB. apply squeeze; [exact NB|exact H0| |].
    + apply Hle. rewrite FB, E2. lia.
    + apply Hge. rewrite FB, E2. lia.
Qed.

(** ** Recovery and strain increase *)

Lemma range_le (x b : float) :
  (0 <=? x)%float = true -> (x <=? b)%float = true -> nnfF b = true ->
  nnfF x = true /\ 0 <= F2Z x <= F2Z b.
Proof.
  intros H0 H1 Nb. pose proof (nnf_between x b H0 H1 Nb) as Nx.
  split; [exact Nx|]. split; [now apply F2Z_nonneg|].
  rewrite (leb_nnf x b Nx Nb) in H1. now apply Z.leb_le.
Qed.

Lemma in_unit_range (x : float) :
  in_unit x = true -> nnfF x = true /\ 0 <= F2Z x <= 2 ^ 1074.
Proof.
  unfold in_unit. intros H. apply andb_true_iff in H as [H0 H1].
  rewrite <- F2Z_1. now apply range_le; [| |exact nnfF_1].
Qed.

(** The fraction [(1 - sr) * (w1 * c + w2 * h) / (2 * a)] of the recovery
    and of the strain increase lies in [0, 1] when the weights and the
    self-regulation do and the stressors lie in [0, a]; so does its
    complement to 1. *)
Lemma stress_fraction (sr w1 w2 c h a : float) :
  in_unit sr = true -> in_unit w1 = true -> in_unit w2 = true ->
  (0 <? a)%float = true -> (a <=? 1)%float = true ->
  (0 <=? c)%float = true -> (c <=? a)%float = true ->
  (0 <=? h)%float = true -> (h <=? a)%float = true ->
  let q := ((1 - sr) * (w1 * c + w2 * h) / (2 * a))%float in
  in_unit q = true /\ in_unit (1 - q) = true.
Proof.
  intros Hsr Hw1 Hw2 Ha0 Ha1 Hc0 Hc1 Hh0 Hh1 q.
  pose proof (pow2_pos 1074 ltac:(lia)) as HP.
  destruct (in_unit_range sr Hsr) as (Nsr & Lsr0 & Lsr1).
  destruct (in_unit_range w1 Hw1) as (Nw1 & Lw10 & Lw11).
  destruct (in_unit_range w2 Hw2) as (Nw2 & Lw20 & Lw21).
  destruct (ltb_true _ _ Ha0) as (_ & Nna & _).
  assert (Ha0' : (0 <=? a)%float = true).
  { destruct (ltb_true _ _ Ha0) as (N0 & Na' & L). rewrite leb_ord by assumption.
    apply Z.leb_le. lia. }
  destruct (range_le a 1 Ha0' Ha1 nnfF_1) as (Na & La0 & La1). rewrite F2Z_1 in La1.
  assert (Pa : 0 < F2Z a).
  { rewrite (ltb_nnf 0 a nnfF_0 Na) in Ha0. apply Z.ltb_lt in Ha0. exact Ha0. }
  destruct (range_le c a Hc0 Hc1 Na) as (Nc & Lc0 & Lc1).
  destruct (range_le h a Hh0 Hh1 Na) as (Nh & Lh0 & Lh1).
  (* the weighted stressors *)
  destruct (mul_bounds w1 c a Nw1 Nc Na) as (T10 & T1le & _).
  destruct (range_le (w1 * c) a T10 (T1le ltac:(nia)) Na) as (Nt1 & Lt10 & Lt11).
  destruct (mul_bounds w2 h a Nw2 Nh Na) as (T20 & T2le & _).
  destruct (range_le (w2 * h) a T20 (T2le ltac:(nia)) Na) as (Nt2 & Lt20 & Lt21).
  (* their sum is at most [2 * a] *)
  destruct (double_exact a Na La1) as [ND ED].
  destruct (add_bounds (w1 * c) (w2 * h) (2 * a) Nt1 Nt2 ND) as (S0 & Sle & _).
  destruct (range_le _ (2 * a) S0 (Sle ltac:(lia)) ND) as (Ns & Ls0 & Ls1).
  (* the complement of the self-regulation *)
  destruct (sub_bounds 1 sr nnfF_1 Nsr ltac:(rewrite F2Z_1; lia)) as [K0 K1].
  destruct (range_le _ 1 K0 K1 nnfF_1) as (Nk & Lk0 & Lk1). rewrite F2Z_1 in Lk1.
  destruct (mul_bounds (1 - sr) (w1 * c + w2 * h) (2 * a) Nk Ns ND) as (U0 & Ule & _).
  destruct (range_le _ (2 * a) U0 (Ule ltac:(nia)) ND) as (Nu & Lu0 & Lu1).
  (* the quotient *)
  destruct (div_bounds ((1 - sr) * (w1 * c + w2 * h)) (2 * a) 1 Nu ND ltac:(lia) nnfF_1)
    as (Q0 & Qle & _).
  assert (Q1 : (q <=? 1)%float = true) by (apply Qle; rewrite F2Z_1; nia).
  fold q in Q0. destruct (range_le q 1 Q0 Q1 nnfF_1) as (Nq & Lq0 & Lq1).
  destruct (sub_bounds 1 q nnfF_1 Nq Lq1) as [R0 R1].
  unfold in_unit. now rewrite Q0, Q1, R0, R1.
Qed.

Lemma positive_ambition_fields (M : MathLib) (params : Params) (finalTime time : Z)
    (rs : Streams) (st : Stocks) :
  JS.strict_eq (ambition params) 0 = false ->
  let c := period_body M params finalTime time rs st in
  let a := ambition params in
  let sr := selfRegulation params in
  p_challengeStressors c
  = fst (SeededRandom.nextTruncatedNormal M 0 a 0 a (rng2_challenge rs))
  /\ p_hindranceStressors c
     = fst (SeededRandom.nextTruncatedNormal M 0 a 0 a (rng3_hindrance rs))
  /\ p_recovery c
     = (1 - (1 - sr) * (or_one (var2 (coeffs params)) * p_challengeStressors c
                        + or_one (var3 (coeffs params)) * p_hindranceStressors c)
            / (2 * a))%float
  /\ p_strainIncrease c
     = ((1 - sr) * (or_one (var4 (coeffs params)) * p_challengeStressors c
                    + or_one (var5 (coeffs params)) * p_hindranceStressors c)
        / (2 * a))%float.
Proof.
  intros H. unfold period_body. rewrite H. destruct_draws. cbn [fst].
  repeat split; reflexivity.
Qed.

(** X18: the recovery and the strain increase are fractions.  For an
    ambition in (0, 1], a self-regulation in [0, 1] and weights [var2],
    [var3], [var4], [var5] in [0, 1], in every period whose challenge and
    hindrance draws are not NaN, the recovery and the strain increase both
    lie in [0, 1], in double arithmetic. *)
Theorem recovery_range (M : MathLib) (params : Params) (finalTime time : Z)
    (rs : Streams) (st : Stocks) :
  (0 <? ambition params)%float = true -> (ambition params <=? 1)%float = true ->
  in_unit (selfRegulation params) = true ->
  in_unit (or_one (var2 (coeffs params))) = true ->
  in_unit (or_one (var3 (coeffs params))) = true ->
  in_unit (or_one (var4 (coeffs params))) = true ->
  in_unit (or_one (var5 (coeffs params))) = true ->
  let c := period_body M params finalTime time rs st in
  is_nan (p_challengeStressors c) = false ->
  is_nan (p_hindranceStressors c) = false ->
  in_unit (p_recovery c) = true /\ in_unit (p_strainIncrease c) = true.
Proof.
  intros Ha0 Ha1 Hsr H2 H3 H4 H5 c Nc Nh.
  assert (Hz : JS.strict_eq (ambition params) 0 = false).
  { unfold JS.strict_eq. destruct (ltb_true _ _ Ha0) as (N0 & Na & L).
    rewrite eqb_ord by assumption. apply Z.eqb_neq. lia. }
  assert (Ha0' : (0 <=? ambition params)%float = true).
  { destruct (ltb_true _ _ Ha0) as (N0 & Na & L). rewrite leb_ord by assumption.
    apply Z.leb_le. lia. }
  destruct (positive_ambition_fields M params finalTime time rs st Hz)
    as (Ec & Eh & Er & Es). fold c in Ec, Eh, Er, Es.
  assert (Rc : (0 <=? p_challengeStressors c)%float = true
               /\ (p_challengeStressors c <=? ambition params)%float = true).
  { rewrite Ec in Nc |- *. unfold SeededRandom.nextTruncatedNormal in *.
    destruct (SeededRandom.nextNormal M 0 (ambition params) (rng2_challenge rs)) as [v g].
    cbn [fst] in *. destruct (clamp_range 0 (ambition params) v Ha0') as (En & Hlo & Hhi).
    rewrite <- En, Nc in Hlo, Hhi. auto. }
  assert (Rh : (0 <=? p_hindranceStressors c)%float = true
               /\ (p_hindranceStressors c <=? ambition params)%float = true).
  { rewrite Eh in Nh |- *. unfold SeededRandom.nextTruncatedNormal in *.
    destruct (SeededRandom.nextNormal M 0 (ambition params) (rng3_hindrance rs)) as [v g].
    cbn [fst] in *. destruct (clamp_range 0 (ambition params) v Ha0') as (En & Hlo & Hhi).
    rewrite <- En, Nh in Hlo, Hhi. auto. }
  destruct Rc as [Rc0 Rc1], Rh as [Rh0 Rh1].
  rewrite Er, Es. split.
  - now apply stress_fraction.
  - now apply stress_fraction.
Qed.

Lemma recovery_range_witness :
  let c := period_body RefMath.lib fixture_params 500 0 (streams (init 42))
             (stocks (init 42)) in
  (0 <? ambition fixture_params)%float = true
  /\ in_unit (selfRegulation fixture_params) = true
  /\ is_nan (p_challengeStressors c) = false
  /\ is_nan (p_hindranceStressors c) = false
  /\ in_unit (p_recovery c) = true /\ in_unit (p_strainIncrease c) = true.
Proof.
  cbv zeta. split; [reflexivity|]. split; [reflexivity|].
  split; [vm_compute; reflexivity|]. split; [vm_compute; reflexivity|].
  apply recovery_range; try reflexivity; vm_compute; reflexivity.
Defined.

(** ** Values that are not negative *)

Lemma not_negative_spec (x : float) :
  (x <? 0)%float = false <-> SFnonneg (Prim2SF x) = true.
Proof.
  rewrite ltb_spec. change (Prim2SF 0) with (S754_zero false).
  destruct (Prim2SF x) as [[]|[]| |[] m e]; cbn; split; congruence.
Qed.

Lemma SFleb_zero_nonneg (r : spec_float) :
  SFleb (S754_zero false) r = true -> SFnonneg r = true.
Proof. destruct r as [[]|[]| |[] m e]; cbn; congruence. Qed.

Lemma mul_not_negative (x y : float) :
  (x <? 0)%float = false -> (y <? 0)%float = false -> (x * y <? 0)%float = false.
Proof.
  rewrite !not_negative_spec, mul_spec. intros Hx Hy.
  pose proof (Prim2SF_valid x) as Vx. pose proof (Prim2SF_valid y) as Vy.
  destruct (Prim2SF x) as [sx|[]| |[] mx ex]; try discriminate;
    destruct (Prim2SF y) as [sy|[]| |[] my ey]; try discriminate; try reflexivity.
  all: repeat match goal with s : bool |- _ => destruct s end; try reflexivity.
  apply SFleb_zero_nonneg.
  now destruct (SFmul_bounds (S754_finite false mx ex) (S754_finite false my ey)
                    (S754_zero false) Vx Vy eq_refl eq_refl eq_refl eq_refl) as [H _].
Qed.

Lemma add_not_negative (x y : float) :
  (x <? 0)%float = false -> (y <? 0)%float = false -> (x + y <? 0)%float = false.
Proof.
  rewrite !not_negative_spec, add_spec. intros Hx Hy.
  pose proof (Prim2SF_valid x) as Vx. pose proof (Prim2SF_valid y) as Vy.
  destruct (Prim2SF x) as [sx|[]| |[] mx ex]; try discriminate;
    destruct (Prim2SF y) as [sy|[]| |[] my ey]; try discriminate; try reflexivity.
  all: repeat match goal with s : bool |- _ => destruct s end; try reflexivity.
  apply SFleb_zero_nonneg.
  now destruct (SFadd_bounds (S754_finite false mx ex) (S754_finite false my ey)
                    (S754_zero false) Vx Vy eq_refl eq_refl eq_refl eq_refl) as [H _].
Qed.

Lemma abs_not_negative (x : float) : (abs x <? 0)%float = false.
Proof.
  rewrite not_negative_spec, abs_spec. now destruct (Prim2SF x).
Qed.

(** The logistic term of a value of [exp] that is not negative. *)
Lemma logistic_not_negative (e : float) :
  (e <? 0)%float = false -> (1 / (1 + e) <? 0)%float = false.
Proof.
  intros H. destruct (is_nan e) eqn:Hn.
  - apply ltb_nan. left. rewrite is_nan_spec, div_spec.
    assert (E : Prim2SF (1 + e) = S754_nan).
    { apply is_nan_spec, add_nan_r, Hn. }
    rewrite E. reflexivity.
  - assert (H0 : (0 <=? e)%float = true).
    { rewrite (ltb_ord e 0 Hn eq_refl) in H. apply Z.ltb_ge in H.
      rewrite (leb_ord 0 e eq_refl Hn). now apply Z.leb_le. }
    destruct (logistic_bounds e H0) as [L0 _].
    destruct (leb_true _ _ L0) as (_ & Nr & L).
    rewrite (ltb_ord _ 0%float Nr eq_refl). now apply Z.ltb_ge.
Qed.

Lemma effort_equation (M : MathLib) (params : Params) (finalTime time : Z)
    (rs : Streams) (st : Stocks) :
  p_effort (period_body M params finalTime time rs st)
  = (if JS.strict_eq (s_motivation st) 0 then 0
     else or_one (var8 (coeffs params))
          * (1 / (1 + Math_exp M (s_strain st - s_motivation st))))%float.
Proof. unfold period_body. destruct_draws. reflexivity. Qed.

(** X19: the cumulative effort is not clamped, but when [var8] is not
    negative and [Math.exp] never returns a negative number, no recorded
    effort and no recorded cumulative effort is negative, for every seed
    and horizon.  (They can be NaN.) *)
Theorem effort_accumulates (M : MathLib) (fresh : Z) (params : Params) (finalTime : Z)
    (seed : option Z) :
  (or_one (var8 (coeffs params)) <? 0)%float = false ->
  (forall x, (Math_exp M x <? 0)%float = false) ->
  Forall (fun pt => (effort pt <? 0)%float = false
                    /\ (cumulativeEffort pt <? 0)%float = false)
         (runSimulation M fresh params finalTime seed).
Proof.
  intros Hv He. unfold runSimulation, final_state.
  apply (loop_invariant M params finalTime
           (fun _ st => (s_cumulativeEffort st <? 0)%float = false));
    [|reflexivity|constructor].
  intros time rs st Hc.
  assert (Hef : (p_effort (period_body M params finalTime time rs st) <? 0)%float = false).
  { rewrite effort_equation. destruct (JS.strict_eq (s_motivation st) 0); [reflexivity|].
    apply mul_not_negative; [exact Hv|]. apply logistic_not_negative, He. }
  assert (Hce : (s_cumulativeEffort (p_stocks (period_body M params finalTime time rs st))
                 <? 0)%float = false).
  { destruct (period_stocks M params finalTime time rs st) as [-> ->].
    cbn [s_cumulativeEffort]. now apply add_not_negative. }
  split; [exact Hce|]. cbn [record_point effort cumulativeEffort].
  split; now apply toFixed3_not_negative.
Qed.

Lemma effort_accumulates_witness :
  (or_one (var8 (coeffs fixture_params)) <? 0)%float = false
  /\ (forall x, (Math_exp nonneg_exp_lib x <? 0)%float = false)
  /\ Forall (fun pt => (effort pt <? 0)%float = false
                       /\ (cumulativeEffort pt <? 0)%float = false)
            (runSimulation nonneg_exp_lib 0 fixture_params 500 (Some 42)).
Proof.
  split; [reflexivity|].
  split; [intros x; apply abs_not_negative|].
  apply effort_accumulates; [reflexivity|intros x; apply abs_not_negative].
Defined.

(** ** The streams of runs whose base seeds are 1000 apart *)

Lemma draw_equations (M : MathLib) (params : Params) (finalTime time : Z)
    (rs : Streams) (st : Stocks) :
  let c := period_body M params finalTime time rs st in
  let a := ambition params in
  p_advanceRandom c = fst (SeededRandom.nextTruncatedNormal M 0 a 0 a (rng0_advance rs))
  /\ p_setbackRandom c = fst (SeededRandom.nextTruncatedNormal M 0 a 0 a (rng1_setback rs))
  /\ p_challengeStressors c
     = (if JS.strict_eq a 0 then 0%float
        else fst (SeededRandom.nextTruncatedNormal M 0 a 0 a (rng2_challenge rs)))
  /\ p_hindranceStressors c
     = (if JS.strict_eq a 0 then 0%float
        else fst (SeededRandom.nextTruncatedNormal M 0 a 0 a (rng3_hindrance rs))).
Proof.
  cbv zeta. unfold period_body.
  destruct (JS.strict_eq (ambition params) 0); destruct_draws; cbn [fst]; repeat split.
Qed.

(** X20: the streams are not private to a run.  With the same parameters,
    the setback draw of period [n] in a run with base seed [b] is the
    advance draw of period [n] in the run with base seed [b + 1000], and its
    hindrance draw is the challenge draw of that run: the generators are
    constructed from [b + 1000] and from [b + 3000] in both. *)
Theorem stream_overlap (M : MathLib) (params : Params) (finalTime finalTime' base : Z)
    (n : nat) (st st' : Stocks) :
  let rs := streams (loop M params finalTime n 0 (init base)) in
  let rs' := streams (loop M params finalTime' n 0 (init (base + 1000))) in
  let c := period_body M params finalTime (Z.of_nat n) rs st in
  let c' := period_body M params finalTime' (Z.of_nat n) rs' st' in
  p_setbackRandom c = p_advanceRandom c'
  /\ p_hindranceStressors c = p_challengeStressors c'.
Proof.
  cbv zeta.
  destruct (draw_equations M params finalTime (Z.of_nat n)
              (streams (loop M params finalTime n 0 (init base))) st)
    as (_ & -> & _ & ->).
  destruct (draw_equations M params finalTime' (Z.of_nat n)
              (streams (loop M params finalTime' n 0 (init (base + 1000)))) st')
    as (-> & _ & -> & _).
  rewrite !loop_streams. unfold after_periods, init.
  cbn [streams rng0_advance rng1_setback rng2_challenge rng3_hindrance].
  replace (base + 1000 + 2000) with (base + 3000) by lia.
  split; [reflexivity|].
  destruct (JS.strict_eq (ambition params) 0); reflexivity.
Qed.

(** * Properties of the dashboard *)

(** ** The system diagram *)

Lemma or_zero_number (x : option JS.number) : is_nan (or_zero x) = false.
Proof.
  destruct x as [v|]; [|reflexivity]. unfold or_zero.
  destruct (is_nan v) eqn:Hn; [reflexivity|]. cbn [orb].
  destruct (v =? 0)%float; [reflexivity|exact Hn].
Qed.

(** The absolute value of a number divided by 1 or by 50 is a number
    that is not negative. *)
Lemma abs_div_nonneg (v mx : float) :
  is_nan v = false -> mx = 1%float \/ mx = 50%float ->
  (0 <=? abs v / mx)%float = true.
Proof.
  intros Hn Hmx. apply is_nan_false in Hn.
  assert (Hc : nnfF (abs v) = true \/ Prim2SF (abs v) = S754_infinity false).
  { unfold nnfF. rewrite abs_spec. destruct (Prim2SF v) as [s|s| |s m e]; cbn; auto. }
  destruct Hc as [Na|Einf].
  - assert (Hm : nnfF mx = true /\ 0 < F2Z mx).
    { destruct Hmx as [-> | ->]; split; reflexivity. }
    destruct Hm as [Nm Pm].
    now destruct (div_bounds (abs v) mx 1 Na Nm Pm nnfF_1) as [H0 _].
  - rewrite leb_spec, div_spec, Einf. destruct Hmx as [-> | ->]; reflexivity.
Qed.

(** [Math.min(hi, Math.max(lo, v))] with [lo <= hi], for a number [v]. *)
Lemma clamp_range_outer_min (lo hi v : float) :
  (lo <=? hi)%float = true -> is_nan v = false ->
  let r := JS.Math_min hi (JS.Math_max lo v) in
  (lo <=? r)%float = true /\ (r <=? hi)%float = true.
Proof.
  intros H Hv r. destruct (leb_true lo hi H) as (Hlo & Hhi & Hle).
  destruct (Math_max_ord lo v Hlo Hv) as [Hm Em].
  destruct (Math_min_ord hi _ Hhi Hm) as [Hr Er]. fold r in Hr, Er.
  rewrite !leb_ord by assumption. split; apply Z.leb_le; lia.
Qed.

(** X9: the opacity of the seven connections of the system diagram.  When
    the diagram is active every opacity lies between 0.2 and 1, bounds
    included, whatever the state holds: a field that is missing, NaN or 0 is
    read as 0 by [|| 0], so no opacity is NaN.  When it is not active every
    opacity is 0.15. *)
Theorem opacity_range (currentState : option TrajectoryPoint) :
  Forall (fun o => (0x1.999999999999ap-3 <=? o)%float = true /\ (o <=? 1)%float = true)
         (SystemDiagram.opacities currentState true)
  /\ SystemDiagram.opacities currentState false = repeat 0x1.3333333333333p-3%float 7.
Proof.
  split; [|reflexivity].
  assert (H : forall (f : TrajectoryPoint -> JS.number) (mx : float),
             mx = 1%float \/ mx = 50%float ->
             let o := SystemDiagram.getOpacity true (or_zero (option_map f currentState)) mx in
             (0x1.999999999999ap-3 <=? o)%float = true /\ (o <=? 1)%float = true).
  { intros f mx Hmx o. unfold o, SystemDiagram.getOpacity.
    pose proof (abs_div_nonneg _ mx (or_zero_number (option_map f currentState)) Hmx) as H0.
    destruct (leb_true _ _ H0) as (_ & Hn & _).
    apply clamp_range_outer_min; [reflexivity|exact Hn]. }
  unfold SystemDiagram.opacities.
  repeat (constructor; [apply H; auto|]). constructor.
Qed.

(** ** The outcome interpretation *)

(** Comparisons against the constants of the interpretation follow from
    one another. *)
Lemma ltb_trans_const (x a b : float) :
  (x <? a)%float = true -> (a <=? b)%float = true -> (x <? b)%float = true.
Proof.
  intros H1 H2. destruct (ltb_true _ _ H1) as (Nx & Na & L1).
  destruct (leb_true _ _ H2) as (_ & Nb & L2).
  rewrite ltb_ord by assumption. apply Z.ltb_lt. lia.
Qed.

Lemma gtb_trans_const (x a b : float) :
  (a <? x)%float = true -> (b <=? a)%float = true -> (b <? x)%float = true.
Proof.
  intros H1 H2. destruct (ltb_true _ _ H1) as (Na & Nx & L1).
  destruct (leb_true _ _ H2) as (Nb & _ & L2).
  rewrite ltb_ord by assumption. apply Z.ltb_lt. lia.
Qed.

Lemma ltb_gtb_const (x a b : float) :
  (x <? a)%float = true -> (a <=? b)%float = true -> (b <? x)%float = false.
Proof.
  intros H1 H2. destruct (ltb_true _ _ H1) as (Nx & Na & L1).
  destruct (leb_true _ _ H2) as (_ & Nb & L2).
  rewrite ltb_ord by assumption. apply Z.ltb_ge. lia.
Qed.

(** X10: the regions of the outcome interpretation.  The result is
    [burnout] exactly when [p < 2] and [wb < -20]; [struggling] exactly when
    [p < 5] and [wb < -10] but not both [p < 2] and [wb < -20]; [resilient]
    exactly when [p < 5] and [wb > 10]; [thriving] exactly when [p > 20] and
    [wb > 30]; [strained] exactly when [p > 15] and [wb < 0]; and [moderate]
    in every other case.  Apart from [burnout] before [struggling], the
    order of the tests plays no part: the other regions do not overlap. *)
Theorem outcome_regions (fs : TrajectoryPoint) :
  let p := performance fs in
  let wb := wellbeing fs in
  let outcome := getOutcomeInterpretation (Some fs) in
  (outcome = Some burnout <-> (p <? 2)%float = true /\ (wb <? -20)%float = true)
  /\ (outcome = Some struggling <->
      (p <? 5)%float = true /\ (wb <? -10)%float = true
      /\ ((p <? 2)%float = false \/ (wb <? -20)%float = false))
  /\ (outcome = Some resilient <-> (p <? 5)%float = true /\ (10 <? wb)%float = true)
  /\ (outcome = Some thriving <-> (20 <? p)%float = true /\ (30 <? wb)%float = true)
  /\ (outcome = Some strained <-> (15 <? p)%float = true /\ (wb <? 0)%float = true)
  /\ (outcome = Some moderate <->
      ((p <? 5)%float = false
       \/ ((wb <? -10)%float = false /\ (10 <? wb)%float = false))
      /\ ((20 <? p)%float = false \/ (30 <? wb)%float = false)
      /\ ((15 <? p)%float = false \/ (wb <? 0)%float = false)).
Proof.
  intros p wb outcome. unfold outcome, getOutcomeInterpretation. fold p wb.
  pose proof (fun H => ltb_trans_const p 2 5 H eq_refl) as P25.
  pose proof (fun H => ltb_gtb_const p 5 15 H eq_refl) as P515.
  pose proof (fun H => ltb_gtb_const p 5 20 H eq_refl) as P520.
  pose proof (fun H => gtb_trans_const p 20 15 H eq_refl) as P2015.
  pose proof (fun H => ltb_trans_const wb (-20) (-10) H eq_refl) as W2010.
  pose proof (fun H => ltb_trans_const wb (-10) 0 H eq_refl) as W100.
  pose proof (fun H => ltb_gtb_const wb 0 10 H eq_refl) as W010.
  pose proof (fun H => ltb_gtb_const wb 0 30 H eq_refl) as W030.
  pose proof (fun H => gtb_trans_const wb 30 10 H eq_refl) as W3010.
  destruct (p <? 2)%float, (p <? 5)%float, (20 <? p)%float, (15 <? p)%float;
    try (specialize (P25 eq_refl)); try (specialize (P515 eq_refl));
    try (specialize (P520 eq_refl)); try (specialize (P2015 eq_refl));
    try discriminate.
  all: destruct (wb <? -20)%float, (wb <? -10)%float, (wb <? 0)%float,
         (10 <? wb)%float, (30 <? wb)%float;
    try (specialize (W2010 eq_refl)); try (specialize (W100 eq_refl));
    try (specialize (W010 eq_refl)); try (specialize (W030 eq_refl));
    try (specialize (W3010 eq_refl)); try discriminate.
  all: cbn [andb].
  all: repeat split; intros; try discriminate; try tauto;
    repeat match goal with
           | H : _ /\ _ |- _ => destruct H
           | H : _ \/ _ |- _ => destruct H
           end; try discriminate; auto.
Qed.

(** X11: a final state whose performance or well-being is NaN is
    interpreted as [moderate] (Steady Progress): every comparison with NaN
    is false. *)
Theorem outcome_of_nan (fs : TrajectoryPoint) :
  is_nan (performance fs) = true \/ is_nan (wellbeing fs) = true ->
  getOutcomeInterpretation (Some fs) = Some moderate.
Proof.
  intros H. unfold getOutcomeInterpretation. cbv zeta.
  destruct H as [H|H].
  - rewrite !(ltb_nan (performance fs)), !(ltb_nan _ (performance fs)) by auto. reflexivity.
  - rewrite !(ltb_nan (wellbeing fs)), !(ltb_nan _ (wellbeing fs)) by auto.
    rewrite !andb_false_r. reflexivity.
Qed.

Lemma outcome_of_nan_witness :
  exists fs,
    last (map Some (runSimulation RefMath.lib 0 zero_ambition_params 500 (Some 420441))) None
    = Some fs
    /\ is_nan (performance fs) = true
    /\ getOutcomeInterpretation (Some fs) = Some moderate.
Proof.
  eexists. split; [vm_compute; reflexivity|].
  split; [vm_compute; reflexivity|].
  apply outcome_of_nan. left. vm_compute. reflexivity.
Defined.

(** ** The animation *)

Lemma firstn_snoc {A : Type} (l : list A) (n : nat) (x : A) :
  nth_error l n = Some x -> firstn (S n) l = firstn n l ++ [x].
Proof.
  revert n. induction l as [|y l IH]; intros [|n] H; try discriminate.
  - cbn in H. injection H as ->. reflexivity.
  - cbn [nth_error] in H. cbn [firstn app]. f_equal. now apply IH.
Qed.

(** While the animation runs, every pass of the effect shows one more
    point. *)
Lemma animation_steps (a : App.t) (k : nat) :
  App.isRunning a = true ->
  App.trajectory a = firstn (App.currentIndex a) (App.fullTrajectoryRef a) ->
  (App.currentIndex a + k <= length (App.fullTrajectoryRef a))%nat ->
  Nat.iter k animationEffect a
  = setCurrentIndex (App.currentIndex a + k)
      (setTrajectory (firstn (App.currentIndex a + k) (App.fullTrajectoryRef a)) a).
Proof.
  intros Hr Ht. induction k as [|k IH]; intros Hk.
  - cbn [Nat.iter nat_rect]. rewrite Nat.add_0_r, <- Ht. now destruct a.
  - change (Nat.iter (S k) animationEffect a) with (animationEffect (Nat.iter k animationEffect a)).
    rewrite IH by lia. unfold animationEffect.
    cbn [App.isRunning App.currentIndex App.fullTrajectoryRef App.trajectory
         setCurrentIndex setTrajectory].
    rewrite Hr. cbn [andb].
    destruct (Nat.ltb_spec (App.currentIndex a + k) (length (App.fullTrajectoryRef a)));
      [|lia].
    destruct (nth_error (App.fullTrajectoryRef a) (App.currentIndex a + k)) as [pt|] eqn:E.
    + rewrite <- (firstn_snoc _ _ _ E).
      replace (App.currentIndex a + S k)%nat with (S (App.currentIndex a + k)) by lia.
      replace (App.currentIndex a + k + 1)%nat with (S (App.currentIndex a + k)) by lia.
      reflexivity.
    + apply nth_error_None in E. lia.
Qed.

Lemma animation_end (a : App.t) :
  App.isRunning a = false ->
  (length (App.fullTrajectoryRef a) <= App.currentIndex a)%nat ->
  forall k, Nat.iter k animationEffect a = a.
Proof.
  intros Hr Hl. induction k as [|k IH]; [reflexivity|].
  change (Nat.iter (S k) animationEffect a) with (animationEffect (Nat.iter k animationEffect a)).
  rewrite IH. unfold animationEffect. rewrite Hr. cbn [andb].
  destruct (Nat.leb_spec (length (App.fullTrajectoryRef a)) (App.currentIndex a)); [|lia].
  destruct a. cbn in Hr. subst. reflexivity.
Qed.

(** An animation that starts with nothing shown runs through the whole
    trajectory and stops. *)
Lemma animation_of (a0 : App.t) (n : nat) :
  App.isRunning a0 = true -> App.currentIndex a0 = 0%nat -> App.trajectory a0 = [] ->
  length (App.fullTrajectoryRef a0) = n -> (0 < n)%nat ->
  let full := App.fullTrajectoryRef a0 in
  let shown := setIsRunning false (setCurrentIndex n (setTrajectory full a0)) in
  (forall k, (k <= n)%nat ->
     Nat.iter k animationEffect a0
     = setCurrentIndex k (setTrajectory (firstn k full) a0))
  /\ (forall k, (n < k)%nat -> Nat.iter k animationEffect a0 = shown)
  /\ (forall k, (k <= n)%nat -> skipToEnd (Nat.iter k animationEffect a0) = shown).
Proof.
  intros Hr Hi Ht Hlen Hn full shown.
  assert (Hsteps : forall k, (k <= n)%nat ->
             Nat.iter k animationEffect a0
             = setCurrentIndex k (setTrajectory (firstn k full) a0)).
  { intros k Hk. rewrite (animation_steps a0 k); rewrite ?Hi, ?Ht; try reflexivity; try lia.
    exact Hr. }
  assert (Hlast : Nat.iter (S n) animationEffect a0 = shown).
  { change (Nat.iter (S n) animationEffect a0)
      with (animationEffect (Nat.iter n animationEffect a0)).
    rewrite Hsteps by lia. unfold animationEffect.
    cbn [App.isRunning App.currentIndex App.fullTrajectoryRef App.trajectory
         setCurrentIndex setTrajectory].
    rewrite Hr, Hlen, Nat.ltb_irrefl, Nat.leb_refl. cbn [andb].
    assert (Hall : firstn n full = full) by (rewrite <- Hlen; apply firstn_all).
    rewrite Hall. reflexivity. }
  split; [exact Hsteps|]. split.
  - intros k Hk. replace k with ((k - S n) + S n)%nat by lia.
    rewrite Nat.iter_add, Hlast. apply animation_end; [reflexivity|].
    unfold shown. cbn [App.fullTrajectoryRef App.currentIndex setIsRunning setCurrentIndex
                        setTrajectory]. lia.
  - intros k Hk. rewrite Hsteps by exact Hk. unfold skipToEnd.
    cbn [App.fullTrajectoryRef setCurrentIndex setTrajectory].
    rewrite Hlen. destruct (Nat.ltb_spec 0 n); [reflexivity|lia].
Qed.

(** X12: the animation of a run started by [runAnimatedSimulation].  The
    full trajectory has 101 points.  After [k <= 101] passes of the effect
    the first [k] points are shown and [currentIndex] is [k]; the next pass
    stops the animation with all 101 points shown, and further passes change
    nothing.  [skipToEnd] at any moment of the animation gives that same
    final state. *)
Theorem animation (M : MathLib) (random random' : Z) (a : App.t) :
  let a0 := runAnimatedSimulation M random random' a in
  let full := App.fullTrajectoryRef a0 in
  let shown := setIsRunning false (setCurrentIndex 101 (setTrajectory full a0)) in
  length full = 101%nat
  /\ (forall k, (k <= 101)%nat ->
        Nat.iter k animationEffect a0
        = setCurrentIndex k (setTrajectory (firstn k full) a0))
  /\ (forall k, (101 < k)%nat -> Nat.iter k animationEffect a0 = shown)
  /\ (forall k, (k <= 101)%nat -> skipToEnd (Nat.iter k animationEffect a0) = shown).
Proof.
  intros a0 full shown.
  assert (Hlen : length full = 101%nat).
  { unfold full, a0, runAnimatedSimulation.
    cbn [App.fullTrajectoryRef setViewMode setIsRunning setCurrentIndex setTrajectory
         setFullTrajectoryRef].
    rewrite <- (length_map period), runSimulation_periods. reflexivity. }
  split; [exact Hlen|].
  apply (animation_of a0 101); [reflexivity|reflexivity|reflexivity|exact Hlen|lia].
Qed.

(** ** The seed lock *)

(** The animation changes what is shown, nothing else. *)
Lemma animationEffect_keeps (a : App.t) :
  params_of (animationEffect a) = params_of a
  /\ App.currentSeed (animationEffect a) = App.currentSeed a
  /\ App.lockSeed (animationEffect a) = App.lockSeed a.
Proof.
  unfold animationEffect.
  destruct (App.isRunning a && _).
  - destruct (nth_error _ _); repeat split.
  - destruct (_ <=? _)%nat; repeat split.
Qed.

Lemma animation_keeps (k : nat) (a : App.t) :
  params_of (Nat.iter k animationEffect a) = params_of a
  /\ App.currentSeed (Nat.iter k animationEffect a) = App.currentSeed a
  /\ App.lockSeed (Nat.iter k animationEffect a) = App.lockSeed a.
Proof.
  induction k as [|k (IH1 & IH2 & IH3)]; [repeat split|].
  change (Nat.iter (S k) animationEffect a) with (animationEffect (Nat.iter k animationEffect a)).
  destruct (animationEffect_keeps (Nat.iter k animationEffect a)) as (H1 & H2 & H3).
  repeat split; congruence.
Qed.

(** A run with a seed that is not 0 does not depend on [Math.random]. *)
Lemma runSimulation_seeded (M : MathLib) (fresh fresh' : Z) (params : Params)
    (finalTime seed : Z) :
  seed <> 0 ->
  runSimulation M fresh params finalTime (Some seed)
  = runSimulation M fresh' params finalTime (Some seed).
Proof.
  intros H. unfold runSimulation, final_state. now rewrite !(baseSeed_nonzero _ seed H).
Qed.

(** What [runAnimatedSimulation] stores. *)
Lemma run_stores (M : MathLib) (random random' : Z) (a : App.t) :
  let seed :=
    match App.currentSeed a with
    | Some s => if App.lockSeed a && negb (s =? 0) then s else random
    | None => random
    end in
  App.fullTrajectoryRef (runAnimatedSimulation M random random' a)
  = runSimulation M random' (params_of a) 500 (Some seed)
  /\ App.currentSeed (runAnimatedSimulation M random random' a)
     = (if App.lockSeed a then App.currentSeed a else Some seed)
  /\ params_of (runAnimatedSimulation M random random' a) = params_of a
  /\ App.lockSeed (runAnimatedSimulation M random random' a) = App.lockSeed a.
Proof.
  unfold runAnimatedSimulation. cbv zeta.
  destruct (App.lockSeed a) eqn:E; app_simpl; rewrite ?E; (split; [|split; [|split]]);
    reflexivity.
Qed.

(** X13: replaying a run with the seed lock.  A run started with the lock
    off stores the seed it drew (when that is not 0).  If the lock is then
    set, at any moment of the animation, the next run, with or without a
    [reset] before it, computes the same full trajectory, whatever
    [Math.random] returns, and the stored seed stays. *)
Theorem seed_replay (M : MathLib) (random1 random1' random2 random2' : Z) (k : nat)
    (a : App.t) :
  App.lockSeed a = false -> random1 <> 0 ->
  let a1 := runAnimatedSimulation M random1 random1' a in
  let a2 := setLockSeed true (Nat.iter k animationEffect a1) in
  App.currentSeed a1 = Some random1
  /\ App.fullTrajectoryRef (runAnimatedSimulation M random2 random2' a2)
     = App.fullTrajectoryRef a1
  /\ App.fullTrajectoryRef (runAnimatedSimulation M random2 random2' (reset a2))
     = App.fullTrajectoryRef a1
  /\ App.currentSeed (runAnimatedSimulation M random2 random2' a2) = Some random1.
Proof.
  intros Hl Hr a1 a2.
  destruct (run_stores M random1 random1' a) as (F1 & S1 & P1 & L1).
  fold a1 in F1, S1, P1, L1.
  assert (Hseed : (match App.currentSeed a with
                   | Some s => if App.lockSeed a && negb (s =? 0) then s else random1
                   | None => random1
                   end) = random1).
  { rewrite Hl. now destruct (App.currentSeed a). }
  rewrite Hseed in F1, S1. rewrite Hl in S1.
  destruct (animation_keeps k a1) as (P2 & S2 & L2).
  assert (P3 : params_of a2 = params_of a) by (unfold a2; rewrite <- P1, <- P2; reflexivity).
  assert (S3 : App.currentSeed a2 = Some random1) by (unfold a2; rewrite <- S1, <- S2; reflexivity).
  assert (L3 : App.lockSeed a2 = true) by reflexivity.
  assert (Nz : negb (random1 =? 0) = true) by (apply negb_true_iff, Z.eqb_neq, Hr).
  split; [exact S1|].
  destruct (run_stores M random2 random2' a2) as (F4 & S4 & _).
  destruct (run_stores M random2 random2' (reset a2)) as (F5 & _).
  assert (P5 : params_of (reset a2) = params_of a).
  { rewrite <- P3. unfold reset. destruct (App.lockSeed a2); reflexivity. }
  assert (S5 : App.currentSeed (reset a2) = Some random1).
  { rewrite <- S3. unfold reset. rewrite L3. reflexivity. }
  assert (L5 : App.lockSeed (reset a2) = true).
  { unfold reset. rewrite L3. reflexivity. }
  rewrite S3, L3, Nz, P3 in F4. rewrite S3, L3 in S4. cbn [andb] in F4.
  rewrite S5, L5, Nz, P5 in F5. cbn [andb] in F5.
  split; [rewrite F4, F1; now apply runSimulation_seeded|].
  split; [rewrite F5, F1; now apply runSimulation_seeded|exact S4].
Qed.

Lemma seed_replay_witness :
  App.lockSeed initial = false /\ 42 <> 0
  /\ App.fullTrajectoryRef
       (runAnimatedSimulation RefMath.lib 7 8
          (setLockSeed true
             (Nat.iter 3 animationEffect (runAnimatedSimulation RefMath.lib 42 0 initial))))
     = App.fullTrajectoryRef (runAnimatedSimulation RefMath.lib 42 0 initial).
Proof.
  split; [reflexivity|]. split; [discriminate|].
  destruct (seed_replay RefMath.lib 42 0 7 8 3 initial) as (_ & H & _);
    [reflexivity|discriminate|exact H].
Defined.

(** ** The coefficient weights *)

(** Only the number 1 is [=== 1]. *)
Lemma strict_eq_1 (v : float) : JS.strict_eq v 1 = true -> v = 1%float.
Proof.
  unfold JS.strict_eq. rewrite eqb_spec. intros H.
  rewrite <- (SF2Prim_Prim2SF v).
  transitivity (SF2Prim (S754_finite false 4503599627370496 (-52))); [|reflexivity].
  f_equal. change (Prim2SF 1) with (S754_finite false 4503599627370496 (-52)) in H.
  destruct (Prim2SF v) as [[]|[]| |[] m e]; try discriminate H.
  unfold SFeqb, SFcompare in H.
  destruct (e ?= -52) eqn:Ce; try discriminate H. apply Z.compare_eq in Ce. subst e.
  destruct (Pos.compare_cont Eq m 4503599627370496) eqn:E; try discriminate H.
  apply Pos.compare_eq in E. now subst m.
Qed.

(** A weight that the badge does not report is 1 for the engine. *)
Lemma unmodified_weight (c : Coefficients) (key : CoefficientKey) :
  modified c = false -> or_one (lookup key c) = 1%float.
Proof.
  unfold modified, Object_values. intros H.
  destruct (lookup key c) as [v|] eqn:E; [|reflexivity]. cbn [or_one].
  apply strict_eq_1. apply negb_false_iff.
  assert (Hin : In v (flat_map (fun v => match v with Some x => [x] | None => [] end)
                        [var1 c; var2 c; var3 c; var4 c; var5 c; var6 c; var7 c; var8 c;
                         var9 c; var10 c])).
  { apply in_flat_map. exists (Some v). split; [|now left].
    rewrite <- E. destruct key; cbn [lookup In]; tauto. }
  destruct (negb (JS.strict_eq v 1)) eqn:Hv; [|reflexivity].
  assert (existsb (fun v => negb (JS.strict_eq v 1))
            (flat_map (fun v => match v with Some x => [x] | None => [] end)
               [var1 c; var2 c; var3 c; var4 c; var5 c; var6 c; var7 c; var8 c;
                var9 c; var10 c]) = true) by (apply existsb_exists; eauto).
  congruence.
Qed.

(** The engine reads the parameters through their four numbers and the
    ten weights [?? 1]. *)
Lemma period_body_weights (M : MathLib) (p1 p2 : Params) :
  ambition p1 = ambition p2 -> skill p1 = skill p2 ->
  selfRegulation p1 = selfRegulation p2 -> dynamism p1 = dynamism p2 ->
  (forall key, or_one (lookup key (coeffs p1)) = or_one (lookup key (coeffs p2))) ->
  forall finalTime time rs st,
    period_body M p1 finalTime time rs st = period_body M p2 finalTime time rs st.
Proof.
  intros Ha Hs Hr Hd Hw finalTime time rs st. unfold period_body.
  rewrite Ha, Hs, Hr, Hd.
  pose proof (Hw key_var1) as H1. pose proof (Hw key_var2) as H2.
  pose proof (Hw key_var3) as H3. pose proof (Hw key_var4) as H4.
  pose proof (Hw key_var5) as H5. pose proof (Hw key_var6) as H6.
  pose proof (Hw key_var7) as H7. pose proof (Hw key_var8) as H8.
  pose proof (Hw key_var9) as H9. pose proof (Hw key_var10) as H10.
  cbn [lookup] in *. rewrite H1, H2, H3, H4, H5, H6, H7, H8, H9, H10.
  reflexivity.
Qed.

Lemma runSimulation_weights (M : MathLib) (p1 p2 : Params) :
  ambition p1 = ambition p2 -> skill p1 = skill p2 ->
  selfRegulation p1 = selfRegulation p2 -> dynamism p1 = dynamism p2 ->
  (forall key, or_one (lookup key (coeffs p1)) = or_one (lookup key (coeffs p2))) ->
  forall fresh finalTime seed,
    runSimulation M fresh p1 finalTime seed = runSimulation M fresh p2 finalTime seed.
Proof.
  intros Ha Hs Hr Hd Hw fresh finalTime seed. unfold runSimulation, final_state.
  f_equal. generalize (init (baseSeed fresh seed)) as s. generalize 0 as time.
  induction (Z.to_nat (finalTime + 1)) as [|n IH]; intros time s; [reflexivity|].
  cbn [loop]. rewrite IH. f_equal. unfold step.
  now rewrite (period_body_weights M p1 p2 Ha Hs Hr Hd Hw).
Qed.

(** X14: when the badge [Modified] is not shown (no value of the
    coefficients object is [!== 1]) the run is the run with no coefficients
    at all: every weight is read as 1, as by [?? 1]. *)
Theorem unmodified_is_default (M : MathLib) (fresh : Z) (params : Params)
    (c : Coefficients) (finalTime : Z) (seed : option Z) :
  coefficients params = Some c -> modified c = false ->
  runSimulation M fresh params finalTime seed
  = runSimulation M fresh
      {| ambition := ambition params; skill := skill params;
         selfRegulation := selfRegulation params; dynamism := dynamism params;
         coefficients := None |} finalTime seed.
Proof.
  intros Hc Hm. apply runSimulation_weights; try reflexivity.
  intros key. unfold coeffs. rewrite Hc. cbn [coefficients].
  rewrite (unmodified_weight c key Hm). now destruct key.
Qed.

Lemma unmodified_is_default_witness :
  modified (App.coefficients (resetCoefficients initial)) = false
  /\ runSimulation RefMath.lib 0 (params_of (resetCoefficients initial)) 500 (Some 42)
     = runSimulation RefMath.lib 0 fixture_params 500 (Some 42).
Proof.
  split; [reflexivity|].
  apply (unmodified_is_default RefMath.lib 0 (params_of (resetCoefficients initial))
           unit_coefficients 500 (Some 42)); reflexivity.
Defined.


(** ** The statistics of the distribution view *)

Lemma F2Z_100 : nnfF 100 = true /\ F2Z 100 = 100 * 2 ^ 1074.
Proof. split; reflexivity. Qed.

(** A count of some of [n] results, divided by [n] and multiplied by
    100, is a percentage. *)
Lemma percentage (count n : Z) :
  0 <= count <= n -> 0 < n < 2 ^ 53 ->
  (0 <=? JS.of_Z count / JS.of_Z n * 100)%float = true
  /\ (JS.of_Z count / JS.of_Z n * 100 <=? 100)%float = true.
Proof.
  intros Hc Hn.
  destruct (of_Z_exact count ltac:(lia)) as [Nc Ec].
  destruct (of_Z_exact n ltac:(lia)) as [Nn En].
  pose proof (pow2_pos 1074 ltac:(lia)) as HP.
  destruct (div_bounds (JS.of_Z count) (JS.of_Z n) 1 Nc Nn) as (Q0 & Qle & _);
    [rewrite En; nia|exact nnfF_1|].
  assert (Q1 : (JS.of_Z count / JS.of_Z n <=? 1)%float = true).
  { apply Qle. rewrite Ec, En, F2Z_1. nia. }
  pose proof (nnf_between _ 1 Q0 Q1 nnfF_1) as Nq.
  rewrite (leb_nnf _ 1 Nq nnfF_1) in Q1. apply Z.leb_le in Q1. rewrite F2Z_1 in Q1.
  destruct F2Z_100 as [N100 E100].
  destruct (mul_bounds (JS.of_Z count / JS.of_Z n) 100 100 Nq N100 N100) as (H0 & Hle & _).
  split; [exact H0|]. apply Hle. rewrite E100.
  pose proof (F2Z_nonneg _ Nq). nia.
Qed.

(** X16: the two shares of the distribution view,
    [filter(...).length / length * 100] for [performance > 10] and for
    [wellbeing < -20], lie between 0 and 100, bounds included, for every
    non-empty list of results (of fewer than [2^53] entries), also when
    results hold NaN. *)
Theorem shares_are_percentages (results : list RunSummary) :
  (0 < length results)%nat -> Z.of_nat (length results) < 2 ^ 53 ->
  (0 <=? successShare results)%float = true
  /\ (successShare results <=? 100)%float = true
  /\ (0 <=? burnoutShare results)%float = true
  /\ (burnoutShare results <=? 100)%float = true.
Proof.
  intros Hpos Hlt. unfold successShare, burnoutShare.
  pose proof (filter_length_le (fun r => 10 <? r_performance r)%float results) as H1.
  pose proof (filter_length_le (fun r => r_wellbeing r <? -20)%float results) as H2.
  destruct (percentage (Z.of_nat (length (filter (fun r => 10 <? r_performance r)%float results)))
              (Z.of_nat (length results))) as [A B]; try lia.
  destruct (percentage (Z.of_nat (length (filter (fun r => r_wellbeing r <? -20)%float results)))
              (Z.of_nat (length results))) as [C D]; try lia.
  auto.
Qed.

Lemma shares_are_percentages_witness :
  exists results,
    runMultipleSimulations RefMath.lib (fun i => Z.of_nat i + 1) fixture_params 3 20
    = inr results
    /\ (0 < length results)%nat
    /\ Z.of_nat (length results) < 2 ^ 53
    /\ (successShare results <=? 100)%float = true.
Proof.
  eexists. split; [vm_compute; reflexivity|]. split; [cbn [length]; lia|].
  split; [cbn [length]; lia|].
  match goal with
  | |- (successShare ?r <=? 100)%float = true =>
      destruct (shares_are_percentages r) as (_ & H & _);
      [cbn [length]; lia|cbn [length]; lia|exact H]
  end.
Defined.

(** X17: [runDistributionAnalysis] never throws: it runs with the horizon
    500.  It stores [numSimulations] results and shows the distribution
    view; result [i] summarises the point of period 500 of a run made
    without a seed, so the locked seed plays no part in it. *)
Theorem distribution_analysis (M : MathLib) (random : nat -> Z) (a : App.t) :
  exists results,
    runDistributionAnalysis M random a
    = inr (setViewMode distribution (setMultiRunResults results a))
    /\ length results = Z.to_nat (App.numSimulations a)
    /\ forall i, (i < Z.to_nat (App.numSimulations a))%nat ->
         exists final,
           last (map Some (runSimulation M (random i) (params_of a) 500 None)) None
           = Some final
           /\ period final = 500
           /\ nth_error results i
              = Some {| run := Z.of_nat i;
                        r_performance := performance final;
                        r_wellbeing := wellbeing final;
                        finalEffort := effort final |}.
Proof.
  unfold runDistributionAnalysis, runMultipleSimulations.
  destruct (runs_results M random (params_of a) 500 ltac:(lia)
              (Z.to_nat (App.numSimulations a)) 0%nat []) as (l & El & Hlen & Hnth).
  rewrite El. exists l. split; [reflexivity|]. split; [exact Hlen|]. exact Hnth.
Qed.
